(** * syft-priority-sync: instant file synchronisation

    A shallow embedding of the Python package [syft_priority_sync]
    (models.py, api.py, watcher.py, client.py, server.py) and the
    properties of its rule store, change detector, dispatcher and
    receiver.

    Conventions.
    - A path is the list of its components below the filesystem root, as
      [pathlib] holds it after parsing; [..], symbolic links and absolute
      request targets are outside the model.  The old path of a move is a
      path name as it travels, relative or absolute, since the watcher
      sends the absolute one.
    - The filesystem is a finite map from paths to nodes (regular file or
      directory).  Every call that opens, creates or removes something can
      be refused by the operating system, and so can the stat behind
      [exists], [is_file] and [is_dir], which then raises.
    - Python code runs in a state-and-exception monad over that world;
      [try: ... except Exception:] is [try_except].
    - PyYAML is external: a file holds raw bytes or the document tree that
      [yaml.safe_load] returns for its text.  pydantic's [model_dump] and
      validation are modelled on that tree. *)

From stdpp Require Import gmap strings list fin_maps.
From Stdlib Require Import Strings.Byte.

Set Warnings "-register-all".

Open Scope string_scope.
Open Scope list_scope.

(** ** YAML documents and file contents *)

Inductive yaml : Type :=
  | YNull
  | YStr (s : string)
  | YSeq (items : list yaml)
  | YMap (entries : list (string * yaml)).

Inductive data : Type :=
  | Bytes (b : list byte)
  | YamlText (doc : yaml).

(** ** External collaborators

    [hashlib.sha256(..).hexdigest()] and pydantic's datetime codec
    ([model_dump(mode='json')] prints ISO-8601 text, validation parses it
    back). *)

Class Platform : Type := {
  datetime : Type;
  isoformat : datetime → string;
  fromisoformat : string → option datetime;
  fromisoformat_isoformat : ∀ d, fromisoformat (isoformat d) = Some d;
  sha256 : data → string;
}.

(** A path: the components below the root. *)
Abbreviation path := (list string) (only parsing).

(** ** models.py *)

Module Models.

Inductive SyncPriority : Type := INSTANT | NORMAL.

Inductive SyncOperation : Type := CREATE | UPDATE | DELETE | MOVE.

Global Instance SyncPriority_eq_dec : EqDecision SyncPriority.
Proof. solve_decision. Defined.

Global Instance SyncOperation_eq_dec : EqDecision SyncOperation.
Proof. solve_decision. Defined.

(** The [str] value of each enum member. *)
Definition priority_value (p : SyncPriority) : string :=
  match p with INSTANT => "instant" | NORMAL => "normal" end.

Definition operation_value (o : SyncOperation) : string :=
  match o with
  | CREATE => "create" | UPDATE => "update"
  | DELETE => "delete" | MOVE => "move"
  end.

(** [SyncPriority(s)] and [SyncOperation(s)]: lookup by value. *)
Definition parse_priority (s : string) : option SyncPriority :=
  if decide (s = "instant") then Some INSTANT
  else if decide (s = "normal") then Some NORMAL
  else None.

Definition parse_operation (s : string) : option SyncOperation :=
  if decide (s = "create") then Some CREATE
  else if decide (s = "update") then Some UPDATE
  else if decide (s = "delete") then Some DELETE
  else if decide (s = "move") then Some MOVE
  else None.

Definition all_operations : list SyncOperation :=
  [CREATE; UPDATE; DELETE; MOVE].

Record SyncPriorityRule : Type := {
  users : list string;
  priority : SyncPriority;
  operations : list SyncOperation;
}.

(** A path name as a string holds it: relative, or absolute (from the
    root).  [Relative []] is the empty string. *)
Inductive pathname : Type :=
  | Relative (p : path)
  | Absolute (p : path).

(** [base / name]: [pathlib] drops [base] when [name] is absolute. *)
Definition joinpath (base : path) (name : pathname) : path :=
  match name with
  | Relative p => base ++ p
  | Absolute p => p
  end.

Section WithPlatform.
Context `{Platform}.

Record SyncPriorityConfig : Type := {
  rules : list SyncPriorityRule;
  created : datetime;
  updated : datetime;
}.

Record SyncRequest : Type := {
  sender : string;
  target_path : path;
  operation : SyncOperation;
  content : option data;
  old_path : option pathname;
  timestamp : datetime;
  checksum : option string;
}.

Record SyncResponse : Type := {
  success : bool;
  message : string;
  response_timestamp : datetime;
  error_code : option string;
}.

End WithPlatform.

(** The constraint pydantic checks when a rule is constructed:
    [users] has [min_length=1]. *)
Definition rule_valid (r : SyncPriorityRule) : Prop := users r ≠ [].

Global Instance rule_valid_dec r : Decision (rule_valid r).
Proof. unfold rule_valid. apply _. Defined.

End Models.

Import Models.

(** ** The world the code runs in: filesystem, clock, permission backend,
       identity and RPC transport *)

Module Os.

(** The Python exceptions the code can meet; all derive from
    [Exception]. *)
Inductive exn : Type :=
  | FileNotFoundError
  | FileExistsError
  | NotADirectoryError
  | IsADirectoryError
  | PermissionError
  | ShutilError
  | YAMLError
  | TypeError
  | ValueError
  | ValidationError
  | ImportError
  | RuntimeError
  | TimeoutError.

Inductive outcome (A : Type) : Type :=
  | Ok (a : A)
  | Raise (e : exn).
Global Arguments Ok {A} a.
Global Arguments Raise {A} e.

Inductive node : Type :=
  | File (d : data)
  | Dir.

Inductive syscall : Type :=
  | SysMkdir (p : path)
  | SysOpenRead (p : path)
  | SysOpenWrite (p : path)
  | SysTouch (p : path)
  | SysUnlink (p : path)
  | SysRmtree (p : path)
  | SysMove (src dst : path)
  | SysStat (p : path).

Section WithPlatform.
Context `{Platform}.

Record world : Type := {
  fs : gmap path node;
  (* calls the operating system refuses (permissions, I/O errors) *)
  refused : syscall → bool;
  (* datetime.now(timezone.utc) *)
  clock : datetime;
  (* syft_core.permissions.check_permission; None: the import fails *)
  permission_backend : option (string → path → string → outcome bool);
  (* SyftBoxClient.load().email; None: load raises *)
  identity : option string;
  (* what rpc.send(..).wait(..) brings back from a datasite; None: time
     out, transport failure or non-success status *)
  transport : string → SyncRequest → option SyncResponse;
  (* requests handed to rpc.send, oldest first *)
  outbox : list (string * SyncRequest);
}.

Definition with_fs (m : gmap path node) (w : world) : world :=
  {| fs := m; refused := refused w; clock := clock w;
     permission_backend := permission_backend w;
     identity := identity w; transport := transport w;
     outbox := outbox w |}.

Definition with_outbox (o : list (string * SyncRequest)) (w : world) : world :=
  {| fs := fs w; refused := refused w; clock := clock w;
     permission_backend := permission_backend w;
     identity := identity w; transport := transport w;
     outbox := o |}.

(** State and exceptions: a computation ends in a value or a raised
    exception, and in both cases leaves a world behind. *)
Definition M (A : Type) : Type := world → outcome A * world.

Definition ret {A} (a : A) : M A := λ w, (Ok a, w).

Definition bind {A B} (m : M A) (k : A → M B) : M B :=
  λ w, match m w with
       | (Ok a, w') => k a w'
       | (Raise e, w') => (Raise e, w')
       end.

Definition raise {A} (e : exn) : M A := λ w, (Raise e, w).

Definition try_except {A} (body : M A) (handler : exn → M A) : M A :=
  λ w, match body w with
       | (Ok a, w') => (Ok a, w')
       | (Raise e, w') => handler e w'
       end.

Definition get_world : M world := λ w, (Ok w, w).
Definition put_fs (m : gmap path node) : M unit := λ w, (Ok (), with_fs m w).

End WithPlatform.

Declare Scope py_scope.
Delimit Scope py_scope with py.
Notation "x <- m ;; k" := (bind m (λ x, k))
  (at level 100, m at next level, right associativity) : py_scope.
Notation "m ;;; k" := (bind m (λ _, k))
  (at level 100, right associativity) : py_scope.

Section Filesystem.
Context `{Platform}.
Local Open Scope py_scope.

(** [Path.parent] and [Path.name]. *)
Definition parent (p : path) : path := removelast p.
Definition name (p : path) : string := List.last p EmptyString.

(** The path and all its ancestors, root first. *)
Definition prefixes (p : path) : list path :=
  (λ n, take n p) <$> seq 0 (S (length p)).

Definition is_file_at (m : gmap path node) (p : path) : bool :=
  match m !! p with Some (File _) => true | _ => false end.
Definition is_dir_at (m : gmap path node) (p : path) : bool :=
  match m !! p with Some Dir => true | _ => false end.
Definition exists_at (m : gmap path node) (p : path) : bool :=
  match m !! p with Some _ => true | None => false end.

(** [Path.exists()], [is_file()] and [is_dir()] stat the path, and up to
    CPython 3.13 re-raise the [OSError] of a stat that fails for another
    reason than a missing file: a name too long, a directory on the way
    that may not be searched.  Such a path cannot be opened either, so the
    refusal of a stat counts only where the open for reading is refused
    as well. *)
Definition stat_refused (w : world) (p : path) : bool :=
  refused w (SysStat p) && refused w (SysOpenRead p).

Definition stat {A} (answer : gmap path node → path → A) (p : path) : M A :=
  λ w, if stat_refused w p then (Raise PermissionError, w)
       else (Ok (answer (fs w) p), w).

Definition exists_ (p : path) : M bool := stat exists_at p.
Definition is_file (p : path) : M bool := stat is_file_at p.
Definition is_dir (p : path) : M bool := stat is_dir_at p.

(** The operating system may refuse the call. *)
Definition os_call (c : syscall) : M unit :=
  λ w, if refused w c then (Raise PermissionError, w) else (Ok (), w).

(** [p.mkdir(parents=True, exist_ok=True)]: fails when [p] or one of
    its ancestors is a regular file, and then creates nothing. *)
Definition make_dirs (p : path) (m : gmap path node) : gmap path node :=
  foldr (λ q acc, <[q := Dir]> acc) m (prefixes p).

Definition mkdir_parents (p : path) : M unit :=
  os_call (SysMkdir p) ;;;
  w <- get_world ;;
  if existsb (is_file_at (fs w)) (prefixes p)
  then raise (if is_file_at (fs w) p then FileExistsError else NotADirectoryError)
  else put_fs (make_dirs p (fs w)).

(** [open(p, 'rb').read()]. *)
Definition read_bytes (p : path) : M data :=
  os_call (SysOpenRead p) ;;;
  w <- get_world ;;
  match fs w !! p with
  | Some (File d) => ret d
  | Some Dir => raise IsADirectoryError
  | None => raise FileNotFoundError
  end.

(** [open(p, 'wb').write(d)]: the parent must be a directory and [p]
    must not be one. *)
Definition write_bytes (p : path) (d : data) : M unit :=
  os_call (SysOpenWrite p) ;;;
  w <- get_world ;;
  match fs w !! p with
  | Some Dir => raise IsADirectoryError
  | Some (File _) => put_fs (<[p := File d]> (fs w))
  | None =>
      if is_dir_at (fs w) (parent p)
      then put_fs (<[p := File d]> (fs w))
      else raise FileNotFoundError
  end.

(** [p.touch()]. *)
Definition touch (p : path) : M unit :=
  os_call (SysTouch p) ;;;
  w <- get_world ;;
  match fs w !! p with
  | Some _ => ret ()
  | None =>
      if is_dir_at (fs w) (parent p)
      then put_fs (<[p := File (Bytes [])]> (fs w))
      else raise FileNotFoundError
  end.

(** [p.unlink()]. *)
Definition unlink (p : path) : M unit :=
  os_call (SysUnlink p) ;;;
  w <- get_world ;;
  match fs w !! p with
  | Some (File _) => put_fs (delete p (fs w))
  | Some Dir => raise IsADirectoryError
  | None => raise FileNotFoundError
  end.

(** [shutil.rmtree(p)]: removes [p] and everything below it. *)
Definition remove_tree (p : path) (m : gmap path node) : gmap path node :=
  filter (λ kv, ¬ (p `prefix_of` kv.1)) m.

Definition rmtree (p : path) : M unit :=
  os_call (SysRmtree p) ;;;
  w <- get_world ;;
  match fs w !! p with
  | Some Dir => put_fs (remove_tree p (fs w))
  | Some (File _) => raise NotADirectoryError
  | None => raise FileNotFoundError
  end.

(** [os.rename] of a file or a whole subtree. *)
Definition rename_tree (src dst : path) (m : gmap path node) : gmap path node :=
  list_to_map
    ((λ kv : path * node, (dst ++ drop (length src) kv.1, kv.2))
       <$> map_to_list (filter (λ kv, src `prefix_of` kv.1) m))
  ∪ remove_tree src m.

(** [shutil.move(src, dst)]: into [dst] when [dst] is a directory,
    onto [dst] otherwise.  A regular file is renamed, which needs the
    destination's parent.  A directory moves neither into itself nor onto
    a regular file; where the rename cannot be done for want of the
    parent, [copytree] makes the missing directories. *)
Definition move (src dst : path) : M unit :=
  os_call (SysMove src dst) ;;;
  w <- get_world ;;
  let m := fs w in
  if is_dir_at m dst && bool_decide (src = dst) then ret ()
  else
    let real_dst := if is_dir_at m dst then dst ++ [name src] else dst in
    if is_dir_at m dst && exists_at m real_dst then raise ShutilError
    else match m !! src with
         | None => raise FileNotFoundError
         | Some (File _) =>
             if is_dir_at m (parent real_dst)
             then put_fs (rename_tree src real_dst m)
             else raise FileNotFoundError
         | Some Dir =>
             if bool_decide (src `prefix_of` real_dst) then raise ShutilError
             else if is_file_at m real_dst then raise FileExistsError
             else if existsb (is_file_at m) (prefixes (parent real_dst))
             then raise NotADirectoryError
             else put_fs (rename_tree src real_dst
                            (make_dirs (parent real_dst) m))
         end.

(** [yaml.safe_load(open(p, 'r'))] and
    [yaml.safe_dump(doc, open(p, 'w'), ...)]. *)
Definition yaml_safe_load (p : path) : M yaml :=
  d <- read_bytes p ;;
  match d with
  | YamlText doc => ret doc
  | Bytes _ => raise YAMLError
  end.

Definition yaml_safe_dump (doc : yaml) (p : path) : M unit :=
  write_bytes p (YamlText doc).

(** [datetime.now(timezone.utc)]. *)
Definition now : M datetime := λ w, (Ok (clock w), w).

(** A well-formed tree: the root is a directory and whatever exists lies
    below directories. *)
Definition well_formed (m : gmap path node) : Prop :=
  m !! [] = Some Dir ∧
  ∀ p q, is_Some (m !! p) → q `prefix_of` p → q ≠ p → m !! q = Some Dir.

(** The same, as a check that runs on a given tree. *)
Definition well_formed_check (m : gmap path node) : bool :=
  is_dir_at m [] &&
  forallb (λ kv : path * node,
             forallb (λ q : path, bool_decide (q = kv.1) || is_dir_at m q)
               (prefixes kv.1))
          (map_to_list m).

(** The operating system refuses nothing. *)
Definition no_faults (w : world) : Prop := ∀ c, refused w c = false.

(** The tree and the refusals of [w'] are those of [w]; a computation
    keeps the files when every run of it ends in such a world. *)
Definition same_files (w w' : world) : Prop :=
  fs w' = fs w ∧ refused w' = refused w.

Definition keeps_files {A} (m : M A) : Prop :=
  ∀ w o w', m w = (o, w') → same_files w w'.

End Filesystem.

End Os.

Import Os.
Open Scope py_scope.

(** ** pydantic: [model_dump(mode='json')] and model validation *)

Module Pydantic.

Section WithPlatform.
Context `{Platform}.

Definition dump_rule (r : SyncPriorityRule) : yaml :=
  YMap [("users", YSeq (YStr <$> users r));
        ("priority", YStr (priority_value (priority r)));
        ("operations", YSeq ((λ o, YStr (operation_value o)) <$> operations r))].

Definition model_dump (c : SyncPriorityConfig) : yaml :=
  YMap [("rules", YSeq (dump_rule <$> rules c));
        ("created", YStr (isoformat (created c)));
        ("updated", YStr (isoformat (updated c)))].

(** A key of a loaded mapping; PyYAML keeps the last binding of a
    repeated key. *)
Definition ylookup (k : string) (entries : list (string * yaml)) : option yaml :=
  (λ hit : nat * (string * yaml), hit.2.2)
    <$> list_find (λ kv, kv.1 = k) (reverse entries).

Definition as_str (y : yaml) : option string :=
  match y with YStr s => Some s | _ => None end.

Definition as_seq (y : yaml) : option (list yaml) :=
  match y with YSeq l => Some l | _ => None end.

Definition validate_str_list (y : yaml) : option (list string) :=
  as_seq y ≫= mapM as_str.

Definition validate_operations (o : option yaml) : option (list SyncOperation) :=
  match o with
  | None => Some all_operations
  | Some y => validate_str_list y ≫= mapM parse_operation
  end.

(** Validation of one rule mapping: [users] and [priority] are
    required, [users] has at least one element, [operations] defaults
    to all four; unknown keys are ignored. *)
Definition validate_rule (y : yaml) : option SyncPriorityRule :=
  match y with
  | YMap entries =>
      us ← ylookup "users" entries ≫= validate_str_list;
      if decide (us = []) then None
      else
        s ← ylookup "priority" entries ≫= as_str;
        pr ← parse_priority s;
        ops ← validate_operations (ylookup "operations" entries);
        Some {| users := us; priority := pr; operations := ops |}
  | _ => None
  end.

Definition validate_datetime (default : datetime) (o : option yaml) : option datetime :=
  match o with
  | None => Some default
  | Some y => as_str y ≫= fromisoformat
  end.

(** Validation of the config mapping: [rules] is required; [created]
    and [updated] default to the current time. *)
Definition validate_config (t : datetime) (entries : list (string * yaml))
  : option SyncPriorityConfig :=
  items ← ylookup "rules" entries ≫= as_seq;
  rs ← mapM validate_rule items;
  cr ← validate_datetime t (ylookup "created" entries);
  up ← validate_datetime t (ylookup "updated" entries);
  Some {| rules := rs; created := cr; updated := up |}.

(** The [SyncPriorityConfig] constructor applied to what
    [yaml.safe_load] returned; anything but a mapping is a [TypeError]. *)
Definition construct_config (doc : yaml) : M SyncPriorityConfig :=
  match doc with
  | YMap entries =>
      t <- now ;;
      match validate_config t entries with
      | Some c => ret c
      | None => raise ValidationError
      end
  | _ => raise TypeError
  end.

(** [SyncPriorityRule(users=.., priority=.., operations=..)]. *)
Definition construct_rule (us : list string) (pr : SyncPriority)
    (ops : list SyncOperation) : M SyncPriorityRule :=
  if decide (us = []) then raise ValidationError
  else ret {| users := us; priority := pr; operations := ops |}.

End WithPlatform.

End Pydantic.

Import Pydantic.

(** ** api.py *)

Module Api.

Inductive users_arg : Type :=
  | OneUser (u : string)
  | UserList (us : list string).

Inductive priority_arg : Type :=
  | PriorityStr (s : string)
  | PriorityEnum (p : SyncPriority).

Inductive operation_arg : Type :=
  | OperationStr (s : string)
  | OperationEnum (o : SyncOperation).

(** [set(a) == set(b)] on user lists. *)
Definition same_users (a b : list string) : Prop :=
  (list_to_set a : gset string) = list_to_set b.

Global Instance same_users_dec a b : Decision (same_users a b).
Proof. unfold same_users. apply _. Defined.

Section WithPlatform.
Context `{Platform}.

(** [file_path.parent / f"{file_path.name}.syncpriority.yaml"]. *)
Definition syncpriority_path (file_path : path) : path :=
  parent file_path ++ [name file_path +:+ ".syncpriority.yaml"].

Definition load_sync_priority (file_path : path) : M (option SyncPriorityConfig) :=
  let syncpriority_path := syncpriority_path file_path in
  found <- exists_ syncpriority_path ;;
  if negb found then ret None
  else
    try_except
      (doc <- yaml_safe_load syncpriority_path ;;
       c <- construct_config doc ;;
       ret (Some c))
      (λ _, ret None).

Definition save_sync_priority (file_path : path) (config : SyncPriorityConfig) : M unit :=
  let syncpriority_path := syncpriority_path file_path in
  mkdir_parents (parent syncpriority_path) ;;;
  yaml_safe_dump (model_dump config) syncpriority_path.

Definition users_of (a : users_arg) : list string :=
  match a with OneUser u => [u] | UserList us => us end.

(** [SyncPriority(priority) if isinstance(priority, str)]. *)
Definition parse_priority_arg (a : priority_arg) : option SyncPriority :=
  match a with
  | PriorityEnum p => Some p
  | PriorityStr s => parse_priority s
  end.

(** [[SyncOperation(op) if isinstance(op, str) else op for op in operations]],
    all four operations when [operations is None]. *)
Definition parse_operation_arg (a : operation_arg) : option SyncOperation :=
  match a with
  | OperationEnum o => Some o
  | OperationStr s => parse_operation s
  end.

Definition parse_operation_args (l : option (list operation_arg))
  : option (list SyncOperation) :=
  match l with
  | None => Some all_operations
  | Some l => mapM parse_operation_arg l
  end.

(** An enum constructor raises [ValueError] on a string that is not one
    of its values. *)
Definition or_value_error {A} (o : option A) : M A :=
  match o with Some a => ret a | None => raise ValueError end.

Definition empty_config : M SyncPriorityConfig :=
  c <- now ;;
  u <- now ;;
  ret {| rules := []; created := c; updated := u |}.

Definition with_rules (rs : list SyncPriorityRule) (c : SyncPriorityConfig)
  : SyncPriorityConfig :=
  {| rules := rs; created := created c; updated := updated c |}.

(** The rules kept by [set_sync_priority]: those for another
    user set. *)
Definition other_rules (us : list string) (rs : list SyncPriorityRule)
  : list SyncPriorityRule :=
  filter (λ r, ¬ same_users (users r) us) rs.

Definition set_sync_priority (file_path : path) (users : users_arg)
    (priority : priority_arg) (operations : option (list operation_arg)) : M bool :=
  let users := users_of users in
  priority <- or_value_error (parse_priority_arg priority) ;;
  operations <- or_value_error (parse_operation_args operations) ;;
  loaded <- load_sync_priority file_path ;;
  config <- match loaded with Some c => ret c | None => empty_config end ;;
  rule <- construct_rule users priority operations ;;
  let config := with_rules (other_rules users (rules config) ++ [rule]) config in
  try_except
    (save_sync_priority file_path config ;;; ret true)
    (λ _, ret false).

(** The loop of [get_sync_priority]. *)
Fixpoint first_match (user : string) (rs : list SyncPriorityRule) : SyncPriority :=
  match rs with
  | [] => NORMAL
  | rule :: rs' =>
      if decide (user ∈ users rule ∨ "*" ∈ users rule) then priority rule
      else first_match user rs'
  end.

Definition get_sync_priority (file_path : path) (user : string) : M SyncPriority :=
  config <- load_sync_priority file_path ;;
  match config with
  | None => ret NORMAL
  | Some config => ret (first_match user (rules config))
  end.

(** The loop of [remove_sync_priority]. *)
Fixpoint strip_users (gone : list string) (rs : list SyncPriorityRule)
  : list SyncPriorityRule :=
  match rs with
  | [] => []
  | rule :: rs' =>
      let remaining_users := filter (λ u, u ∉ gone) (users rule) in
      match remaining_users with
      | [] => strip_users gone rs'
      | _ :: _ =>
          {| users := remaining_users; priority := priority rule;
             operations := operations rule |} :: strip_users gone rs'
      end
  end.

Definition unlink_if_exists (p : path) : M unit :=
  found <- exists_ p ;;
  if found then unlink p else ret ().

Definition remove_sync_priority (file_path : path) (users : option users_arg) : M bool :=
  let syncpriority_path := syncpriority_path file_path in
  match users with
  | None =>
      try_except
        (unlink_if_exists syncpriority_path ;;; ret true)
        (λ _, ret false)
  | Some users =>
      let users := users_of users in
      config <- load_sync_priority file_path ;;
      match config with
      | None => ret true
      | Some config =>
          let config := with_rules (strip_users users (rules config)) config in
          try_except
            (match rules config with
             | _ :: _ => save_sync_priority file_path config
             | [] => unlink_if_exists syncpriority_path
             end ;;;
             ret true)
            (λ _, ret false)
      end
  end.

Definition list_sync_priorities (file_path : path) : M (list SyncPriorityRule) :=
  config <- load_sync_priority file_path ;;
  ret (match config with Some c => rules c | None => [] end).

(** What the sidecar of [file_path] amounts to in world [w]: the config
    its document validates to, when it is there, readable and valid. *)
Definition stored_config (w : world) (file_path : path) : option SyncPriorityConfig :=
  match fs w !! syncpriority_path file_path with
  | Some (File (YamlText (YMap entries))) =>
      if refused w (SysOpenRead (syncpriority_path file_path)) then None
      else validate_config (clock w) entries
  | _ => None
  end.

Definition rules_before (w : world) (file_path : path) : list SyncPriorityRule :=
  match stored_config w file_path with Some c => rules c | None => [] end.

(** A rule applies to [user]: it names the user or the wildcard. *)
Definition rule_covers (user : string) (rule : SyncPriorityRule) : Prop :=
  user ∈ users rule ∨ "*" ∈ users rule.

(** What is left of a rule once the identifiers [gone] are removed: the
    rule with the remaining users, same priority and operations, or
    nothing when no user remains. *)
Definition remaining_rule (gone : list string) (r : SyncPriorityRule)
  : option SyncPriorityRule :=
  let remaining := filter (λ u, u ∉ gone) (users r) in
  if decide (remaining = []) then None
  else Some {| users := remaining; priority := priority r;
               operations := operations r |}.

(** The user set a rule is about, and rule lists that hold at most one
    rule for a user set. *)
Definition user_set (r : SyncPriorityRule) : gset string := list_to_set (users r).

Definition distinct_user_sets (rs : list SyncPriorityRule) : Prop :=
  NoDup (user_set <$> rs).

End WithPlatform.


End Api.

Import Api.

(** ** client.py *)

Module Client.

Section WithPlatform.
Context `{Platform}.

(** [SyftBoxClient.load().email]. *)
Definition load_client_email : M string :=
  λ w, match identity w with
       | Some email => (Ok email, w)
       | None => (Raise RuntimeError, w)
       end.

(** [rpc.send(url, body, ..).wait(timeout)], [raise_for_status] and
    [model(SyncResponse)]: the request leaves, then a response comes
    back or the call raises. *)
Definition rpc_send_wait (target_user : string) (request : SyncRequest)
  : M SyncResponse :=
  λ w, let w' := with_outbox (outbox w ++ [(target_user, request)]) w in
       match transport w target_user request with
       | Some response => (Ok response, w')
       | None => (Raise TimeoutError, w')
       end.

Definition read_for_sync (file_path : path) (operation : SyncOperation)
  : M (option data * option string) :=
  if decide (operation ∈ [CREATE; UPDATE]) then
    found <- exists_ file_path ;;
    regular <- (if found then is_file file_path else ret false) ;;
    if regular then
      content <- read_bytes file_path ;;
      ret (Some content, Some (sha256 content))
    else ret (None, None)
  else ret (None, None).

Definition send_instant_sync (target_user : string) (file_path : path)
    (relative_path : path) (operation : SyncOperation)
    (old_path : option pathname) : M (option SyncResponse) :=
  try_except
    (email <- load_client_email ;;
     cc <- read_for_sync file_path operation ;;
     t <- now ;;
     let request :=
       {| sender := email; target_path := relative_path;
          operation := operation; content := cc.1;
          old_path := old_path; timestamp := t; checksum := cc.2 |} in
     response <- rpc_send_wait target_user request ;;
     ret (Some response))
    (λ _, ret None).

(** [permission_map.get(operation, "write")]. *)
Definition required_permission (operation : SyncOperation) : string :=
  match operation with
  | CREATE => "write"
  | UPDATE => "write"
  | DELETE => "admin"
  | MOVE => "admin"
  end.

(** [from syft_core.permissions import check_permission]. *)
Definition import_check_permission
  : M (string → path → string → outcome bool) :=
  λ w, match permission_backend w with
       | Some check => (Ok check, w)
       | None => (Raise ImportError, w)
       end.

Definition lift_outcome {A} (o : outcome A) : M A := λ w, (o, w).

Definition validate_sync_permissions (sender : string) (target_path : path)
    (operation : SyncOperation) (base_path : path) : M bool :=
  try_except
    (check_permission <- import_check_permission ;;
     let full_path := base_path ++ target_path in
     let required_permission := required_permission operation in
     lift_outcome (check_permission sender full_path required_permission))
    (λ _, ret false).

(** What [send_instant_sync] reads for the request: the bytes of a regular
    file for a create or an update, nothing otherwise; and the request it
    builds from them. *)
Definition sync_content (w : world) (file_path : path) (operation : SyncOperation)
  : option data :=
  if decide (operation ∈ [CREATE; UPDATE]) then
    match fs w !! file_path with
    | Some (File d) => Some d
    | _ => None
    end
  else None.

(** What keeps [send_instant_sync] from sending once the client is
    loaded: for a create or an update, a refused stat of the file, or a
    refused read of the regular file found there. *)
Definition held_back (w : world) (file_path : path) (operation : SyncOperation)
  : bool :=
  (bool_decide (operation ∈ [CREATE; UPDATE]) && stat_refused w file_path)
  || (bool_decide (is_Some (sync_content w file_path operation))
      && refused w (SysOpenRead file_path)).

Definition envelope (w : world) (me : string) (file_path relative_path : path)
    (operation : SyncOperation) (old_path : option pathname) : SyncRequest :=
  {| sender := me; target_path := relative_path; operation := operation;
     content := sync_content w file_path operation; old_path := old_path;
     timestamp := clock w;
     checksum := sha256 <$> sync_content w file_path operation |}.

End WithPlatform.

End Client.

Import Client.

(** ** watcher.py *)

Module Watcher.

Record FileSystemEvent : Type := {
  is_directory : bool;
  src_path : path;
  dest_path : path;
}.

Record SyncPriorityHandler : Type := {
  base_path : path;
  client_email : string;
  file_checksums : gmap path string;
}.

Definition with_checksums (c : gmap path string) (h : SyncPriorityHandler)
  : SyncPriorityHandler :=
  {| base_path := base_path h; client_email := client_email h;
     file_checksums := c |}.

(** [str.startswith], [str.endswith] and [Path.suffix]. *)
Definition startswith (s pre : string) : bool := String.prefix pre s.

Definition endswith (s suf : string) : bool :=
  String.prefix (String.rev suf) (String.rev s).

Definition suffix (name : string) : string :=
  let n := String.length name in
  match String.index 0 "." (String.rev name) with
  | Some j =>
      (* the last dot sits at i = n - 1 - j; pathlib wants 0 < i < n - 1 *)
      if bool_decide (0 < j ∧ j < n - 1)
      then String.substring (n - 1 - j) (j + 1) name
      else EmptyString
  | None => EmptyString
  end.

Definition _should_ignore (file_path : path) : bool :=
  if endswith (name file_path) ".syncpriority.yaml" then true
  else if startswith (name file_path) "." then true
  else if bool_decide (suffix (name file_path) ∈ [".tmp"; ".swp"; ".lock"]) then true
  else false.

(** [path.relative_to(base)]. *)
Definition relative_to (p base : path) : option path :=
  if decide (base `prefix_of` p) then Some (drop (length base) p) else None.

Section WithPlatform.
Context `{Platform}.

Definition _content_changed (h : SyncPriorityHandler) (file_path : path)
  : M (SyncPriorityHandler * bool) :=
  try_except
    (content <- read_bytes file_path ;;
     let new_checksum := sha256 content in
     let old_checksum := file_checksums h !! file_path in
     if decide (old_checksum ≠ Some new_checksum)
     then ret (with_checksums (<[file_path := new_checksum]> (file_checksums h)) h, true)
     else ret (h, false))
    (λ _, ret (h, true)).

(** The first loop of [_handle_sync_event]. *)
Fixpoint instant_users_of (operation : SyncOperation) (rs : list SyncPriorityRule)
  : list string :=
  match rs with
  | [] => []
  | rule :: rs' =>
      if decide (priority rule = INSTANT ∧ operation ∈ operations rule)
      then users rule ++ instant_users_of operation rs'
      else instant_users_of operation rs'
  end.

(** The second loop; the result lists the calls of
    [send_instant_sync] in the order they were made, each with what it
    returned. *)
Fixpoint send_to_each (h : SyncPriorityHandler) (file_path relative_path : path)
    (operation : SyncOperation) (old_path : option pathname) (us : list string)
  : M (list (string * option SyncResponse)) :=
  match us with
  | [] => ret []
  | user :: us' =>
      if decide (user ≠ client_email h) then
        r <- send_instant_sync user file_path relative_path operation old_path ;;
        rest <- send_to_each h file_path relative_path operation old_path us' ;;
        ret ((user, r) :: rest)
      else send_to_each h file_path relative_path operation old_path us'
  end.

(** [set(instant_users)] with ["*"] removed; a Python set is walked
    in an order of its own, here the order of [elements]. *)
Definition unique_users (instant_users : list string) : gset string :=
  let unique_users : gset string := list_to_set instant_users in
  if decide ("*" ∈ unique_users) then unique_users ∖ {["*"]} else unique_users.

(** The peers the second loop calls [send_instant_sync] for, in its
    order: the set of instant users without the wildcard, the client's own
    address passed over. *)
Definition event_targets (h : SyncPriorityHandler) (operation : SyncOperation)
    (rs : list SyncPriorityRule) : list string :=
  filter (λ u, u ≠ client_email h)
    (elements (unique_users (instant_users_of operation rs))).

(** The peers the rules name for [operation]: the users of the rules
    whose priority is instant and whose operations contain it. *)
Definition needs_instant_sync (config : SyncPriorityConfig)
    (operation : SyncOperation) (u : string) : Prop :=
  ∃ rule, rule ∈ rules config ∧ priority rule = INSTANT ∧
          operation ∈ operations rule ∧ u ∈ users rule.

Definition _handle_sync_event (h : SyncPriorityHandler) (file_path : path)
    (operation : SyncOperation) (old_path : option pathname)
  : M (list (string * option SyncResponse)) :=
  try_except
    (relative_path <- match relative_to file_path (base_path h) with
                      | Some r => ret r
                      | None => raise ValueError
                      end ;;
     config <- load_sync_priority file_path ;;
     match config with
     | None => ret []
     | Some config =>
         let instant_users := instant_users_of operation (rules config) in
         match instant_users with
         | [] => ret []
         | _ :: _ =>
             send_to_each h file_path relative_path operation old_path
               (elements (unique_users instant_users))
         end
     end)
    (λ _, ret []).

Definition on_created (h : SyncPriorityHandler) (event : FileSystemEvent)
  : M (SyncPriorityHandler * list (string * option SyncResponse)) :=
  if is_directory event || _should_ignore (src_path event) then ret (h, [])
  else
    sent <- _handle_sync_event h (src_path event) CREATE None ;;
    ret (h, sent).

Definition on_modified (h : SyncPriorityHandler) (event : FileSystemEvent)
  : M (SyncPriorityHandler * list (string * option SyncResponse)) :=
  if is_directory event || _should_ignore (src_path event) then ret (h, [])
  else
    hc <- _content_changed h (src_path event) ;;
    if hc.2 then
      sent <- _handle_sync_event hc.1 (src_path event) UPDATE None ;;
      ret (hc.1, sent)
    else ret (hc.1, []).

Definition on_deleted (h : SyncPriorityHandler) (event : FileSystemEvent)
  : M (SyncPriorityHandler * list (string * option SyncResponse)) :=
  if _should_ignore (src_path event) then ret (h, [])
  else
    sent <- _handle_sync_event h (src_path event) DELETE None ;;
    ret (with_checksums (delete (src_path event) (file_checksums h)) h, sent).

Definition on_moved (h : SyncPriorityHandler) (event : FileSystemEvent)
  : M (SyncPriorityHandler * list (string * option SyncResponse)) :=
  if _should_ignore (src_path event) || _should_ignore (dest_path event)
  then ret (h, [])
  else
    sent <- _handle_sync_event h (dest_path event) MOVE
              (Some (Absolute (src_path event))) ;;
    ret (h, sent).


End WithPlatform.

End Watcher.

Import Watcher.

(** ** server.py *)

Module Server.

(** [str(path)] and [str(e)], for the diagnostic text of a response. *)
Definition path_str (p : path) : string := "/" +:+ String.concat "/" p.

Definition exn_str (e : exn) : string :=
  match e with
  | FileNotFoundError => "No such file or directory"
  | FileExistsError => "File exists"
  | NotADirectoryError => "Not a directory"
  | IsADirectoryError => "Is a directory"
  | PermissionError => "Permission denied"
  | ShutilError => "Destination path already exists"
  | YAMLError => "YAMLError"
  | TypeError => "TypeError"
  | ValueError => "ValueError"
  | ValidationError => "ValidationError"
  | ImportError => "No module named syft_core"
  | RuntimeError => "RuntimeError"
  | TimeoutError => "TimeoutError"
  end.

Section WithPlatform.
Context `{Platform}.

(** [SyncResponse(success=.., message=.., error_code=..)]. *)
Definition respond (ok : bool) (msg : string) (code : option string)
  : M SyncResponse :=
  t <- now ;;
  ret {| success := ok; message := msg; response_timestamp := t;
         error_code := code |}.

(** Each handler is a [try] block and its [except Exception] clause;
    the block is named so that what happens inside it can be told from
    what the handler returns. *)
Definition create_block (request : SyncRequest) (target_path : path)
  : M SyncResponse :=
  mkdir_parents (parent target_path) ;;;
  found <- exists_ target_path ;;
  if found then
    respond false ("File already exists: " +:+ path_str target_path)
      (Some "FILE_EXISTS")
  else
    match content request with
    | Some c => write_bytes target_path c
    | None => touch target_path
    end ;;;
    respond true ("Created: " +:+ path_str target_path) None.

Definition _handle_create (request : SyncRequest) (target_path : path)
  : M SyncResponse :=
  try_except (create_block request target_path)
    (λ e, respond false ("Create failed: " +:+ exn_str e) (Some "CREATE_ERROR")).

Definition update_block (request : SyncRequest) (target_path : path)
  : M SyncResponse :=
  found <- exists_ target_path ;;
  if negb found then
    respond false ("File not found: " +:+ path_str target_path)
      (Some "FILE_NOT_FOUND")
  else
    match content request with
    | Some c => write_bytes target_path c
    | None => ret ()
    end ;;;
    respond true ("Updated: " +:+ path_str target_path) None.

Definition _handle_update (request : SyncRequest) (target_path : path)
  : M SyncResponse :=
  try_except (update_block request target_path)
    (λ e, respond false ("Update failed: " +:+ exn_str e) (Some "UPDATE_ERROR")).

Definition delete_block (request : SyncRequest) (target_path : path)
  : M SyncResponse :=
  found <- exists_ target_path ;;
  if negb found then
    respond true ("File already deleted: " +:+ path_str target_path) None
  else
    regular <- is_file target_path ;;
    (if regular then unlink target_path
     else
       directory <- is_dir target_path ;;
       if directory then rmtree target_path else ret ()) ;;;
    respond true ("Deleted: " +:+ path_str target_path) None.

Definition _handle_delete (request : SyncRequest) (target_path : path)
  : M SyncResponse :=
  try_except (delete_block request target_path)
    (λ e, respond false ("Delete failed: " +:+ exn_str e) (Some "DELETE_ERROR")).

(** [if not request.old_path]: absent or the empty string; then
    [self.base_path / request.old_path]. *)
Definition move_block (base_path : path) (request : SyncRequest)
    (target_path : path) : M SyncResponse :=
  match old_path request with
  | None | Some (Relative []) =>
      respond false "Old path required for move operation"
        (Some "MISSING_OLD_PATH")
  | Some name =>
      let old_path := joinpath base_path name in
      found <- exists_ old_path ;;
      if negb found then
        respond false ("Source file not found: " +:+ path_str old_path)
          (Some "SOURCE_NOT_FOUND")
      else
        mkdir_parents (parent target_path) ;;;
        move old_path target_path ;;;
        respond true
          ("Moved: " +:+ path_str old_path +:+ " -> " +:+ path_str target_path)
          None
  end.

Definition _handle_move (base_path : path) (request : SyncRequest)
    (target_path : path) : M SyncResponse :=
  try_except (move_block base_path request target_path)
    (λ e, respond false ("Move failed: " +:+ exn_str e) (Some "MOVE_ERROR")).

(** The [if]/[elif] chain over [request.operation]; the enum has no
    fifth member, so the final [else] has no case here. *)
Definition serve (base_path : path) (request : SyncRequest) : M SyncResponse :=
  let target_path := base_path ++ target_path request in
  match operation request with
  | CREATE => _handle_create request target_path
  | UPDATE => _handle_update request target_path
  | DELETE => _handle_delete request target_path
  | MOVE => _handle_move base_path request target_path
  end.

Definition handle_sync_request (base_path : path) (request : SyncRequest)
  : M SyncResponse :=
  try_except
    (allowed <- validate_sync_permissions (sender request) (target_path request)
                  (operation request) base_path ;;
     if negb allowed then
       respond false
         ("Permission denied for " +:+ sender request +:+ " to "
          +:+ operation_value (operation request) +:+ " "
          +:+ String.concat "/" (target_path request))
         (Some "PERMISSION_DENIED")
     else serve base_path request)
    (λ e, respond false ("Sync failed: " +:+ exn_str e) (Some "SYNC_ERROR")).

(** The [try] block of the handler that serves [request], and the error
    code of its [except] clause. *)
Definition operation_block (base_path : path) (request : SyncRequest)
  : M SyncResponse :=
  let target_path := base_path ++ target_path request in
  match operation request with
  | CREATE => create_block request target_path
  | UPDATE => update_block request target_path
  | DELETE => delete_block request target_path
  | MOVE => move_block base_path request target_path
  end.

Definition operation_error_code (operation : SyncOperation) : string :=
  match operation with
  | CREATE => "CREATE_ERROR"
  | UPDATE => "UPDATE_ERROR"
  | DELETE => "DELETE_ERROR"
  | MOVE => "MOVE_ERROR"
  end.

(** The evaluation of the sender's permission raises: the backend cannot
    be imported, or [check_permission] itself raises. *)
Definition permission_check_raises (base_path : path) (request : SyncRequest)
    (w : world) : Prop :=
  match permission_backend w with
  | None => True
  | Some check_permission =>
      ∃ e, check_permission (sender request) (base_path ++ target_path request)
             (required_permission (operation request)) = Raise e
  end.

(** What [validate_sync_permissions] comes to: the backend's answer, and
    a denial when there is no answer. *)
Definition permission_granted (base_path : path) (request : SyncRequest)
    (w : world) : bool :=
  match permission_backend w with
  | Some check_permission =>
      match check_permission (sender request) (base_path ++ target_path request)
              (required_permission (operation request)) with
      | Ok allowed => allowed
      | Raise _ => false
      end
  | None => false
  end.

(** What a create request writes: its content, or nothing for an empty
    file. *)
Definition written (request : SyncRequest) : data :=
  match content request with Some c => c | None => Bytes [] end.

(** A request as another sender could have stamped it: the same request
    with another timestamp and checksum. *)
Definition restamped (request : SyncRequest) (t : datetime) (c : option string)
  : SyncRequest :=
  {| sender := sender request; target_path := target_path request;
     operation := Models.operation request; content := content request;
     old_path := Models.old_path request; timestamp := t; checksum := c |}.

(** The error codes with which the handler of an operation answers. *)
Definition handler_codes (o : SyncOperation) : list string :=
  match o with
  | CREATE => ["FILE_EXISTS"; "CREATE_ERROR"]
  | UPDATE => ["FILE_NOT_FOUND"; "UPDATE_ERROR"]
  | DELETE => ["DELETE_ERROR"]
  | MOVE => ["MISSING_OLD_PATH"; "SOURCE_NOT_FOUND"; "MOVE_ERROR"]
  end.

(** A response is a success without an error code, or a failure with one
    of [codes]; a computation answers within [codes] when every response
    it returns is such. *)
Definition answers_within (codes : list string) (resp : SyncResponse) : Prop :=
  (success resp = true ∧ error_code resp = None) ∨
  (success resp = false ∧ ∃ code, error_code resp = Some code ∧ code ∈ codes).

Definition answers (codes : list string) (m : M SyncResponse) : Prop :=
  ∀ w resp w', m w = (Ok resp, w') → answers_within codes resp.

End WithPlatform.

(** Two sentences of the specification as they stand, for comparison with
    the code. *)

(** "Any unexpected failure raised during permission checking ... is
    converted to a response with success=false and error code
    SYNC_ERROR." *)
Definition permission_failure_is_sync_error : Prop :=
  ∀ (P : Platform) (base_path : path) (request : SyncRequest) (w : world),
    permission_check_raises base_path request w →
    ∃ resp w',
      handle_sync_request base_path request w = (Ok resp, w') ∧
      success resp = false ∧ error_code resp = Some "SYNC_ERROR".

(** "If the target does not exist, the receiver creates the missing parent
    directories, writes the request's content bytes ..., and responds
    success=true." *)
Definition create_succeeds_when_absent : Prop :=
  ∀ (P : Platform) (request : SyncRequest) (target_path : path) (w : world),
    no_faults w →
    well_formed (fs w) →
    fs w !! target_path = None →
    ∃ resp w',
      _handle_create request target_path w = (Ok resp, w') ∧
      success resp = true.

End Server.

Import Server.

(** ** A concrete platform and small worlds, for running the code *)

Module Demo.

(** Timestamps kept as their ISO text; the digest of a byte string is its
    text, which tells contents apart as a hash does. *)
Definition platform : Platform :=
  {| datetime := string; isoformat := id; fromisoformat := Some;
     fromisoformat_isoformat := λ _, eq_refl;
     sha256 := λ d, match d with
                    | Bytes b => String.string_of_list_byte b
                    | YamlText _ => "yaml"
                    end |}.

#[local] Existing Instance platform.

Definition midnight : string := "2024-01-01T00:00:00+00:00".

(** A world where nothing is refused, every permission is granted and no
    peer answers. *)
Definition quiet_world (m : gmap path node) : world :=
  {| fs := m; refused := λ _, false; clock := midnight;
     permission_backend := Some (λ _ _ _, Ok true);
     identity := Some "me@example.com";
     transport := λ _ _, None; outbox := [] |}.

(** The same world without a permission backend to import. *)
Definition no_backend_world (m : gmap path node) : world :=
  {| fs := m; refused := λ _, false; clock := midnight;
     permission_backend := None;
     identity := Some "me@example.com";
     transport := λ _ _, None; outbox := [] |}.

Definition notes : path := ["home"; "notes.txt"].

Definition notes_rule : SyncPriorityRule :=
  {| users := ["peer-b"; "*"; "me@example.com"]; priority := INSTANT;
     operations := [CREATE; UPDATE] |}.

Definition notes_config : SyncPriorityConfig :=
  {| rules := [notes_rule]; created := midnight; updated := midnight |}.

(** /home/notes.txt with its sidecar. *)
Definition home_tree : gmap path node :=
  {[ [] := Dir; ["home"] := Dir;
     notes := File (Bytes [x68; x69]);
     syncpriority_path notes := File (YamlText (model_dump notes_config)) ]}.

(** /home/a is a regular file. *)
Definition blocked_tree : gmap path node :=
  {[ [] := Dir; ["home"] := Dir; ["home"; "a"] := File (Bytes []) ]}.

Definition watcher : SyncPriorityHandler :=
  {| base_path := ["home"]; client_email := "me@example.com";
     file_checksums := ∅ |}.

Definition modified_notes : FileSystemEvent :=
  {| is_directory := false; src_path := notes; dest_path := [] |}.

Definition modified_missing : FileSystemEvent :=
  {| is_directory := false; src_path := ["home"; "gone.txt"]; dest_path := [] |}.

Definition create_request (target : path) : SyncRequest :=
  {| sender := "peer-b"; target_path := target; operation := CREATE;
     content := Some (Bytes [x68]); old_path := None; timestamp := midnight;
     checksum := None |}.

Definition delete_request (target : path) : SyncRequest :=
  {| sender := "peer-b"; target_path := target; operation := DELETE;
     content := None; old_path := None; timestamp := midnight;
     checksum := None |}.

Definition move_request (source : option pathname) (target : path) : SyncRequest :=
  {| sender := "peer-b"; target_path := target; operation := MOVE;
     content := None; old_path := source; timestamp := midnight;
     checksum := None |}.

(** A world whose operating system refuses every unlink. *)
Definition locked_world : world :=
  {| fs := home_tree;
     refused := λ c, match c with SysUnlink _ => true | _ => false end;
     clock := midnight; permission_backend := Some (λ _ _ _, Ok true);
     identity := Some "me@example.com"; transport := λ _ _, None;
     outbox := [] |}.

(** The worlds two of the runs below end in. *)
Definition after_first_set : world :=
  (set_sync_priority notes (UserList ["peer-c"]) (PriorityStr "instant") None
     (quiet_world home_tree)).2.

Definition after_save : world :=
  (save_sync_priority ["home"; "shared"; "plan.md"] notes_config
     (quiet_world home_tree)).2.

(** More rules, worlds and requests for the runs below. *)
Definition peer_c_rule : SyncPriorityRule :=
  {| users := ["peer-c"]; priority := INSTANT; operations := all_operations |}.


Definition after_remove : world :=
  (remove_sync_priority notes (Some (UserList ["peer-b"; "me@example.com"]))
     (quiet_world home_tree)).2.

(** The sidecar of the notes with a rule that has no users. *)
Definition empty_users_tree : gmap path node :=
  {[ [] := Dir; ["home"] := Dir;
     syncpriority_path notes :=
       File (YamlText (YMap [("rules", YSeq [YMap [("users", YSeq []);
                                                   ("priority", YStr "instant")]])])) ]}.

Definition sidecar_event : FileSystemEvent :=
  {| is_directory := false; src_path := syncpriority_path notes; dest_path := [] |}.

Definition after_dispatch : world :=
  (_handle_sync_event watcher notes UPDATE None (quiet_world home_tree)).2.


Definition update_request (target : path) (c : data) : SyncRequest :=
  {| sender := "peer-b"; target_path := target; operation := UPDATE;
     content := Some c; old_path := None; timestamp := midnight;
     checksum := None |}.

(** A world whose backend grants the write permission and no other. *)
Definition writers_world (m : gmap path node) : world :=
  {| fs := m; refused := λ _, false; clock := midnight;
     permission_backend :=
       Some (λ _ _ permission, Ok (bool_decide (permission = "write")));
     identity := Some "me@example.com";
     transport := λ _ _, None; outbox := [] |}.

(** The tree of a peer that holds an older copy of the notes. *)
Definition peer_tree : gmap path node :=
  {[ [] := Dir; ["peer"] := Dir;
     ["peer"; "notes.txt"] := File (Bytes [x6f; x6c; x64]) ]}.

(** The request the client sends for an update of the notes. *)
Definition notes_update : SyncRequest :=
  envelope (quiet_world home_tree) "me@example.com" notes ["notes.txt"] UPDATE None.

(** A world where no path can be reached: every stat and every open for
    reading is refused, as for a name that is too long or below a
    directory that may not be searched. *)
Definition unreachable_world (m : gmap path node) : world :=
  {| fs := m;
     refused := λ c, match c with
                     | SysStat _ | SysOpenRead _ => true
                     | _ => false
                     end;
     clock := midnight; permission_backend := Some (λ _ _ _, Ok true);
     identity := Some "me@example.com"; transport := λ _ _, None;
     outbox := [] |}.

(** What is left of the rule of the notes without peer-b and the client. *)
Definition wildcard_rule : SyncPriorityRule :=
  {| users := ["*"]; priority := INSTANT; operations := [CREATE; UPDATE] |}.

(** A move request as the watcher sends it: the old path is the
    absolute source path of the event. *)
Definition watcher_move_request : SyncRequest :=
  move_request (Some (Absolute ["home"; "notes.txt"])) ["archive"; "notes.txt"].

(** A world whose operating system refuses to open a file for writing. *)
Definition read_only_world (m : gmap path node) : world :=
  {| fs := m;
     refused := λ c, match c with SysOpenWrite _ => true | _ => false end;
     clock := midnight; permission_backend := Some (λ _ _ _, Ok true);
     identity := Some "me@example.com"; transport := λ _ _, None;
     outbox := [] |}.

End Demo.

(** * Properties *)

(** ** The filesystem primitives *)

Section OsFacts.
Context `{Platform}.

(** *** the stat behind [exists], [is_file] and [is_dir] *)

Lemma stat_run {A} (answer : gmap path node → path → A) (p : path) (w : world) :
  stat answer p w
  = if stat_refused w p then (Raise PermissionError, w)
    else (Ok (answer (fs w) p), w).
Proof. reflexivity. Qed.

Lemma stat_refused_readable (w : world) (p : path) :
  refused w (SysOpenRead p) = false → stat_refused w p = false.
Proof. unfold stat_refused. intros ->. apply andb_false_r. Qed.

Lemma stat_refused_no_faults (w : world) (p : path) :
  no_faults w → stat_refused w p = false.
Proof. intros Hnf. apply stat_refused_readable, Hnf. Qed.

Lemma stat_refused_with_fs (m : gmap path node) (w : world) (p : path) :
  stat_refused (with_fs m w) p = stat_refused w p.
Proof. reflexivity. Qed.

Lemma stat_returns {A} (answer : gmap path node → path → A) (p : path) (w : world) :
  stat_refused w p = false → stat answer p w = (Ok (answer (fs w) p), w).
Proof. intros Hs. by rewrite stat_run, Hs. Qed.

Lemma elem_of_prefixes (q p : path) : q ∈ prefixes p ↔ q `prefix_of` p.
Proof.
  unfold prefixes. rewrite list_elem_of_fmap. split.
  - intros (n & -> & _). apply prefix_take.
  - intros [k ->]. exists (length q). split.
    + by rewrite take_app_length.
    + apply elem_of_seq. rewrite length_app. lia.
Qed.

Lemma lookup_foldr_dirs (qs : list path) (m : gmap path node) (k : path) :
  foldr (λ q acc, <[q := Dir]> acc) m qs !! k
  = if decide (k ∈ qs) then Some Dir else m !! k.
Proof.
  induction qs as [|q qs IH]; cbn [foldr].
  - destruct (decide (k ∈ [])) as [Hin|]; [by apply elem_of_nil in Hin | done].
  - destruct (decide (k ∈ q :: qs)) as [Hin|Hnin].
    + destruct (decide (q = k)) as [->|Hne]; [by rewrite lookup_insert_eq |].
      rewrite lookup_insert_ne by done. rewrite IH.
      apply elem_of_cons in Hin as [->|Hin]; [done |].
      by rewrite decide_True.
    + apply not_elem_of_cons in Hnin as [Hne Hnin].
      rewrite lookup_insert_ne by done. rewrite IH.
      by rewrite decide_False.
Qed.

Lemma lookup_make_dirs (p : path) (m : gmap path node) (k : path) :
  make_dirs p m !! k = if decide (k `prefix_of` p) then Some Dir else m !! k.
Proof.
  unfold make_dirs. rewrite lookup_foldr_dirs.
  destruct (decide (k ∈ prefixes p)) as [Hin|Hnin].
  - rewrite decide_True; [done | by apply elem_of_prefixes].
  - rewrite decide_False; [done | by rewrite <- elem_of_prefixes].
Qed.

Lemma existsb_is_file_false (m : gmap path node) (p q : path) :
  existsb (is_file_at m) (prefixes p) = false →
  q `prefix_of` p → is_file_at m q = false.
Proof.
  intros Hex Hq. apply elem_of_prefixes in Hq.
  destruct (is_file_at m q) eqn:E; [|done].
  assert (existsb (is_file_at m) (prefixes p) = true) as Ht.
  { apply existsb_exists. exists q. split; [by apply list_elem_of_In | done]. }
  congruence.
Qed.

(** A directory created on the way down turns no ancestor into a file. *)
Lemma make_dirs_keeps_files_out (p p' : path) (m : gmap path node) :
  existsb (is_file_at m) (prefixes p') = false →
  existsb (is_file_at (make_dirs p m)) (prefixes p') = false.
Proof.
  intros Hex. apply not_true_is_false. intros Ht.
  apply existsb_exists in Ht as (q & Hq & Hf).
  apply list_elem_of_In, elem_of_prefixes in Hq.
  unfold is_file_at in Hf. rewrite lookup_make_dirs in Hf.
  destruct (decide (q `prefix_of` p)); [done |].
  pose proof (existsb_is_file_false m p' q Hex Hq) as Hq'.
  unfold is_file_at in Hq'. destruct (m !! q) as [[|]|]; done.
Qed.

Lemma parent_prefix (p : path) : parent p `prefix_of` p.
Proof.
  unfold parent. destruct (decide (p = [])) as [->|Hne]; [done |].
  destruct (exists_last Hne) as (l & a & ->).
  rewrite removelast_last. by exists [a].
Qed.

Lemma parent_snoc (l : path) (a : string) : parent (l ++ [a]) = l.
Proof. unfold parent. apply removelast_last. Qed.

Lemma name_snoc (l : path) (a : string) : name (l ++ [a]) = a.
Proof. unfold name. apply last_last. Qed.

Lemma is_dir_at_true (m : gmap path node) (p : path) :
  is_dir_at m p = true → m !! p = Some Dir.
Proof. unfold is_dir_at. by destruct (m !! p) as [[|]|]. Qed.

Lemma well_formed_check_sound (m : gmap path node) :
  well_formed_check m = true → well_formed m.
Proof.
  unfold well_formed_check, well_formed.
  intros [Hroot Hall]%andb_prop. split; [by apply is_dir_at_true |].
  intros p q [n Hn] Hq Hne.
  rewrite forallb_forall in Hall.
  specialize (Hall (p, n)). rewrite forallb_forall in Hall.
  assert (bool_decide (q = p) || is_dir_at m q = true) as Hc.
  { apply Hall.
    - by apply list_elem_of_In, elem_of_map_to_list.
    - by apply list_elem_of_In, elem_of_prefixes. }
  apply orb_prop in Hc as [Heq%bool_decide_eq_true|Hd]; [done |].
  by apply is_dir_at_true.
Qed.

End OsFacts.

(** ** Proof steps for monadic code *)

(** Case analysis on whether the operating system refuses a call. *)
Ltac case_refused :=
  match goal with
  | |- context [refused ?w ?c] => destruct (refused w c) eqn:?
  end.

(** Case analysis on the node a path leads to. *)
Ltac case_node :=
  match goal with
  | |- context [match ?m !! ?k with _ => _ end] =>
      destruct (m !! k) as [[?|]|] eqn:?
  end.

(** The stat of a path is not refused: by assumption, because the path
    can be opened for reading, or because nothing is refused. *)
Ltac stat_ok :=
  rewrite ?stat_refused_with_fs;
  first
    [ assumption
    | apply stat_refused_no_faults; assumption
    | apply stat_refused_readable;
      first [ assumption
            | match goal with Hnf : no_faults _ |- _ => apply Hnf end ] ].

(** ** pydantic: validation inverts [model_dump] *)

Section PydanticFacts.
Context `{Platform}.

Lemma mapM_fmap_Some {A B C} (f : A → option B) (h : C → A) (g : C → B)
    (l : list C) :
  (∀ c, f (h c) = Some (g c)) → mapM f (h <$> l) = Some (g <$> l).
Proof.
  intros Hfg. induction l as [|b l IH]; [done |].
  cbn. rewrite Hfg. cbn. rewrite IH. done.
Qed.

Lemma mapM_inverse {A B} (f : A → option B) (g : B → A) (l : list B) :
  (∀ b, f (g b) = Some b) → mapM f (g <$> l) = Some l.
Proof.
  intros Hfg. rewrite (mapM_fmap_Some f g id) by done. by rewrite list_fmap_id.
Qed.

Lemma parse_priority_value (p : SyncPriority) :
  parse_priority (priority_value p) = Some p.
Proof. by destruct p. Qed.

Lemma parse_operation_value (o : SyncOperation) :
  parse_operation (operation_value o) = Some o.
Proof. by destruct o. Qed.

Lemma validate_dump_rule (r : SyncPriorityRule) :
  rule_valid r → validate_rule (dump_rule r) = Some r.
Proof.
  intros Hr. destruct r as [us pr ops]. unfold rule_valid in Hr. simpl in Hr.
  unfold validate_rule, dump_rule.
  change (ylookup "users" _) with (Some (YSeq (YStr <$> us))).
  change (ylookup "priority" _) with (Some (YStr (priority_value pr))).
  change (ylookup "operations" _)
    with (Some (YSeq ((λ o, YStr (operation_value o)) <$> ops))).
  cbn [mbind option_bind validate_str_list as_seq as_str validate_operations].
  rewrite (mapM_inverse as_str YStr) by done. cbn [mbind option_bind].
  rewrite decide_False by done.
  rewrite parse_priority_value. cbn [mbind option_bind].
  rewrite (mapM_fmap_Some as_str _ operation_value) by done.
  cbn [mbind option_bind].
  rewrite (mapM_inverse parse_operation operation_value)
    by apply parse_operation_value.
  done.
Qed.

Lemma validate_dump_rules (rs : list SyncPriorityRule) :
  Forall rule_valid rs → mapM validate_rule (dump_rule <$> rs) = Some rs.
Proof.
  intros Hrs. apply mapM_Some, Forall2_fmap_l, Forall_Forall2_diag.
  eapply Forall_impl; [exact Hrs |]. apply validate_dump_rule.
Qed.

Lemma validate_model_dump (t : datetime) (c : SyncPriorityConfig) :
  Forall rule_valid (rules c) →
  ∃ entries, model_dump c = YMap entries ∧ validate_config t entries = Some c.
Proof.
  intros Hc. destruct c as [rs cr up]. simpl in Hc.
  eexists. split; [reflexivity |].
  unfold validate_config.
  change (ylookup "rules" _) with (Some (YSeq (dump_rule <$> rs))).
  change (ylookup "created" _) with (Some (YStr (isoformat cr))).
  change (ylookup "updated" _) with (Some (YStr (isoformat up))).
  cbn [mbind option_bind as_seq as_str validate_datetime].
  rewrite validate_dump_rules by done. cbn [mbind option_bind].
  rewrite !fromisoformat_isoformat. done.
Qed.

Lemma validate_rule_valid (y : yaml) (r : SyncPriorityRule) :
  validate_rule y = Some r → rule_valid r.
Proof.
  unfold validate_rule, rule_valid. destruct y as [| |?|entries]; try done.
  destruct (ylookup "users" entries ≫= validate_str_list) as [us|]; [|done].
  cbn [mbind option_bind]. destruct (decide (us = [])); [done |].
  destruct (ylookup "priority" entries ≫= as_str) as [s|]; [|done].
  cbn [mbind option_bind]. destruct (parse_priority s); [|done].
  cbn [mbind option_bind]. destruct (validate_operations _); [|done].
  cbn [mbind option_bind]. by intros [= <-].
Qed.

Lemma validate_config_valid (t : datetime) (entries : list (string * yaml))
    (c : SyncPriorityConfig) :
  validate_config t entries = Some c → Forall rule_valid (rules c).
Proof.
  unfold validate_config.
  destruct (ylookup "rules" entries ≫= as_seq) as [items|]; [|done].
  cbn [mbind option_bind].
  destruct (mapM validate_rule items) as [rs|] eqn:Hrs; [|done].
  cbn [mbind option_bind].
  destruct (validate_datetime t (ylookup "created" entries));
    cbn [mbind option_bind]; [|done].
  destruct (validate_datetime t (ylookup "updated" entries));
    cbn [mbind option_bind]; [|done].
  intros [= <-]. cbn. apply mapM_Some in Hrs.
  induction Hrs as [|y r ? ? Hy _ IH]; constructor; [|done].
  by eapply validate_rule_valid.
Qed.
End PydanticFacts.

(** ** Rule store (api.py) *)

Section RuleStoreFacts.
Context `{Platform}.

(** [load_sync_priority] raises what the stat of the sidecar raises, and
    otherwise returns what the sidecar amounts to. *)
Lemma load_sync_priority_run (file_path : path) (w : world) :
  load_sync_priority file_path w
  = if stat_refused w (syncpriority_path file_path)
    then (Raise PermissionError, w)
    else (Ok (stored_config w file_path), w).
Proof.
  unfold load_sync_priority. cbv zeta. unfold bind at 1, exists_.
  rewrite stat_run. destruct (stat_refused w _); [done |].
  unfold stored_config, bind, try_except, exists_at,
    yaml_safe_load, read_bytes, bind, os_call, get_world, construct_config, now,
    ret, raise.
  destruct (fs w !! syncpriority_path file_path) as [[[b|doc]|]|] eqn:E; cbn;
    [..|done];
    destruct (refused w _); cbn; rewrite ?E; cbn; try done;
    destruct doc; cbn; try done.
  unfold bind. by destruct (validate_config _ _).
Qed.

Lemma load_sync_priority_spec (file_path : path) (w : world) :
  stat_refused w (syncpriority_path file_path) = false →
  load_sync_priority file_path w = (Ok (stored_config w file_path), w).
Proof. intros Hs. by rewrite load_sync_priority_run, Hs. Qed.

Lemma save_sync_priority_spec (file_path : path) (c : SyncPriorityConfig)
    (w w' : world) (u : unit) :
  save_sync_priority file_path c w = (Ok u, w') →
  w' = with_fs (<[syncpriority_path file_path := File (YamlText (model_dump c))]>
                  (make_dirs (parent (syncpriority_path file_path)) (fs w))) w.
Proof.
  unfold save_sync_priority, yaml_safe_dump, mkdir_parents, write_bytes, bind,
    os_call, get_world, put_fs, raise.
  cbv beta zeta.
  case_refused; [done |].
  destruct (existsb _ _); [done |]. cbn.
  case_refused; [done |].
  case_node; [| done |].
  - by intros [= _ <-].
  - destruct (is_dir_at _ _); [| done]. by intros [= _ <-].
Qed.

Lemma stored_config_after_save (file_path : path) (c : SyncPriorityConfig)
    (w w' : world) (u : unit) :
  save_sync_priority file_path c w = (Ok u, w') →
  refused w (SysOpenRead (syncpriority_path file_path)) = false →
  Forall rule_valid (rules c) →
  stored_config w' file_path = Some c.
Proof.
  intros Hsave Hread Hvalid. apply save_sync_priority_spec in Hsave as ->.
  unfold stored_config. cbn. rewrite lookup_insert_eq.
  destruct (validate_model_dump (clock w) c Hvalid) as (entries & -> & Hv).
  by rewrite Hread.
Qed.

Lemma stored_config_valid (w : world) (file_path : path) (c : SyncPriorityConfig) :
  stored_config w file_path = Some c → Forall rule_valid (rules c).
Proof.
  unfold stored_config. repeat case_match; try done. apply validate_config_valid.
Qed.

Lemma stored_config_absent (w : world) (file_path : path) :
  fs w !! syncpriority_path file_path = None → stored_config w file_path = None.
Proof. unfold stored_config. by intros ->. Qed.


(** *** get_sync_priority *)


Lemma first_match_none (user : string) (rs : list SyncPriorityRule) :
  (∀ rule, rule ∈ rs → ¬ rule_covers user rule) →
  first_match user rs = NORMAL.
Proof.
  induction rs as [|r rs IH]; intros Hno; [done |].
  cbn [first_match]. rewrite decide_False by (apply Hno; left).
  apply IH. intros rule Hin. apply Hno. by right.
Qed.


(** *** set_sync_priority *)

Lemma save_reported (file_path : path) (c : SyncPriorityConfig) (w w' : world) :
  try_except (save_sync_priority file_path c ;;; ret true) (λ _, ret false) w
  = (Ok true, w') →
  save_sync_priority file_path c w = (Ok (), w').
Proof.
  unfold try_except, bind, ret.
  destruct (save_sync_priority file_path c w) as [[[]|e] w1]; [|done].
  by intros [= <-].
Qed.

Lemma save_keeps_refused (file_path : path) (c : SyncPriorityConfig)
    (w w' : world) (u : unit) :
  save_sync_priority file_path c w = (Ok u, w') → refused w' = refused w.
Proof. intros Hs. by apply save_sync_priority_spec in Hs as ->. Qed.

Lemma other_rules_valid (us : list string) (rs : list SyncPriorityRule) :
  Forall rule_valid rs → Forall rule_valid (other_rules us rs).
Proof.
  rewrite !Forall_forall. intros Hrs r Hr.
  apply list_elem_of_filter in Hr as [_ Hr]. by apply Hrs.
Qed.

Lemma set_sync_priority_stored (file_path : path) (us : users_arg)
    (a : priority_arg) (ops : option (list operation_arg)) (w w' : world) :
  refused w (SysOpenRead (syncpriority_path file_path)) = false →
  set_sync_priority file_path us a ops w = (Ok true, w') →
  ∃ c' new,
    stored_config w' file_path = Some c' ∧
    refused w' = refused w ∧
    users new = users_of us ∧
    parse_priority_arg a = Some (priority new) ∧
    parse_operation_args ops = Some (operations new) ∧
    rules c' = other_rules (users_of us) (rules_before w file_path) ++ [new].
Proof.
  intros Hread. unfold set_sync_priority, rules_before. cbv zeta.
  unfold bind at 1, or_value_error.
  destruct (parse_priority_arg a) as [pr|]; [|done]. cbn [ret raise].
  unfold bind at 1.
  destruct (parse_operation_args ops) as [ops'|]; [|done]. cbn [ret raise].
  unfold bind at 1. rewrite load_sync_priority_spec by stat_ok.
  pose proof (stored_config_valid w file_path) as Hvalid.
  set (new := {| users := users_of us; priority := pr; operations := ops' |}).
  assert (∀ base, Forall rule_valid (rules base) →
            (base' <- ret base ;;
             rule <- construct_rule (users_of us) pr ops' ;;
             try_except
               (save_sync_priority file_path
                  (with_rules (other_rules (users_of us) (rules base') ++ [rule]) base')
                ;;; ret true) (λ _, ret false)) w = (Ok true, w') →
            stored_config w' file_path
            = Some (with_rules (other_rules (users_of us) (rules base) ++ [new]) base)
            ∧ refused w' = refused w) as Hmain.
  { intros base Hb. unfold bind at 1, ret at 1. unfold bind at 1, construct_rule.
    destruct (decide (users_of us = [])) as [|Hne]; [done |].
    cbn [ret]. intros Hs%save_reported. split.
    - eapply stored_config_after_save; [exact Hs | exact Hread |].
      cbn. apply Forall_app. split; [by apply other_rules_valid |].
      by repeat constructor.
    - by eapply save_keeps_refused. }
  destruct (stored_config w file_path) as [c|] eqn:Hc.
  - intros Hrun. destruct (Hmain c (Hvalid c eq_refl) Hrun) as [Hst Hrf].
    by exists (with_rules (other_rules (users_of us) (rules c) ++ [new]) c), new.
  - unfold empty_config. unfold bind at 1. unfold bind at 1, now.
    unfold bind at 1. cbn [ret].
    set (base := {| rules := []; created := clock w; updated := clock w |}).
    intros Hrun. destruct (Hmain base (Forall_nil_2 _)) as [Hst Hrf].
    { exact Hrun. }
    by exists (with_rules (other_rules (users_of us) (rules base) ++ [new]) base), new.
Qed.

Lemma set_sync_priority_no_faults (file_path : path) (us : users_arg)
    (a : priority_arg) (ops : option (list operation_arg)) (w w' : world) :
  no_faults w →
  set_sync_priority file_path us a ops w = (Ok true, w') →
  no_faults w'.
Proof.
  intros Hnf Hset c.
  destruct (set_sync_priority_stored file_path us a ops w w' (Hnf _) Hset)
    as (_ & _ & _ & -> & _). apply Hnf.
Qed.

Lemma list_sync_priorities_run (file_path : path) (w : world) :
  list_sync_priorities file_path w
  = if stat_refused w (syncpriority_path file_path)
    then (Raise PermissionError, w)
    else (Ok (rules_before w file_path), w).
Proof.
  unfold list_sync_priorities, rules_before, bind.
  rewrite load_sync_priority_run. by destruct (stat_refused w _).
Qed.

Lemma list_sync_priorities_spec (file_path : path) (w : world) :
  stat_refused w (syncpriority_path file_path) = false →
  list_sync_priorities file_path w = (Ok (rules_before w file_path), w).
Proof. intros Hs. by rewrite list_sync_priorities_run, Hs. Qed.



Lemma other_rules_idemp (us : list string) (rs : list SyncPriorityRule) :
  other_rules us (other_rules us rs) = other_rules us rs.
Proof.
  unfold other_rules. induction rs as [|r rs IH]; [done |].
  rewrite (filter_cons (λ r, ¬ same_users (users r) us)).
  destruct (decide (¬ same_users (users r) us)) as [Hn|]; [|done].
  rewrite filter_cons_True by done. by rewrite IH.
Qed.




(** *** remove_sync_priority *)

Lemma strip_users_omap (gone : list string) (rs : list SyncPriorityRule) :
  strip_users gone rs = omap (remaining_rule gone) rs.
Proof.
  induction rs as [|r rs IH]; [done |].
  cbn [strip_users omap list_omap]. unfold remaining_rule at 1. cbv zeta.
  destruct (filter (λ u, u ∉ gone) (users r)) as [|u us] eqn:E.
  - by rewrite decide_True.
  - rewrite decide_False by done. by rewrite IH.
Qed.

Lemma strip_users_valid (gone : list string) (rs : list SyncPriorityRule) :
  Forall rule_valid (strip_users gone rs).
Proof.
  induction rs as [|r rs IH]; [constructor |].
  cbn [strip_users].
  destruct (filter (λ u, u ∉ gone) (users r)) as [|u us]; [done |].
  by constructor.
Qed.

Lemma unlink_if_exists_gone (p : path) (w w' : world) (u : unit) :
  unlink_if_exists p w = (Ok u, w') → fs w' !! p = None.
Proof.
  unfold unlink_if_exists, bind, exists_, stat, exists_at, unlink, bind, os_call,
    get_world, put_fs, raise, ret.
  destruct (stat_refused w p); [done |].
  destruct (fs w !! p) as [[d|]|] eqn:E.
  - case_refused; [done |]. rewrite E. intros [= _ <-]. cbn.
    apply lookup_delete_eq.
  - case_refused; [done |]. by rewrite E.
  - by intros [= _ <-].
Qed.

Lemma reported_true {A} (m : M A) (w w' : world) :
  try_except (m ;;; ret true) (λ _, ret false) w = (Ok true, w') →
  ∃ a, m w = (Ok a, w').
Proof.
  unfold try_except, bind, ret. destruct (m w) as [[a|e] w1]; [|done].
  intros [= <-]. by exists a.
Qed.

(** *** save then load *)

(** Claim C6.  Round trip: once [save_sync_priority] has written a config
    whose rules satisfy the model's constraint (at least one user each),
    [load_sync_priority] on the same path, the sidecar being readable,
    returns a config with the same rule list: the same users, priority and
    operations for each rule, in the same order. *)
Theorem save_then_load (file_path : path) (config : SyncPriorityConfig)
    (w w' : world) :
  Forall rule_valid (rules config) →
  refused w (SysOpenRead (syncpriority_path file_path)) = false →
  save_sync_priority file_path config w = (Ok (), w') →
  ∃ config',
    load_sync_priority file_path w' = (Ok (Some config'), w') ∧
    rules config' = rules config.
Proof.
  intros Hvalid Hread Hsave. exists config.
  rewrite load_sync_priority_spec.
  - by erewrite stored_config_after_save.
  - apply stat_refused_readable.
    by rewrite (save_keeps_refused _ _ _ _ _ Hsave).
Qed.

End RuleStoreFacts.

(** ** Change detector and dispatcher (watcher.py) *)

Section WatcherFacts.
Context `{Platform}.

Lemma send_instant_sync_returns (target_user : string) (file_path relative_path : path)
    (operation : SyncOperation) (old_path : option pathname) (w : world) :
  ∃ r w', send_instant_sync target_user file_path relative_path operation old_path w
          = (Ok r, w').
Proof.
  unfold send_instant_sync, try_except, ret.
  destruct (bind _ _ w) as [[r|e] w']; eauto.
Qed.

Lemma send_to_each_targets (h : SyncPriorityHandler) (file_path relative_path : path)
    (operation : SyncOperation) (old_path : option pathname) (us : list string)
    (w : world) :
  ∃ calls w',
    send_to_each h file_path relative_path operation old_path us w = (Ok calls, w') ∧
    calls.*1 = filter (λ u, u ≠ client_email h) us.
Proof.
  revert w. induction us as [|u us IH]; intros w.
  - by exists [], w.
  - cbn [send_to_each]. rewrite filter_cons.
    destruct (decide (u ≠ client_email h)) as [Hne|Heq].
    + unfold bind at 1.
      destruct (send_instant_sync_returns u file_path relative_path operation
                  old_path w) as (r & w1 & ->).
      unfold bind at 1. destruct (IH w1) as (calls & w2 & -> & Hcalls).
      exists ((u, r) :: calls), w2. split; [done |]. cbn. by rewrite Hcalls.
    + apply IH.
Qed.

Lemma elem_of_instant_users_of (operation : SyncOperation)
    (rs : list SyncPriorityRule) (u : string) :
  u ∈ instant_users_of operation rs ↔
  ∃ rule, rule ∈ rs ∧ priority rule = INSTANT ∧ operation ∈ operations rule ∧
          u ∈ users rule.
Proof.
  induction rs as [|r rs IH]; cbn [instant_users_of].
  - split; [by intros ?%elem_of_nil | by intros (? & ?%elem_of_nil & _)].
  - destruct (decide (priority r = INSTANT ∧ operation ∈ operations r)) as [[Hp Ho]|Hn].
    + rewrite elem_of_app, IH. split.
      * intros [Hu|(rule & Hin & ?)].
        -- exists r. split; [left | done].
        -- exists rule. split; [by right | done].
      * intros (rule & [->|Hin]%elem_of_cons & Hrest).
        -- left. by destruct Hrest as (_ & _ & ?).
        -- right. by exists rule.
    + rewrite IH. split.
      * intros (rule & Hin & ?). exists rule. split; [by right | done].
      * intros (rule & [->|Hin]%elem_of_cons & Hp & Ho & Hu).
        -- by destruct Hn.
        -- by exists rule.
Qed.

Lemma elem_of_unique_users (l : list string) (u : string) :
  u ∈ unique_users l ↔ u ∈ l ∧ u ≠ "*".
Proof.
  unfold unique_users. cbv zeta. case_decide as Hstar.
  - rewrite elem_of_difference, elem_of_list_to_set, not_elem_of_singleton. done.
  - rewrite elem_of_list_to_set. split; [| by intros [? _]].
    intros Hu. split; [done |]. intros ->. apply Hstar.
    by apply elem_of_list_to_set.
Qed.

Lemma handle_sync_event_returns (h : SyncPriorityHandler) (file_path : path)
    (operation : SyncOperation) (old_path : option pathname) (w : world) :
  ∃ calls w', _handle_sync_event h file_path operation old_path w = (Ok calls, w').
Proof.
  unfold _handle_sync_event, try_except, ret.
  destruct (bind _ _ w) as [[r|e] w']; eauto.
Qed.

Lemma read_bytes_keeps_world (p : path) (w w' : world) (o : outcome data) :
  read_bytes p w = (o, w') → w' = w.
Proof.
  unfold read_bytes, bind, os_call, get_world, ret, raise.
  case_refused; [by intros [= _ <-] |].
  case_node; by intros [= _ <-].
Qed.

Lemma content_changed_read (h : SyncPriorityHandler) (p : path) (w : world)
    (d : data) :
  read_bytes p w = (Ok d, w) →
  ∃ h' changed,
    _content_changed h p w = (Ok (h', changed), w) ∧
    base_path h' = base_path h ∧ client_email h' = client_email h ∧
    file_checksums h' !! p = Some (sha256 d) ∧
    (changed = false ↔ file_checksums h !! p = Some (sha256 d)).
Proof.
  intros Hread. unfold _content_changed, try_except, bind. rewrite Hread.
  cbv zeta. destruct (decide (file_checksums h !! p ≠ Some (sha256 d))) as [Hne|Heq].
  - eexists _, true. split; [reflexivity |]. cbn.
    rewrite lookup_insert_eq. repeat split; try done.
  - apply dec_stable in Heq. exists h, false. by repeat split.
Qed.

Lemma content_changed_unreadable (h : SyncPriorityHandler) (p : path) (w : world)
    (e : exn) :
  read_bytes p w = (Raise e, w) →
  _content_changed h p w = (Ok (h, true), w).
Proof.
  intros Hread. unfold _content_changed, try_except, bind. by rewrite Hread.
Qed.

(** *** Dispatching leaves the tree alone: it only fills the outbox *)

Lemma keeps_files_bind {A B} (m : M A) (k : A → M B) :
  keeps_files m → (∀ a, keeps_files (k a)) → keeps_files (bind m k).
Proof.
  intros Hm Hk w o w'. unfold bind.
  destruct (m w) as [[a|e] w1] eqn:Hmw.
  - intros Hkw. destruct (Hm _ _ _ Hmw) as [? ?], (Hk a _ _ _ Hkw) as [? ?].
    split; congruence.
  - intros [= <- <-]. by eapply Hm.
Qed.

Lemma keeps_files_try_except {A} (m : M A) (handler : exn → M A) :
  keeps_files m → (∀ e, keeps_files (handler e)) → keeps_files (try_except m handler).
Proof.
  intros Hm Hh w o w'. unfold try_except.
  destruct (m w) as [[a|e] w1] eqn:Hmw.
  - intros [= <- <-]. by eapply Hm.
  - intros Hhw. destruct (Hm _ _ _ Hmw) as [? ?], (Hh e _ _ _ Hhw) as [? ?].
    split; congruence.
Qed.

Lemma keeps_files_ret {A} (a : A) : keeps_files (ret a).
Proof. by intros w o w' [= <- <-]. Qed.

Lemma keeps_files_raise {A} (e : exn) : keeps_files (@raise _ A e).
Proof. by intros w o w' [= <- <-]. Qed.

Lemma keeps_files_read_bytes (p : path) : keeps_files (read_bytes p).
Proof. intros w o w' Hr. by apply read_bytes_keeps_world in Hr as ->. Qed.

Lemma keeps_files_stat {A} (answer : gmap path node → path → A) (p : path) :
  keeps_files (stat answer p).
Proof.
  intros w o w'. rewrite stat_run.
  destruct (stat_refused w p); by intros [= <- <-].
Qed.

Lemma keeps_files_load (file_path : path) : keeps_files (load_sync_priority file_path).
Proof.
  intros w o w'. rewrite load_sync_priority_run.
  destruct (stat_refused w _); by intros [= <- <-].
Qed.

Lemma keeps_files_send_instant_sync (target_user : string)
    (file_path relative_path : path) (operation : SyncOperation)
    (old_path : option pathname) :
  keeps_files (send_instant_sync target_user file_path relative_path operation old_path).
Proof.
  unfold send_instant_sync.
  apply keeps_files_try_except; [| intros; apply keeps_files_ret].
  apply keeps_files_bind.
  { intros w o w'. unfold load_client_email.
    destruct (identity w); by intros [= <- <-]. }
  intros email. apply keeps_files_bind.
  { unfold read_for_sync. case_decide; [| apply keeps_files_ret].
    apply keeps_files_bind; [apply keeps_files_stat |].
    intros found. apply keeps_files_bind.
    { destruct found; [apply keeps_files_stat | apply keeps_files_ret]. }
    intros [|]; [| apply keeps_files_ret].
    apply keeps_files_bind; [apply keeps_files_read_bytes |].
    intros; apply keeps_files_ret. }
  intros cc. apply keeps_files_bind; [by intros w o w' [= <- <-] |].
  intros t. apply keeps_files_bind; [| intros; apply keeps_files_ret].
  intros w o w'. unfold rpc_send_wait.
  destruct (transport w _ _); by intros [= <- <-].
Qed.

Lemma keeps_files_send_to_each (h : SyncPriorityHandler) (file_path relative_path : path)
    (operation : SyncOperation) (old_path : option pathname) (us : list string) :
  keeps_files (send_to_each h file_path relative_path operation old_path us).
Proof.
  induction us as [|u us IH]; cbn [send_to_each]; [apply keeps_files_ret |].
  case_decide; [| done].
  apply keeps_files_bind; [apply keeps_files_send_instant_sync |].
  intros r. apply keeps_files_bind; [done |]. intros; apply keeps_files_ret.
Qed.

Lemma keeps_files_handle_sync_event (h : SyncPriorityHandler) (file_path : path)
    (operation : SyncOperation) (old_path : option pathname) :
  keeps_files (_handle_sync_event h file_path operation old_path).
Proof.
  unfold _handle_sync_event.
  apply keeps_files_try_except; [| intros; apply keeps_files_ret].
  apply keeps_files_bind.
  { destruct (relative_to _ _); [apply keeps_files_ret | apply keeps_files_raise]. }
  intros rel. apply keeps_files_bind; [apply keeps_files_load |].
  intros [config|]; [| apply keeps_files_ret].
  destruct (instant_users_of _ _); [apply keeps_files_ret |].
  apply keeps_files_send_to_each.
Qed.

Lemma read_bytes_run (p : path) (w : world) :
  read_bytes p w
  = if refused w (SysOpenRead p) then (Raise PermissionError, w)
    else match fs w !! p with
         | Some (File d) => (Ok d, w)
         | Some Dir => (Raise IsADirectoryError, w)
         | None => (Raise FileNotFoundError, w)
         end.
Proof.
  unfold read_bytes, bind, os_call, get_world, ret, raise.
  case_refused; [done |]. by case_node.
Qed.

Lemma read_bytes_same_files (p : path) (w w' : world) (d : data) :
  same_files w w' → read_bytes p w = (Ok d, w) → read_bytes p w' = (Ok d, w').
Proof.
  intros [Hfs Hrf]. rewrite !read_bytes_run, Hfs, Hrf.
  case_refused; [done |]. case_node; try done. by intros [= ->].
Qed.

Lemma on_modified_keeps_files (h : SyncPriorityHandler) (event : FileSystemEvent) :
  keeps_files (on_modified h event).
Proof.
  unfold on_modified.
  destruct (is_directory event || _should_ignore (src_path event));
    [apply keeps_files_ret |].
  apply keeps_files_bind.
  { unfold _content_changed.
    apply keeps_files_try_except; [| intros; apply keeps_files_ret].
    apply keeps_files_bind; [apply keeps_files_read_bytes |].
    intros content. cbv zeta. case_decide; apply keeps_files_ret. }
  intros [h' [|]]; cbn [fst snd]; [| apply keeps_files_ret].
  apply keeps_files_bind; [apply keeps_files_handle_sync_event |].
  intros; apply keeps_files_ret.
Qed.

Lemma on_modified_twice (h : SyncPriorityHandler) (event : FileSystemEvent)
    (w1 w2 : world) (d1 d2 : data) :
  read_bytes (src_path event) w1 = (Ok d1, w1) →
  read_bytes (src_path event) w2 = (Ok d2, w2) →
  sha256 d1 = sha256 d2 →
  ∃ h1 sent1 w1',
    on_modified h event w1 = (Ok (h1, sent1), w1') ∧
    on_modified h1 event w2 = (Ok (h1, []), w2).
Proof.
  intros Hr1 Hr2 Hsame. unfold on_modified.
  destruct (is_directory event || _should_ignore (src_path event)).
  { by exists h, [], w1. }
  destruct (content_changed_read h _ _ _ Hr1)
    as (h1 & changed & Hc1 & _ & _ & Hcache & _).
  destruct (content_changed_read h1 _ _ _ Hr2)
    as (h2 & changed2 & Hc2 & _ & _ & _ & Hiff).
  assert (changed2 = false) as -> by (apply Hiff; by rewrite <- Hsame).
  assert (h2 = h1) as ->.
  { revert Hc2. unfold _content_changed, try_except, bind. rewrite Hr2.
    cbv zeta. rewrite <- Hsame. rewrite decide_False; [by intros [= ->] |].
    by intros Hn. }
  unfold bind at 1. rewrite Hc1. cbn [snd fst].
  destruct changed.
  - unfold bind at 1.
    destruct (handle_sync_event_returns h1 (src_path event) UPDATE None w1)
      as (sent & w1' & ->).
    exists h1, sent, w1'. split; [done |].
    unfold bind. by rewrite Hc2.
  - exists h1, [], w1. split; [done |]. unfold bind. by rewrite Hc2.
Qed.

(** Claim C7.  The change detector suppresses duplicates of modified
    events by digest.  Of two modified notifications for a file that reads
    with the same digest at both, the first may hand an update to the
    dispatcher; the second hands over nothing: no call is made and the
    handler and the world stay as they are.  This holds in particular for
    a second notification that comes right after the first.  When the file
    cannot be read, [_content_changed] answers [True] and the event goes
    to the dispatcher as an update. *)
Theorem on_modified_suppresses_duplicates :
  (∀ (h : SyncPriorityHandler) (event : FileSystemEvent) (w1 w2 : world)
     (d1 d2 : data),
     read_bytes (src_path event) w1 = (Ok d1, w1) →
     read_bytes (src_path event) w2 = (Ok d2, w2) →
     sha256 d1 = sha256 d2 →
     ∃ h1 sent1 w1',
       on_modified h event w1 = (Ok (h1, sent1), w1') ∧
       on_modified h1 event w2 = (Ok (h1, []), w2)) ∧
  (∀ (h : SyncPriorityHandler) (event : FileSystemEvent) (w : world) (d : data),
     read_bytes (src_path event) w = (Ok d, w) →
     ∃ h1 sent1 w1,
       on_modified h event w = (Ok (h1, sent1), w1) ∧
       on_modified h1 event w1 = (Ok (h1, []), w1)) ∧
  (∀ (h : SyncPriorityHandler) (event : FileSystemEvent) (w : world) (e : exn),
     is_directory event = false →
     _should_ignore (src_path event) = false →
     read_bytes (src_path event) w = (Raise e, w) →
     _content_changed h (src_path event) w = (Ok (h, true), w) ∧
     on_modified h event w
     = (sent <- _handle_sync_event h (src_path event) UPDATE None ;;
        ret (h, sent)) w).
Proof.
  split; [| split].
  - apply on_modified_twice.
  - intros h event w d Hread.
    destruct (on_modified_twice h event w w d d Hread Hread eq_refl)
      as (h1 & sent1 & w1 & Hfirst & _).
    pose proof (on_modified_keeps_files h event _ _ _ Hfirst) as Hsame.
    pose proof (read_bytes_same_files _ _ _ _ Hsame Hread) as Hread1.
    destruct (on_modified_twice h event w w1 d d Hread Hread1 eq_refl)
      as (h1' & sent1' & w1' & Hfirst' & Hsecond).
    rewrite Hfirst in Hfirst'. injection Hfirst' as <- <- <-.
    by exists h1, sent1, w1.
  - intros h event w e Hdir Hign Hread.
    pose proof (content_changed_unreadable h _ _ _ Hread) as Hc.
    split; [done |]. unfold on_modified. rewrite Hdir, Hign. cbn [orb].
    unfold bind at 1. by rewrite Hc.
Qed.

End WatcherFacts.

(** ** Receiver (server.py, client.py) *)

Section ReceiverFacts.
Context `{Platform}.

Lemma validate_sync_permissions_spec (base_path : path) (request : SyncRequest)
    (w : world) :
  validate_sync_permissions (sender request) (target_path request)
    (operation request) base_path w
  = (Ok (permission_granted base_path request w), w).
Proof.
  unfold validate_sync_permissions, permission_granted, try_except, bind,
    import_check_permission, lift_outcome, ret.
  destruct (permission_backend w) as [check|]; [|done].
  cbv zeta. by destruct (check _ _ _).
Qed.

Lemma permission_check_raises_denied (base_path : path) (request : SyncRequest)
    (w : world) :
  permission_check_raises base_path request w →
  permission_granted base_path request w = false.
Proof.
  unfold permission_check_raises, permission_granted.
  destruct (permission_backend w) as [check|]; [|done].
  by intros [e ->].
Qed.

Lemma with_fs_same (w : world) : with_fs (fs w) w = w.
Proof. by destruct w. Qed.

Lemma mkdir_parents_run (p : path) (w : world) :
  mkdir_parents p w
  = if refused w (SysMkdir p) then (Raise PermissionError, w)
    else if existsb (is_file_at (fs w)) (prefixes p)
         then (Raise (if is_file_at (fs w) p then FileExistsError
                      else NotADirectoryError), w)
         else (Ok (), with_fs (make_dirs p (fs w)) w).
Proof.
  unfold mkdir_parents, bind, os_call, get_world, put_fs, raise.
  case_refused; [done |]. by destruct (existsb _ _).
Qed.

Lemma write_bytes_run (p : path) (d : data) (w : world) :
  write_bytes p d w
  = if refused w (SysOpenWrite p) then (Raise PermissionError, w)
    else match fs w !! p with
         | Some Dir => (Raise IsADirectoryError, w)
         | Some (File _) => (Ok (), with_fs (<[p := File d]> (fs w)) w)
         | None =>
             if is_dir_at (fs w) (parent p)
             then (Ok (), with_fs (<[p := File d]> (fs w)) w)
             else (Raise FileNotFoundError, w)
         end.
Proof.
  unfold write_bytes, bind, os_call, get_world, put_fs, raise.
  case_refused; [done |]. case_node; try done. by destruct (is_dir_at _ _).
Qed.

Lemma touch_run (p : path) (w : world) :
  touch p w
  = if refused w (SysTouch p) then (Raise PermissionError, w)
    else match fs w !! p with
         | Some _ => (Ok (), w)
         | None =>
             if is_dir_at (fs w) (parent p)
             then (Ok (), with_fs (<[p := File (Bytes [])]> (fs w)) w)
             else (Raise FileNotFoundError, w)
         end.
Proof.
  unfold touch, bind, os_call, get_world, put_fs, raise, ret.
  case_refused; [done |]. case_node; try done. by destruct (is_dir_at _ _).
Qed.

Lemma unlink_run (p : path) (w : world) :
  unlink p w
  = if refused w (SysUnlink p) then (Raise PermissionError, w)
    else match fs w !! p with
         | Some (File _) => (Ok (), with_fs (delete p (fs w)) w)
         | Some Dir => (Raise IsADirectoryError, w)
         | None => (Raise FileNotFoundError, w)
         end.
Proof.
  unfold unlink, bind, os_call, get_world, put_fs, raise.
  case_refused; [done |]. by case_node.
Qed.

Lemma rmtree_run (p : path) (w : world) :
  rmtree p w
  = if refused w (SysRmtree p) then (Raise PermissionError, w)
    else match fs w !! p with
         | Some Dir => (Ok (), with_fs (remove_tree p (fs w)) w)
         | Some (File _) => (Raise NotADirectoryError, w)
         | None => (Raise FileNotFoundError, w)
         end.
Proof.
  unfold rmtree, bind, os_call, get_world, put_fs, raise.
  case_refused; [done |]. by case_node.
Qed.

Lemma make_dirs_id (p : path) (m : gmap path node) :
  (∀ q : path, q `prefix_of` p → m !! q = Some Dir) → make_dirs p m = m.
Proof.
  intros Hdirs. apply map_eq. intros k. rewrite lookup_make_dirs.
  case_decide; [by rewrite Hdirs | done].
Qed.

Lemma no_file_among_dirs (p : path) (m : gmap path node) :
  (∀ q : path, q `prefix_of` p → m !! q = Some Dir) →
  existsb (is_file_at m) (prefixes p) = false.
Proof.
  intros Hdirs. apply not_true_is_false. intros Ht.
  apply existsb_exists in Ht as (q & Hq & Hf).
  apply list_elem_of_In, elem_of_prefixes in Hq.
  unfold is_file_at in Hf. by rewrite (Hdirs q Hq) in Hf.
Qed.

Lemma parent_shorter (p : path) : p ≠ [] → length (parent p) < length p.
Proof.
  intros Hne. destruct (exists_last Hne) as (l & a & ->).
  rewrite parent_snoc, length_app. cbn. lia.
Qed.

Lemma not_prefix_of_parent (p : path) : p ≠ [] → ¬ p `prefix_of` parent p.
Proof.
  intros Hne Hp. apply prefix_length in Hp.
  pose proof (parent_shorter p Hne). lia.
Qed.

Lemma well_formed_ancestors (m : gmap path node) (p q : path) :
  well_formed m → is_Some (m !! p) → q `prefix_of` parent p → m !! q = Some Dir.
Proof.
  intros [Hroot Hwf] Hp Hq. destruct (decide (p = [])) as [->|Hne].
  - cbn in Hq. apply prefix_nil_inv in Hq as ->. done.
  - apply (Hwf p q Hp).
    + etrans; [exact Hq | apply parent_prefix].
    + intros ->. by apply (not_prefix_of_parent p).
Qed.

Lemma respond_run (ok : bool) (msg : string) (code : option string) (w : world) :
  respond ok msg code w
  = (Ok {| success := ok; message := msg; response_timestamp := clock w;
           error_code := code |}, w).
Proof. done. Qed.


(** A handler made of a [try] block and an [except] clause that builds a
    response always returns a response. *)
Lemma try_except_respond (block : M SyncResponse) (msg : exn → string)
    (code : option string) (w : world) :
  ∃ resp w',
    try_except block (λ e, respond false (msg e) code) w = (Ok resp, w') ∧
    (∀ e w'', block w = (Raise e, w'') →
              w' = w'' ∧ success resp = false ∧ error_code resp = code) ∧
    (∀ r w'', block w = (Ok r, w'') → w' = w'' ∧ resp = r).
Proof.
  unfold try_except. destruct (block w) as [[r|e] w1].
  - exists r, w1. split; [done |]. split; [done |]. by intros r' w'' [= <- <-].
  - rewrite respond_run. eexists _, w1. split; [done |].
    split; [| done]. by intros e' w'' [= <- <-].
Qed.

Lemma serve_returns (base_path : path) (request : SyncRequest) (w : world) :
  ∃ resp w',
    serve base_path request w = (Ok resp, w') ∧
    (∀ e w'', operation_block base_path request w = (Raise e, w'') →
              w' = w'' ∧ success resp = false ∧
              error_code resp = Some (operation_error_code (operation request))).
Proof.
  unfold serve, operation_block. cbv zeta.
  destruct (operation request);
    [ destruct (try_except_respond
                  (create_block request (base_path ++ target_path request))
                  (λ e, "Create failed: " +:+ exn_str e) (Some "CREATE_ERROR") w)
        as (resp & w' & Hrun & Hraise & _)
    | destruct (try_except_respond
                  (update_block request (base_path ++ target_path request))
                  (λ e, "Update failed: " +:+ exn_str e) (Some "UPDATE_ERROR") w)
        as (resp & w' & Hrun & Hraise & _)
    | destruct (try_except_respond
                  (delete_block request (base_path ++ target_path request))
                  (λ e, "Delete failed: " +:+ exn_str e) (Some "DELETE_ERROR") w)
        as (resp & w' & Hrun & Hraise & _)
    | destruct (try_except_respond
                  (move_block base_path request (base_path ++ target_path request))
                  (λ e, "Move failed: " +:+ exn_str e) (Some "MOVE_ERROR") w)
        as (resp & w' & Hrun & Hraise & _) ];
    exists resp, w'; (split; [exact Hrun | exact Hraise]).
Qed.

Lemma handle_sync_request_run (base_path : path) (request : SyncRequest)
    (w : world) :
  handle_sync_request base_path request w
  = if permission_granted base_path request w
    then serve base_path request w
    else respond false
           ("Permission denied for " +:+ sender request +:+ " to "
            +:+ operation_value (operation request) +:+ " "
            +:+ String.concat "/" (target_path request))
           (Some "PERMISSION_DENIED") w.
Proof.
  unfold handle_sync_request, try_except. unfold bind at 1.
  rewrite validate_sync_permissions_spec.
  destruct (permission_granted base_path request w); cbn [negb].
  - destruct (serve_returns base_path request w) as (resp & w' & Hrun & _).
    by rewrite Hrun.
  - by rewrite respond_run.
Qed.

(** Claim C10.  Permission checking fails closed.  When the evaluation of
    the permission raises (the backend cannot be imported, or
    [check_permission] raises), [validate_sync_permissions] returns
    [False], and [handle_sync_request] responds success=false with
    PERMISSION_DENIED in the world it started from: nothing in the tree is
    touched. *)
Theorem permission_check_fails_closed (base_path : path) (request : SyncRequest)
    (w : world) :
  permission_check_raises base_path request w →
  validate_sync_permissions (sender request) (target_path request)
    (operation request) base_path w = (Ok false, w) ∧
  ∃ resp,
    handle_sync_request base_path request w = (Ok resp, w) ∧
    success resp = false ∧
    error_code resp = Some "PERMISSION_DENIED".
Proof.
  intros Hraises%permission_check_raises_denied.
  rewrite validate_sync_permissions_spec, handle_sync_request_run, Hraises.
  split; [done |]. rewrite respond_run. by eexists.
Qed.

(** Claim C2, as the code has it.  [handle_sync_request] returns a
    response for every request in every world; it never raises.  A failure
    raised while the permission is evaluated ends in success=false with
    PERMISSION_DENIED and an untouched world; a failure raised inside the
    [try] block of the handler that serves the operation ends in
    success=false with that handler's code, CREATE_ERROR, UPDATE_ERROR,
    DELETE_ERROR or MOVE_ERROR. *)
Theorem handle_sync_request_always_responds (base_path : path)
    (request : SyncRequest) (w : world) :
  ∃ resp w',
    handle_sync_request base_path request w = (Ok resp, w') ∧
    (permission_check_raises base_path request w →
     w' = w ∧ success resp = false ∧ error_code resp = Some "PERMISSION_DENIED") ∧
    (∀ e w'',
       validate_sync_permissions (sender request) (target_path request)
         (operation request) base_path w = (Ok true, w) →
       operation_block base_path request w = (Raise e, w'') →
       w' = w'' ∧ success resp = false ∧
       error_code resp = Some (operation_error_code (operation request))).
Proof.
  rewrite handle_sync_request_run, validate_sync_permissions_spec.
  destruct (permission_granted base_path request w) eqn:Hg.
  - destruct (serve_returns base_path request w) as (resp & w' & Hrun & Hraise).
    exists resp, w'. split; [done |]. split.
    + intros Hr%permission_check_raises_denied. congruence.
    + intros e w'' _. apply Hraise.
  - rewrite respond_run. eexists _, w. split; [done |]. split; [done |].
    intros e w'' [=].
Qed.

(** *** create *)

Lemma create_block_exists (request : SyncRequest) (target_path : path) (w : world) :
  no_faults w →
  is_Some (fs w !! target_path) →
  (∀ q : path, q `prefix_of` parent target_path → fs w !! q = Some Dir) →
  ∃ resp,
    _handle_create request target_path w = (Ok resp, w) ∧
    success resp = false ∧ error_code resp = Some "FILE_EXISTS".
Proof.
  intros Hnf [n Hn] Hdirs. unfold _handle_create, try_except, create_block.
  unfold bind at 1. rewrite mkdir_parents_run, Hnf.
  rewrite no_file_among_dirs by done. rewrite make_dirs_id by done.
  rewrite with_fs_same. unfold bind at 1, exists_. rewrite stat_returns by stat_ok.
  unfold exists_at. rewrite Hn.
  rewrite respond_run. by eexists.
Qed.

Lemma create_block_fresh (request : SyncRequest) (target_path : path) (w : world) :
  no_faults w →
  target_path ≠ [] →
  fs w !! target_path = None →
  existsb (is_file_at (fs w)) (prefixes (parent target_path)) = false →
  ∃ resp,
    _handle_create request target_path w
    = (Ok resp, with_fs (<[target_path := File (written request)]>
                           (make_dirs (parent target_path) (fs w))) w) ∧
    success resp = true ∧ error_code resp = None.
Proof.
  intros Hnf Hne Habs Hfree. unfold _handle_create, try_except, create_block.
  unfold bind at 1. rewrite mkdir_parents_run, Hnf, Hfree.
  unfold bind at 1, exists_. rewrite stat_returns by stat_ok.
  unfold exists_at. cbn [fs with_fs].
  assert (make_dirs (parent target_path) (fs w) !! target_path = None) as Hstill.
  { rewrite lookup_make_dirs, decide_False; [done |].
    by apply not_prefix_of_parent. }
  assert (is_dir_at (make_dirs (parent target_path) (fs w)) (parent target_path)
          = true) as Hdir.
  { unfold is_dir_at. by rewrite lookup_make_dirs, decide_True. }
  rewrite Hstill. unfold written.
  destruct (content request) as [c|].
  - unfold bind at 1. rewrite write_bytes_run. cbn [refused fs with_fs].
    rewrite Hnf, Hstill, Hdir. rewrite respond_run. by eexists.
  - unfold bind at 1. rewrite touch_run. cbn [refused fs with_fs].
    rewrite Hnf, Hstill, Hdir. rewrite respond_run. by eexists.
Qed.

Lemma create_block_blocked (request : SyncRequest) (target_path : path) (w : world) :
  existsb (is_file_at (fs w)) (prefixes (parent target_path)) = true →
  ∃ resp,
    _handle_create request target_path w = (Ok resp, w) ∧
    success resp = false ∧ error_code resp = Some "CREATE_ERROR".
Proof.
  intros Hblocked. unfold _handle_create, try_except, create_block.
  unfold bind at 1. rewrite mkdir_parents_run, Hblocked.
  destruct (refused w _); rewrite respond_run; by eexists.
Qed.

(** Claim C8, as the code has it.  On a well-formed tree that the
    operating system serves without refusal: a create for a target that
    exists answers FILE_EXISTS and changes nothing; a create for a target
    that does not exist, none of whose ancestors is a regular file, makes
    the missing parent directories, writes the content (an empty file when
    there is none), answers success=true, leaves every other path as it
    was, and any create that follows for the same target answers
    FILE_EXISTS; when an ancestor of the absent target is a regular file
    the answer is CREATE_ERROR and nothing changes. *)
Theorem handle_create_new_file_only (request : SyncRequest) (target_path : path)
    (w : world) :
  no_faults w →
  well_formed (fs w) →
  (is_Some (fs w !! target_path) →
   ∃ resp,
     _handle_create request target_path w = (Ok resp, w) ∧
     success resp = false ∧ error_code resp = Some "FILE_EXISTS") ∧
  (fs w !! target_path = None →
   existsb (is_file_at (fs w)) (prefixes (parent target_path)) = false →
   ∃ resp w',
     _handle_create request target_path w = (Ok resp, w') ∧
     success resp = true ∧
     fs w' !! target_path = Some (File (written request)) ∧
     (∀ q : path, q `prefix_of` parent target_path → fs w' !! q = Some Dir) ∧
     (∀ k : path, k ≠ target_path → ¬ k `prefix_of` parent target_path →
                  fs w' !! k = fs w !! k) ∧
     ∀ request',
       ∃ resp',
         _handle_create request' target_path w' = (Ok resp', w') ∧
         success resp' = false ∧ error_code resp' = Some "FILE_EXISTS") ∧
  (fs w !! target_path = None →
   existsb (is_file_at (fs w)) (prefixes (parent target_path)) = true →
   ∃ resp,
     _handle_create request target_path w = (Ok resp, w) ∧
     success resp = false ∧ error_code resp = Some "CREATE_ERROR").
Proof.
  intros Hnf Hwf. split; [| split].
  - intros Hex. apply create_block_exists; [done | done |].
    intros q Hq. by eapply well_formed_ancestors.
  - intros Habs Hfree.
    assert (target_path ≠ []) as Hne.
    { intros ->. destruct Hwf as [Hroot _]. congruence. }
    destruct (create_block_fresh request target_path w Hnf Hne Habs Hfree)
      as (resp & Hrun & Hok & _).
    eexists resp, _. split; [exact Hrun |]. split; [exact Hok |].
    cbn [fs with_fs].
    assert (∀ q : path, q `prefix_of` parent target_path →
              <[target_path := File (written request)]>
                (make_dirs (parent target_path) (fs w)) !! q = Some Dir) as Hdirs.
    { intros q Hq. rewrite lookup_insert_ne.
      - by rewrite lookup_make_dirs, decide_True.
      - intros <-. by apply (not_prefix_of_parent target_path). }
    split; [apply lookup_insert_eq |]. split; [exact Hdirs |]. split.
    + intros k Hk Hnp. rewrite lookup_insert_ne by done.
      by rewrite lookup_make_dirs, decide_False.
    + intros request'. apply create_block_exists.
      * intros c. apply Hnf.
      * cbn [fs with_fs]. rewrite lookup_insert_eq. by eexists.
      * exact Hdirs.
  - intros _ Hblocked. by apply create_block_blocked.
Qed.

(** *** delete *)



End ReceiverFacts.

(** * Further properties of the code *)

(** ** Rule store *)

Section RuleStoreMore.
Context `{Platform}.

(** *** the one failure that leaves load_sync_priority *)

(** Property X1.  [load_sync_priority] leaves the world as it was, and one
    failure only reaches its caller: that of the existence check of the
    sidecar, which stands before the [try].  When that stat is not refused
    it returns, and it returns [None] when the read of the sidecar is
    refused, when a directory sits at the sidecar's path, when the
    sidecar's document is not a mapping, when the mapping has no [rules]
    key, and when one item under [rules] is not a valid rule. *)
Theorem load_sync_priority_contained (file_path : path) (w : world) :
  (stat_refused w (syncpriority_path file_path) = true →
   load_sync_priority file_path w = (Raise PermissionError, w)) ∧
  (stat_refused w (syncpriority_path file_path) = false →
   ∃ result,
     load_sync_priority file_path w = (Ok result, w) ∧
     (refused w (SysOpenRead (syncpriority_path file_path)) = true →
      result = None) ∧
     (fs w !! syncpriority_path file_path = Some Dir → result = None) ∧
     (∀ doc, fs w !! syncpriority_path file_path = Some (File (YamlText doc)) →
             (∀ entries, doc ≠ YMap entries) → result = None) ∧
     (∀ entries,
        fs w !! syncpriority_path file_path = Some (File (YamlText (YMap entries))) →
        ylookup "rules" entries = None → result = None) ∧
     (∀ entries items y,
        fs w !! syncpriority_path file_path = Some (File (YamlText (YMap entries))) →
        ylookup "rules" entries = Some (YSeq items) →
        y ∈ items → validate_rule y = None → result = None)).
Proof.
  rewrite load_sync_priority_run. split; [by intros -> |]. intros ->.
  exists (stored_config w file_path). split; [done |].
  unfold stored_config. split; [| split; [| split; [| split]]].
  - intros ->. by repeat case_match.
  - by intros ->.
  - intros doc -> Hdoc. destruct doc; try done. by destruct (Hdoc entries).
  - intros entries -> Hrules. case_match; [done |].
    unfold validate_config. by rewrite Hrules.
  - intros entries items y -> Hrules Hy Hbad. case_match; [done |].
    unfold validate_config. rewrite Hrules. cbn [mbind option_bind as_seq].
    assert (mapM validate_rule items = None) as ->; [| done].
    apply mapM_None, Exists_exists. by exists y.
Qed.

(** *** what a rule must hold *)

(** Property X2.  What [SyncPriorityRule] accepts.  A mapping with a
    non-empty list of users and a priority value is a rule, with all four
    operations by default.  A mapping without users, with an empty list of
    users, without a priority, with a priority string other than instant and
    normal, or with an operation string outside the enum is rejected. *)
Theorem validate_rule_constraints :
  (∀ us pr, us ≠ [] →
     validate_rule (YMap [("users", YSeq (YStr <$> us));
                          ("priority", YStr (priority_value pr))])
     = Some {| users := us; priority := pr; operations := all_operations |}) ∧
  (∀ entries, ylookup "users" entries = None → validate_rule (YMap entries) = None) ∧
  (∀ entries, ylookup "users" entries = Some (YSeq []) →
              validate_rule (YMap entries) = None) ∧
  (∀ entries, ylookup "priority" entries = None →
              validate_rule (YMap entries) = None) ∧
  (∀ entries s, ylookup "priority" entries = Some (YStr s) →
                s ≠ "instant" → s ≠ "normal" →
                validate_rule (YMap entries) = None) ∧
  (∀ entries items s,
     ylookup "operations" entries = Some (YSeq items) →
     YStr s ∈ items → parse_operation s = None →
     validate_rule (YMap entries) = None).
Proof.
  split; [| split; [| split; [| split; [| split]]]].
  - intros us pr Hus. unfold validate_rule.
    change (ylookup "users" _) with (Some (YSeq (YStr <$> us))).
    change (ylookup "priority" _) with (Some (YStr (priority_value pr))).
    change (ylookup "operations" _) with (@None yaml).
    cbn [mbind option_bind validate_str_list as_seq as_str validate_operations].
    rewrite (mapM_inverse as_str YStr) by done. cbn [mbind option_bind].
    rewrite decide_False by done.
    rewrite parse_priority_value. done.
  - intros entries Hu. unfold validate_rule. by rewrite Hu.
  - intros entries Hu. unfold validate_rule. by rewrite Hu.
  - intros entries Hp. unfold validate_rule. rewrite Hp.
    destruct (ylookup "users" entries ≫= validate_str_list) as [us|]; [|done].
    cbn [mbind option_bind]. by case_decide.
  - intros entries s Hp Hi Hn. unfold validate_rule. rewrite Hp.
    destruct (ylookup "users" entries ≫= validate_str_list) as [us|]; [|done].
    cbn [mbind option_bind as_str]. case_decide; [done |].
    unfold parse_priority. by rewrite !decide_False.
  - intros entries items s Ho Hs Hbad. unfold validate_rule. rewrite Ho.
    destruct (ylookup "users" entries ≫= validate_str_list) as [us|]; [|done].
    cbn [mbind option_bind]. case_decide; [done |].
    destruct (ylookup "priority" entries ≫= as_str) as [s'|]; [|done].
    cbn [mbind option_bind]. destruct (parse_priority s'); [|done].
    cbn [mbind option_bind validate_operations validate_str_list as_seq].
    destruct (mapM as_str items) as [strs|] eqn:Hstrs; [|done].
    cbn [mbind option_bind].
    assert (mapM parse_operation strs = None) as ->; [| done].
    apply mapM_None, Exists_exists. exists s. split; [| done].
    apply mapM_Some in Hstrs.
    apply list_elem_of_lookup in Hs as [i Hi].
    destruct (Forall2_lookup_l _ _ _ _ _ Hstrs Hi) as (str & Hstr & Heq).
    injection Heq as <-. by eapply list_elem_of_lookup_2.
Qed.


(** *** set_sync_priority: what it raises *)

(** Property X3.  For bad arguments [set_sync_priority] raises instead
    of returning [False]: [ValueError] for a priority outside the enum and
    for an operation outside the enum, [ValidationError] for an empty list
    of users.  The sidecar is loaded before the rule is built, so a refused
    stat of the sidecar is raised first, also for good arguments.  In each
    case the world is left as it was. *)
Theorem set_sync_priority_raises (file_path : path) (us : users_arg)
    (a : priority_arg) (ops : option (list operation_arg)) (w : world) :
  (parse_priority_arg a = None →
   set_sync_priority file_path us a ops w = (Raise ValueError, w)) ∧
  (is_Some (parse_priority_arg a) → parse_operation_args ops = None →
   set_sync_priority file_path us a ops w = (Raise ValueError, w)) ∧
  (is_Some (parse_priority_arg a) → is_Some (parse_operation_args ops) →
   users_of us = [] →
   set_sync_priority file_path us a ops w
   = (Raise (if stat_refused w (syncpriority_path file_path)
             then PermissionError else ValidationError), w)) ∧
  (is_Some (parse_priority_arg a) → is_Some (parse_operation_args ops) →
   stat_refused w (syncpriority_path file_path) = true →
   set_sync_priority file_path us a ops w = (Raise PermissionError, w)).
Proof.
  unfold set_sync_priority. cbv zeta. split; [| split; [| split]].
  - intros ->. done.
  - intros [pr ->] ->. done.
  - intros [pr ->] [os ->] Hus. unfold or_value_error.
    unfold bind at 1, ret at 1. unfold bind at 1, ret at 1.
    unfold bind at 1. rewrite load_sync_priority_run.
    destruct (stat_refused w _); [done |].
    unfold construct_rule. rewrite Hus.
    by destruct (stored_config w file_path).
  - intros [pr ->] [os ->] Hstat. unfold or_value_error.
    unfold bind at 1, ret at 1. unfold bind at 1, ret at 1.
    unfold bind at 1. by rewrite load_sync_priority_run, Hstat.
Qed.

(** *** set_sync_priority then get_sync_priority *)



Lemma get_sync_priority_run (file_path : path) (user : string) (w : world) :
  stat_refused w (syncpriority_path file_path) = false →
  get_sync_priority file_path user w
  = (Ok (first_match user (rules_before w file_path)), w).
Proof.
  intros Hstat. unfold get_sync_priority, rules_before, bind.
  rewrite load_sync_priority_spec by stat_ok.
  by destruct (stored_config w file_path).
Qed.

Lemma stat_refused_same (w w' : world) (p : path) :
  refused w' = refused w → stat_refused w' p = stat_refused w p.
Proof. unfold stat_refused. by intros ->. Qed.


(** *** set_sync_priority keeps user sets distinct *)

(** Property X5.  If no two rules of a path have the same set of
    users, then this also holds after a successful [set_sync_priority]. *)
Theorem set_sync_priority_keeps_distinct (file_path : path) (us : users_arg)
    (a : priority_arg) (ops : option (list operation_arg))
    (old new : list SyncPriorityRule) (w w' : world) :
  no_faults w →
  list_sync_priorities file_path w = (Ok old, w) →
  set_sync_priority file_path us a ops w = (Ok true, w') →
  list_sync_priorities file_path w' = (Ok new, w') →
  distinct_user_sets old →
  distinct_user_sets new.
Proof.
  intros Hnf Hold Hset Hnew Hd.
  pose proof (set_sync_priority_no_faults _ _ _ _ _ _ Hnf Hset) as Hnf'.
  rewrite list_sync_priorities_spec in Hold, Hnew by stat_ok.
  injection Hold as <-. injection Hnew as <-.
  destruct (set_sync_priority_stored file_path us a ops w w' (Hnf _) Hset)
    as (c' & r & Hst & _ & Hu & _ & _ & Hrules).
  unfold rules_before at 1. rewrite Hst, Hrules.
  unfold distinct_user_sets in *. rewrite fmap_app. apply NoDup_app.
  split; [| split].
  - eapply sublist_NoDup; [exact Hd |].
    apply fmap_sublist. unfold other_rules. apply sublist_filter.
  - intros s Hs Hs'. apply list_elem_of_fmap in Hs as (r' & -> & Hr').
    apply list_elem_of_filter in Hr' as [Hdiff _].
    cbn in Hs'. apply list_elem_of_singleton in Hs'.
    apply Hdiff. unfold same_users, user_set in *. by rewrite Hs', Hu.
  - apply NoDup_singleton.
Qed.


(** *** what a write of the sidecar touches *)

Lemma save_sync_priority_run (file_path : path) (c : SyncPriorityConfig) (w : world) :
  save_sync_priority file_path c w
  = let sp := syncpriority_path file_path in
    if refused w (SysMkdir (parent sp)) then (Raise PermissionError, w)
    else if existsb (is_file_at (fs w)) (prefixes (parent sp))
    then (Raise (if is_file_at (fs w) (parent sp) then FileExistsError
                 else NotADirectoryError), w)
    else
      let m := make_dirs (parent sp) (fs w) in
      if refused w (SysOpenWrite sp) then (Raise PermissionError, with_fs m w)
      else if is_dir_at m sp then (Raise IsADirectoryError, with_fs m w)
      else (Ok (), with_fs (<[sp := File (YamlText (model_dump c))]> m) w).
Proof.
  unfold save_sync_priority, yaml_safe_dump. cbv zeta. unfold bind at 1.
  rewrite mkdir_parents_run. case_refused; [done |].
  destruct (existsb _ _); [done |]. rewrite write_bytes_run. cbn [refused fs with_fs].
  case_refused; [done |]. unfold is_dir_at.
  destruct (make_dirs _ _ !! syncpriority_path file_path) as [[d|]|] eqn:E;
    [done | done |].
  assert (make_dirs (parent (syncpriority_path file_path)) (fs w)
            !! parent (syncpriority_path file_path) = Some Dir) as ->; [| done].
  by rewrite lookup_make_dirs, decide_True.
Qed.

(** Property X6.  A successful [set_sync_priority] leaves a YAML file at
    the sidecar's path, turns the sidecar's ancestors that were missing into
    directories, leaves every other path of the tree as it was, and sends
    nothing. *)
Theorem set_sync_priority_frame (file_path : path) (us : users_arg)
    (a : priority_arg) (ops : option (list operation_arg)) (w w' : world) :
  set_sync_priority file_path us a ops w = (Ok true, w') →
  (∃ doc, fs w' !! syncpriority_path file_path = Some (File (YamlText doc))) ∧
  (∀ q : path, q `prefix_of` parent (syncpriority_path file_path) →
               fs w' !! q = Some Dir ∧
               (fs w !! q = Some Dir ∨ fs w !! q = None)) ∧
  (∀ k : path, k ≠ syncpriority_path file_path →
               ¬ k `prefix_of` parent (syncpriority_path file_path) →
               fs w' !! k = fs w !! k) ∧
  outbox w' = outbox w.
Proof.
  unfold set_sync_priority. cbv zeta. unfold or_value_error.
  destruct (parse_priority_arg a) as [pr|]; [|done].
  destruct (parse_operation_args ops) as [os|]; [|done].
  unfold bind at 1, ret at 1. unfold bind at 1, ret at 1.
  unfold bind at 1. rewrite load_sync_priority_run.
  destruct (stat_refused w _); [done |].
  assert (∀ base,
            (rule <- construct_rule (users_of us) pr os ;;
             try_except
               (save_sync_priority file_path
                  (with_rules (other_rules (users_of us) (rules base) ++ [rule]) base)
                ;;; ret true) (λ _, ret false)) w = (Ok true, w') →
            ∃ c, save_sync_priority file_path c w = (Ok (), w')) as Hsave.
  { intros base. unfold bind at 1, construct_rule.
    destruct (decide (users_of us = [])); [done |]. cbn [ret].
    intros Hs%save_reported. eauto. }
  intros Hrun.
  assert (∃ c, save_sync_priority file_path c w = (Ok (), w')) as [c Hc].
  { revert Hrun. destruct (stored_config w file_path) as [c0|].
    - unfold bind at 1, ret at 1. apply Hsave.
    - unfold bind at 1, empty_config. unfold bind at 1, now.
      unfold bind at 1. cbn [ret]. apply Hsave. }
  clear Hsave Hrun. rewrite save_sync_priority_run in Hc. cbv zeta in Hc.
  destruct (refused w (SysMkdir _)); [done |].
  destruct (existsb _ _) eqn:Hfree; [done |].
  destruct (refused w (SysOpenWrite _)); [done |].
  destruct (is_dir_at _ _) eqn:Hnd; [done |].
  injection Hc as <-. cbn [fs with_fs outbox].
  assert (¬ syncpriority_path file_path
            `prefix_of` parent (syncpriority_path file_path)) as Hnp.
  { apply not_prefix_of_parent. unfold syncpriority_path.
    by destruct (parent file_path). }
  split; [| split; [| split]].
  - eexists. apply lookup_insert_eq.
  - intros q Hq. split.
    + rewrite lookup_insert_ne by (by intros <-).
      by rewrite lookup_make_dirs, decide_True.
    + pose proof (existsb_is_file_false _ _ _ Hfree Hq) as Hf.
      unfold is_file_at in Hf. destruct (fs w !! q) as [[|]|]; auto. done.
  - intros k Hk Hnk. rewrite lookup_insert_ne by done.
    by rewrite lookup_make_dirs, decide_False.
  - done.
Qed.


(** *** remove_sync_priority *)

Lemma elem_of_strip_users (gone : list string) (rs : list SyncPriorityRule)
    (r : SyncPriorityRule) :
  r ∈ strip_users gone rs →
  users r ≠ [] ∧ (∀ u, u ∈ gone → u ∉ users r) ∧
  ∃ r0, r0 ∈ rs ∧ users r = filter (λ u, u ∉ gone) (users r0) ∧
        priority r = priority r0 ∧ operations r = operations r0.
Proof.
  induction rs as [|r0 rs IH]; [by intros ?%elem_of_nil |].
  cbn [strip_users].
  destruct (filter (λ u, u ∉ gone) (users r0)) as [|u0 us0] eqn:E.
  - intros (? & ? & r1 & ? & ?)%IH. repeat split; [done | done |].
    exists r1. split; [by right | done].
  - intros [->|Hin]%elem_of_cons.
    + cbn. split; [done |]. split.
      * intros u Hu Hin. rewrite <- E in Hin.
        by apply list_elem_of_filter in Hin as [? _].
      * exists r0. split; [left | by rewrite E].
    + destruct (IH Hin) as (? & ? & r1 & ? & ?). repeat split; [done | done |].
      exists r1. split; [by right | done].
Qed.

Lemma filter_not_gone_idemp (gone us : list string) :
  filter (λ u, u ∉ gone) (filter (λ u, u ∉ gone) us) = filter (λ u, u ∉ gone) us.
Proof.
  induction us as [|u us IH]; [done |].
  rewrite (filter_cons _ u us). destruct (decide (u ∉ gone)); [| done].
  rewrite filter_cons_True by done. by rewrite IH.
Qed.

Lemma strip_users_idemp (gone : list string) (rs : list SyncPriorityRule) :
  strip_users gone (strip_users gone rs) = strip_users gone rs.
Proof.
  induction rs as [|r rs IH]; [done |].
  cbn [strip_users].
  destruct (filter (λ u, u ∉ gone) (users r)) as [|u0 us0] eqn:E; [done |].
  cbn [strip_users users priority operations].
  rewrite <- E, filter_not_gone_idemp, E. by rewrite IH.
Qed.

Lemma unlink_keeps_refused (p : path) (w w' : world) (u : unit) :
  unlink p w = (Ok u, w') → refused w' = refused w.
Proof.
  rewrite unlink_run. case_refused; [done |]. case_node; try done.
  by intros [= _ <-].
Qed.

Lemma unlink_if_exists_run (p : path) (w : world) :
  stat_refused w p = false →
  unlink_if_exists p w
  = match fs w !! p with
    | None => (Ok (), w)
    | Some n =>
        if refused w (SysUnlink p) then (Raise PermissionError, w)
        else match n with
             | File _ => (Ok (), with_fs (delete p (fs w)) w)
             | Dir => (Raise IsADirectoryError, w)
             end
    end.
Proof.
  intros Hstat. unfold unlink_if_exists. unfold bind at 1, exists_.
  rewrite stat_returns by done. unfold exists_at.
  destruct (fs w !! p) as [n|] eqn:E; [| done].
  rewrite unlink_run, E. by destruct n.
Qed.

(** What a successful removal of users leaves in store. *)
Lemma remove_sync_priority_stored (file_path : path) (gone : users_arg)
    (w w' : world) :
  no_faults w →
  remove_sync_priority file_path (Some gone) w = (Ok true, w') →
  no_faults w' ∧
  rules_before w' file_path
  = strip_users (users_of gone) (rules_before w file_path) ∧
  match stored_config w file_path with
  | None => w' = w
  | Some c =>
      match strip_users (users_of gone) (rules c) with
      | [] => fs w' !! syncpriority_path file_path = None
      | kept =>
          save_sync_priority file_path (with_rules kept c) w = (Ok (), w')
      end
  end.
Proof.
  intros Hnf. unfold remove_sync_priority, rules_before. cbv zeta.
  unfold bind at 1. rewrite load_sync_priority_spec by stat_ok.
  destruct (stored_config w file_path) as [c|] eqn:Hc.
  - intros [u Hu]%reported_true. cbn [rules with_rules] in Hu.
    destruct (strip_users (users_of gone) (rules c)) as [|r rs] eqn:E.
    + pose proof (unlink_if_exists_gone _ _ _ _ Hu) as Hgone.
      rewrite unlink_if_exists_run in Hu by stat_ok.
      assert (refused w' = refused w) as Hrf.
      { destruct (fs w !! _) as [[|]|]; rewrite ?Hnf in Hu; by simplify_eq. }
      split; [intros call; rewrite Hrf; apply Hnf |].
      split; [by rewrite stored_config_absent | exact Hgone].
    + split; [intros call; rewrite (save_keeps_refused _ _ _ _ _ Hu); apply Hnf |].
      split; [| by destruct u].
      rewrite (stored_config_after_save _ _ _ _ _ Hu (Hnf _)); [done |].
      cbn [rules with_rules]. rewrite <- E. apply strip_users_valid.
  - intros [= <-]. rewrite Hc. done.
Qed.

(** Property X7.  After a successful [remove_sync_priority] for given
    users, where no system call is refused, no remaining rule names one of
    them and no remaining rule is without users; unless a remaining rule
    holds the wildcard, the priority of a removed user is [NORMAL]. *)
Theorem remove_sync_priority_forgets (file_path : path) (gone : users_arg)
    (left : list SyncPriorityRule) (w w' : world) :
  no_faults w →
  remove_sync_priority file_path (Some gone) w = (Ok true, w') →
  list_sync_priorities file_path w' = (Ok left, w') →
  (∀ rule, rule ∈ left →
           users rule ≠ [] ∧ ∀ u, u ∈ users_of gone → u ∉ users rule) ∧
  (∀ u, u ∈ users_of gone →
        (∀ rule, rule ∈ left → "*" ∉ users rule) →
        get_sync_priority file_path u w' = (Ok NORMAL, w')).
Proof.
  intros Hnf Hrm Hleft.
  destruct (remove_sync_priority_stored _ _ _ _ Hnf Hrm) as (Hnf' & Hst & _).
  rewrite list_sync_priorities_spec in Hleft by stat_ok.
  injection Hleft as <-.
  split.
  - intros rule. rewrite Hst. intros (? & ? & _)%elem_of_strip_users. done.
  - intros u Hu Hstar. rewrite get_sync_priority_run by stat_ok.
    rewrite first_match_none; [done |].
    intros rule Hin [Hc|Hc]; [| by apply (Hstar rule)].
    rewrite Hst in Hin. apply elem_of_strip_users in Hin as (_ & Hno & _).
    by apply (Hno u).
Qed.

(** Property X8.  Where no system call is refused, repeating a
    successful [remove_sync_priority] succeeds again and changes nothing. *)
Theorem remove_sync_priority_idempotent (file_path : path)
    (gone : option users_arg) (w w' : world) :
  no_faults w →
  remove_sync_priority file_path gone w = (Ok true, w') →
  remove_sync_priority file_path gone w' = (Ok true, w').
Proof.
  intros Hnf Hrm. destruct gone as [gone|].
  - destruct (remove_sync_priority_stored _ _ _ _ Hnf Hrm) as (Hnf' & Hst & Hcase).
    unfold remove_sync_priority. cbv zeta.
    unfold bind at 1. rewrite load_sync_priority_spec by stat_ok.
    destruct (stored_config w file_path) as [c|] eqn:Hc.
    + destruct (strip_users (users_of gone) (rules c)) as [|r rs] eqn:E.
      * by rewrite stored_config_absent.
      * rewrite <- E in Hcase.
        erewrite stored_config_after_save; [| exact Hcase | apply Hnf |];
          [| cbn [rules with_rules]; apply strip_users_valid].
        cbn [rules with_rules]. rewrite strip_users_idemp, E.
        rewrite <- E.
        change (with_rules (strip_users (users_of gone) (rules c))
                  (with_rules (strip_users (users_of gone) (rules c)) c))
          with (with_rules (strip_users (users_of gone) (rules c)) c).
        apply save_sync_priority_spec in Hcase as Hw'.
        unfold try_except, bind at 1. rewrite save_sync_priority_run. cbv zeta.
        rewrite !Hnf'.
        assert (∀ q : path, q `prefix_of` parent (syncpriority_path file_path) →
                            fs w' !! q = Some Dir) as Hdirs.
        { intros q Hq. rewrite Hw'. cbn [fs with_fs].
          rewrite lookup_insert_ne.
          - by rewrite lookup_make_dirs, decide_True.
          - intros <-. revert Hq. apply not_prefix_of_parent.
            unfold syncpriority_path. by destruct (parent file_path). }
        rewrite no_file_among_dirs by done. rewrite make_dirs_id by done.
        assert (fs w' !! syncpriority_path file_path
                = Some (File (YamlText (model_dump
                     (with_rules (strip_users (users_of gone) (rules c)) c)))))
          as Hsp.
        { rewrite Hw'. cbn [fs with_fs]. apply lookup_insert_eq. }
        unfold is_dir_at. rewrite Hsp. rewrite insert_id by done.
        by rewrite with_fs_same.
    + subst w'. by rewrite Hc.
  - revert Hrm. unfold remove_sync_priority. cbv zeta.
    intros [u Hu]%reported_true.
    pose proof (unlink_if_exists_gone _ _ _ _ Hu) as Hgone.
    assert (stat_refused w' (syncpriority_path file_path) = false) as Hstat.
    { revert Hu. unfold unlink_if_exists. unfold bind at 1, exists_.
      rewrite stat_returns by stat_ok. unfold exists_at.
      destruct (fs w !! syncpriority_path file_path) as [n|]; cbn [ret].
      - intros Hu%unlink_keeps_refused.
        rewrite (stat_refused_same _ _ _ Hu). stat_ok.
      - unfold ret. intros Heq. simplify_eq. stat_ok. }
    unfold try_except, bind. by rewrite unlink_if_exists_run, Hgone.
Qed.

End RuleStoreMore.

(** ** Strings: [endswith] *)

Lemma string_app_cons (a : Ascii.ascii) (s t : string) :
  String a s +:+ t = String a (s +:+ t).
Proof. reflexivity. Qed.

Lemma string_app_assoc (s1 s2 s3 : string) :
  (s1 +:+ s2) +:+ s3 = s1 +:+ (s2 +:+ s3).
Proof.
  induction s1 as [|a s1 IH]; [done |].
  rewrite !string_app_cons. by rewrite IH.
Qed.

Lemma rev_app_app (s1 s2 acc : string) :
  String.rev_app (s1 +:+ s2) acc = String.rev_app s2 (String.rev_app s1 acc).
Proof.
  revert acc. induction s1 as [|a s1 IH]; intros acc; [done |].
  rewrite string_app_cons. cbn [String.rev_app]. apply IH.
Qed.

Lemma rev_app_acc (s acc : string) :
  String.rev_app s acc = String.rev_app s EmptyString +:+ acc.
Proof.
  revert acc. induction s as [|a s IH]; intros acc; [done |].
  cbn [String.rev_app]. rewrite (IH (String a acc)), (IH (String a EmptyString)).
  by rewrite string_app_assoc.
Qed.

Lemma string_prefix_app (s t : string) : String.prefix s (s +:+ t) = true.
Proof.
  induction s as [|a s IH]; [by destruct t |].
  rewrite string_app_cons. cbn [String.prefix].
  by destruct (Ascii.ascii_dec a a).
Qed.

Lemma endswith_app (s suf : string) : endswith (s +:+ suf) suf = true.
Proof.
  unfold endswith, String.rev. rewrite rev_app_app.
  rewrite (rev_app_acc suf (String.rev_app s EmptyString)).
  apply string_prefix_app.
Qed.

Section WatcherMore.
Context `{Platform}.

(** *** rule files are never propagated *)

Lemma should_ignore_sidecar (file_path : path) :
  _should_ignore (syncpriority_path file_path) = true.
Proof.
  unfold _should_ignore, syncpriority_path. rewrite name_snoc.
  by rewrite endswith_app.
Qed.

(** Property X9.  An event on a sidecar (a path made by
    [syncpriority_path]) is dropped by all four handlers: nothing is sent,
    handler and world stay as they were.  [on_moved] also drops a move whose
    destination is a sidecar. *)
Theorem sidecar_events_are_dropped (h : SyncPriorityHandler)
    (event : FileSystemEvent) (file_path : path) (w : world) :
  (src_path event = syncpriority_path file_path →
   on_created h event w = (Ok (h, []), w) ∧
   on_modified h event w = (Ok (h, []), w) ∧
   on_deleted h event w = (Ok (h, []), w) ∧
   on_moved h event w = (Ok (h, []), w)) ∧
  (dest_path event = syncpriority_path file_path →
   on_moved h event w = (Ok (h, []), w)).
Proof.
  unfold on_created, on_modified, on_deleted, on_moved. split.
  - intros ->. rewrite should_ignore_sidecar, orb_true_r. done.
  - intros ->. rewrite should_ignore_sidecar, orb_true_r. done.
Qed.

(** *** the handlers return, and leave the tree alone *)



End WatcherMore.

(** ** Dispatch *)

Section DispatchMore.
Context `{Platform}.

Lemma read_for_sync_run (file_path : path) (operation : SyncOperation) (w : world) :
  read_for_sync file_path operation w
  = if bool_decide (operation ∈ [CREATE; UPDATE]) && stat_refused w file_path
    then (Raise PermissionError, w)
    else match sync_content w file_path operation with
         | Some d =>
             if refused w (SysOpenRead file_path) then (Raise PermissionError, w)
             else (Ok (Some d, Some (sha256 d)), w)
         | None => (Ok (None, None), w)
         end.
Proof.
  unfold read_for_sync, sync_content. case_decide as Hop.
  2: { by rewrite bool_decide_eq_false_2. }
  rewrite bool_decide_eq_true_2 by done. cbn [andb].
  unfold bind at 1, exists_. rewrite stat_run.
  destruct (stat_refused w file_path) eqn:Hstat; [done |]. unfold exists_at.
  destruct (fs w !! file_path) as [[d|]|] eqn:E.
  - unfold bind at 1, is_file. rewrite stat_returns by done.
    unfold is_file_at. rewrite E.
    unfold bind. rewrite read_bytes_run, E. by case_refused.
  - unfold bind at 1, is_file. rewrite stat_returns by done.
    unfold is_file_at. by rewrite E.
  - done.
Qed.

Lemma send_instant_sync_run (target_user : string) (file_path relative_path : path)
    (operation : SyncOperation) (old_path : option pathname) (w : world) :
  send_instant_sync target_user file_path relative_path operation old_path w
  = match identity w with
    | None => (Ok None, w)
    | Some me =>
        if held_back w file_path operation then (Ok None, w)
        else
          let request := envelope w me file_path relative_path operation old_path in
          (Ok (transport w target_user request),
           with_outbox (outbox w ++ [(target_user, request)]) w)
    end.
Proof.
  unfold send_instant_sync, try_except. unfold bind at 1, load_client_email.
  destruct (identity w) as [me|]; [| done].
  unfold bind at 1. rewrite read_for_sync_run. unfold envelope, held_back.
  destruct (bool_decide (operation ∈ [CREATE; UPDATE]) && stat_refused w file_path);
    [done |]. cbn [orb].
  destruct (sync_content w file_path operation) as [d|] eqn:E.
  - rewrite bool_decide_eq_true_2 by eauto. cbn [andb].
    case_refused; [done |]. unfold bind at 1, now. unfold bind at 1, rpc_send_wait.
    cbn [fst snd fmap option_fmap option_map]. cbv zeta.
    by destruct (transport w _ _).
  - rewrite bool_decide_eq_false_2 by (by intros [? ?]). cbn [andb].
    unfold bind at 1, now. unfold bind at 1, rpc_send_wait.
    cbn [fst snd fmap option_fmap option_map]. cbv zeta.
    by destruct (transport w _ _).
Qed.

Lemma held_back_readable (w : world) (file_path : path)
    (operation : SyncOperation) :
  refused w (SysOpenRead file_path) = false →
  held_back w file_path operation = false.
Proof.
  intros Hread. unfold held_back.
  by rewrite (stat_refused_readable _ _ Hread), Hread, !andb_false_r.
Qed.

(** With the file readable nothing keeps the request back. *)
Lemma send_instant_sync_readable (target_user : string)
    (file_path relative_path : path) (operation : SyncOperation)
    (old_path : option pathname) (me : string) (w : world) :
  identity w = Some me →
  refused w (SysOpenRead file_path) = false →
  send_instant_sync target_user file_path relative_path operation old_path w
  = let request := envelope w me file_path relative_path operation old_path in
    (Ok (transport w target_user request),
     with_outbox (outbox w ++ [(target_user, request)]) w).
Proof.
  intros Hme Hread. rewrite send_instant_sync_run, Hme.
  by rewrite held_back_readable.
Qed.

Lemma carries_content (operation : SyncOperation) :
  operation ∈ [CREATE; UPDATE] ↔ operation = CREATE ∨ operation = UPDATE.
Proof. rewrite !elem_of_cons, elem_of_nil. tauto. Qed.

(** Property X11.  [send_instant_sync] returns [None] and sends nothing
    when the client cannot be loaded, or when the file of a create or update
    cannot be read.  Otherwise it sends exactly one request, to the target
    user, and returns what the transport answers.  The request carries the
    client as sender, the relative path, the operation and the old path;
    its content is the file's content for a create or update of a regular
    file and is absent for a delete or move; its checksum is the digest of
    the content, absent when the content is. *)
Theorem send_instant_sync_envelope (target_user : string)
    (file_path relative_path : path) (operation : SyncOperation)
    (old_path : option pathname) (w : world) :
  (identity w = None →
   send_instant_sync target_user file_path relative_path operation old_path w
   = (Ok None, w)) ∧
  (∀ d, operation = CREATE ∨ operation = UPDATE →
        fs w !! file_path = Some (File d) →
        refused w (SysOpenRead file_path) = true →
        send_instant_sync target_user file_path relative_path operation old_path w
        = (Ok None, w)) ∧
  (∀ me, identity w = Some me →
     refused w (SysOpenRead file_path) = false →
     ∃ request,
       send_instant_sync target_user file_path relative_path operation old_path w
       = (Ok (transport w target_user request),
          with_outbox (outbox w ++ [(target_user, request)]) w) ∧
       sender request = me ∧
       target_path request = relative_path ∧
       Models.operation request = operation ∧
       Models.old_path request = old_path ∧
       checksum request = sha256 <$> content request ∧
       (operation = DELETE ∨ operation = MOVE → content request = None) ∧
       (operation = CREATE ∨ operation = UPDATE →
        content request = match fs w !! file_path with
                          | Some (File d) => Some d
                          | _ => None
                          end)).
Proof.
  split; [| split].
  - rewrite send_instant_sync_run. by intros ->.
  - rewrite send_instant_sync_run.
    intros d Hop Hfile Hread. destruct (identity w); [| done].
    unfold held_back, sync_content.
    rewrite decide_True by (by apply carries_content).
    rewrite Hfile, Hread. rewrite (bool_decide_eq_true_2 (is_Some _)) by eauto.
    by rewrite orb_true_r.
  - intros me Hme Hread.
    rewrite (send_instant_sync_readable _ _ _ _ _ me) by done. cbv zeta.
    eexists. split; [reflexivity |]. cbn. unfold sync_content.
    repeat split; try done.
    + intros Hop. rewrite decide_False; [done |].
      rewrite carries_content. by destruct Hop as [-> | ->]; intros [? | ?].
    + intros Hop. by rewrite decide_True by (by apply carries_content).
Qed.

(** *** one request for each peer, whatever the others answer *)

Lemma fmap_fst_tagged {A} (f : string → A) (l : list string) :
  ((λ u, (u, f u)) <$> l).*1 = l.
Proof. induction l as [|x l IH]; [done |]. cbn. by rewrite IH. Qed.

Lemma with_outbox_same (w : world) : with_outbox (outbox w) w = w.
Proof. by destruct w. Qed.

(** Without a client, or with the request held back, every call returns
    [None] and nothing leaves. *)
Lemma send_to_each_quiet (h : SyncPriorityHandler) (file_path relative_path : path)
    (operation : SyncOperation) (old_path : option pathname)
    (w : world) (us : list string) :
  identity w = None ∨ held_back w file_path operation = true →
  send_to_each h file_path relative_path operation old_path us w
  = (Ok ((λ u, (u, None)) <$> filter (λ u, u ≠ client_email h) us), w).
Proof.
  intros Hquiet. induction us as [|u us IH]; [done |].
  cbn [send_to_each]. rewrite filter_cons.
  destruct (decide (u ≠ client_email h)) as [Hne|Heq]; [| apply IH].
  unfold bind at 1. rewrite send_instant_sync_run.
  assert (match identity w with
          | Some me =>
              if held_back w file_path operation then (Ok None, w)
              else
                let request :=
                  envelope w me file_path relative_path operation old_path in
                (Ok (transport w u request),
                 with_outbox (outbox w ++ [(u, request)]) w)
          | None => (Ok None, w)
          end = (Ok None, w)) as ->.
  { destruct Hquiet as [-> | Hheld]; [done |]. rewrite Hheld.
    by destruct (identity w). }
  unfold bind at 1. by rewrite IH.
Qed.

Lemma send_to_each_sending (h : SyncPriorityHandler) (file_path relative_path : path)
    (operation : SyncOperation) (old_path : option pathname) (me : string)
    (w : world) (us : list string) (o : list (string * SyncRequest)) :
  identity w = Some me →
  held_back w file_path operation = false →
  let request := envelope w me file_path relative_path operation old_path in
  let targets := filter (λ u, u ≠ client_email h) us in
  send_to_each h file_path relative_path operation old_path us (with_outbox o w)
  = (Ok ((λ u, (u, transport w u request)) <$> targets),
     with_outbox (o ++ ((λ u, (u, request)) <$> targets)) w).
Proof.
  intros Hme Hfree request targets. subst targets. revert o.
  induction us as [|u us IH]; intros o.
  - cbn. by rewrite app_nil_r.
  - cbn [send_to_each]. rewrite filter_cons.
    destruct (decide (u ≠ client_email h)) as [Hne|Heq]; [| apply IH].
    unfold bind at 1. rewrite send_instant_sync_run.
    cbn [identity with_outbox]. rewrite Hme.
    change (held_back (with_outbox o w) file_path operation)
      with (held_back w file_path operation). rewrite Hfree.
    cbv zeta. cbn [outbox with_outbox transport].
    change (envelope (with_outbox o w) me file_path relative_path operation old_path)
      with request.
    change (with_outbox (o ++ [(u, request)]) (with_outbox o w))
      with (with_outbox (o ++ [(u, request)]) w).
    unfold bind at 1. rewrite IH. cbn [fmap list_fmap].
    by rewrite <- app_assoc.
Qed.

(** What [_handle_sync_event] does on a path below the watch root: it
    calls [send_instant_sync] for the targets, in their order, and either
    one request leaves for each of them or none leaves at all. *)
Lemma handle_sync_event_outcome (h : SyncPriorityHandler) (file_path : path)
    (operation : SyncOperation) (old_path : option pathname) (w : world) :
  base_path h `prefix_of` file_path →
  ∃ calls sent,
    _handle_sync_event h file_path operation old_path w
    = (Ok calls, with_outbox (outbox w ++ sent) w) ∧
    calls.*1
    = (if stat_refused w (syncpriority_path file_path) then []
       else event_targets h operation (rules_before w file_path)) ∧
    (sent = [] ∨ sent.*1 = calls.*1) ∧
    (∀ me, identity w = Some me →
           held_back w file_path operation = false →
           sent = (λ u, (u, envelope w me file_path
                              (drop (length (base_path h)) file_path)
                              operation old_path)) <$> calls.*1).
Proof.
  intros Hunder. unfold _handle_sync_event, try_except, relative_to.
  rewrite decide_True by done. unfold bind at 1, ret at 1.
  unfold bind at 1. rewrite load_sync_priority_run.
  assert (∀ w0 : world, with_outbox (outbox w0 ++ []) w0 = w0) as Hsame.
  { intros w0. by rewrite app_nil_r, with_outbox_same. }
  destruct (stat_refused w (syncpriority_path file_path)).
  { exists [], []. rewrite Hsame. split; [done |]. split; [done |].
    split; [by left | done]. }
  unfold rules_before, event_targets.
  destruct (stored_config w file_path) as [config|].
  2: { exists [], []. rewrite Hsame. split; [done |]. split; [done |].
       split; [by left | done]. }
  destruct (instant_users_of operation (rules config)) as [|u0 us0] eqn:Hi.
  { exists [], []. rewrite Hsame. split; [done |]. split; [done |].
    split; [by left | done]. }
  rewrite <- Hi.
  set (us := elements (unique_users (instant_users_of operation (rules config)))).
  set (rel := drop (length (base_path h)) file_path).
  destruct (identity w) as [me|] eqn:Hme.
  - destruct (held_back w file_path operation) eqn:Hheld.
    + rewrite send_to_each_quiet by (by right).
      eexists _, []. rewrite Hsame. split; [done |].
      split; [by rewrite fmap_fst_tagged |]. split; [by left | done].
    + pose proof (send_to_each_sending h file_path rel operation old_path me
                    w us (outbox w) Hme Hheld) as Hrun.
      cbv zeta in Hrun. rewrite with_outbox_same in Hrun. rewrite Hrun.
      eexists _, _. split; [done |].
      rewrite !fmap_fst_tagged. split; [done |]. split; [by right |].
      by intros me' [= <-] _.
  - rewrite send_to_each_quiet by (by left).
    eexists _, []. rewrite Hsame. split; [done |].
    split; [by rewrite fmap_fst_tagged |]. split; [by left | done].
Qed.

Lemma elem_of_event_targets (h : SyncPriorityHandler) (operation : SyncOperation)
    (rs : list SyncPriorityRule) (u : string) :
  u ∈ event_targets h operation rs ↔
  (∃ rule, rule ∈ rs ∧ priority rule = INSTANT ∧ operation ∈ operations rule ∧
           u ∈ users rule) ∧
  u ≠ "*" ∧ u ≠ client_email h.
Proof.
  unfold event_targets.
  rewrite list_elem_of_filter, elem_of_elements, elem_of_unique_users,
    elem_of_instant_users_of.
  tauto.
Qed.

Lemma NoDup_event_targets (h : SyncPriorityHandler) (operation : SyncOperation)
    (rs : list SyncPriorityRule) :
  NoDup (event_targets h operation rs).
Proof. apply NoDup_filter, NoDup_elements. Qed.

(** Claim C1.  For an event on a path below the watch root,
    [_handle_sync_event] calls [send_instant_sync] once for each peer of
    this set and for nobody else: the users of every rule of the path's
    config whose priority is instant and whose operations contain the
    event's operation, without the wildcard ["*"] (dropped, not expanded)
    and without the client's own identity.  What leaves for the peers is
    what these calls hand to the transport: either one request for each
    peer of the set, in the order of the calls, or nothing at all; and it
    is one request for each, the request for this event, whenever the
    client loads and the file can be read.  When no config loads, or when
    that set is empty, no call is made and nothing leaves.  The tree is
    not touched. *)
Theorem handle_sync_event_targets (h : SyncPriorityHandler) (file_path : path)
    (operation : SyncOperation) (old_path : option pathname) (w : world) :
  base_path h `prefix_of` file_path →
  ∃ calls w' sent,
    _handle_sync_event h file_path operation old_path w = (Ok calls, w') ∧
    outbox w' = outbox w ++ sent ∧
    fs w' = fs w ∧
    NoDup calls.*1 ∧
    (∀ u, u ∈ calls.*1 ↔
          ∃ config, load_sync_priority file_path w = (Ok (Some config), w) ∧
                    needs_instant_sync config operation u ∧
                    u ≠ "*" ∧ u ≠ client_email h) ∧
    (sent = [] ∨ sent.*1 = calls.*1) ∧
    (∀ me, identity w = Some me →
           refused w (SysOpenRead file_path) = false →
           sent = (λ u, (u, envelope w me file_path
                              (drop (length (base_path h)) file_path)
                              operation old_path)) <$> calls.*1) ∧
    (load_sync_priority file_path w = (Ok None, w) → calls = [] ∧ sent = []) ∧
    ((∀ config u, load_sync_priority file_path w = (Ok (Some config), w) →
                  needs_instant_sync config operation u →
                  u = "*" ∨ u = client_email h) →
     calls = [] ∧ sent = []).
Proof.
  intros Hunder.
  destruct (handle_sync_event_outcome h file_path operation old_path w Hunder)
    as (calls & sent & Hrun & Hcalls & Hsent & Hexact).
  exists calls, (with_outbox (outbox w ++ sent) w), sent.
  split; [exact Hrun |]. split; [done |]. split; [done |].
  assert (∀ u, u ∈ calls.*1 ↔
               ∃ config, load_sync_priority file_path w = (Ok (Some config), w) ∧
                         needs_instant_sync config operation u ∧
                         u ≠ "*" ∧ u ≠ client_email h) as Hiff.
  { intros u. rewrite Hcalls, load_sync_priority_run.
    destruct (stat_refused w (syncpriority_path file_path)).
    { split; [by intros ?%elem_of_nil | by intros (? & [=] & _)]. }
    rewrite elem_of_event_targets. unfold rules_before, needs_instant_sync.
    destruct (stored_config w file_path) as [config|].
    - split.
      + intros (Hneed & Hstar & Hne). by exists config.
      + by intros (c' & [= <-] & Hneed & Hstar & Hne).
    - split.
      + by intros ((rule & ?%elem_of_nil & _) & _).
      + by intros (c' & [=] & _). }
  assert ((∀ u, u ∉ calls.*1) → calls = [] ∧ sent = []) as Hempty.
  { intros Hno. assert (calls = []) as ->.
    { destruct calls as [|[u r] calls]; [done |]. destruct (Hno u). left. }
    split; [done |]. destruct Hsent as [-> | Hs]; [done |].
    by apply fmap_nil_inv in Hs. }
  split.
  { rewrite Hcalls. destruct (stat_refused w _); [constructor |].
    apply NoDup_event_targets. }
  split; [exact Hiff |]. split; [exact Hsent |]. split.
  { intros me Hme Hread. apply (Hexact me Hme).
    by apply held_back_readable. }
  split.
  - intros Hnone. apply Hempty. intros u (c & Hc & _)%Hiff. congruence.
  - intros Hself. apply Hempty. intros u (c & Hc & Hneed & Hstar & Hne)%Hiff.
    by destruct (Hself c u Hc Hneed).
Qed.


(** *** a deletion clears the digest *)

(** Property X13.  [on_deleted] on a path that is not ignored returns
    and removes the path's digest from the handler, keeping every other
    digest.  The next modification of that path, if the file can be read
    again, is therefore dispatched, whatever its content. *)
Theorem on_deleted_forgets_digest (h : SyncPriorityHandler)
    (event : FileSystemEvent) (w : world) :
  _should_ignore (src_path event) = false →
  ∃ h1 sent w1,
    on_deleted h event w = (Ok (h1, sent), w1) ∧
    file_checksums h1 !! src_path event = None ∧
    (∀ q : path, q ≠ src_path event →
                 file_checksums h1 !! q = file_checksums h !! q) ∧
    ∀ (event' : FileSystemEvent) (w2 : world) (d : data),
      src_path event' = src_path event →
      is_directory event' = false →
      read_bytes (src_path event) w2 = (Ok d, w2) →
      let h2 := with_checksums
                  (<[src_path event := sha256 d]> (file_checksums h1)) h1 in
      on_modified h1 event' w2
      = (sent' <- _handle_sync_event h2 (src_path event) UPDATE None ;;
         ret (h2, sent')) w2.
Proof.
  intros Hign.
  destruct (handle_sync_event_returns h (src_path event) DELETE None w)
    as (sent & w1 & Hrun).
  exists (with_checksums (delete (src_path event) (file_checksums h)) h), sent, w1.
  split.
  { unfold on_deleted, bind. by rewrite Hign, Hrun. }
  cbn [file_checksums with_checksums].
  split; [apply lookup_delete_eq |].
  split; [intros q Hq; by apply lookup_delete_ne |].
  intros event' w2 d Hsrc Hdir Hread.
  set (h1 := with_checksums (delete (src_path event) (file_checksums h)) h).
  assert (_content_changed h1 (src_path event) w2
          = (Ok (with_checksums
                   (<[src_path event := sha256 d]> (file_checksums h1)) h1, true),
             w2)) as Hchanged.
  { unfold _content_changed, try_except, bind. rewrite Hread. cbv zeta.
    rewrite decide_True; [done |].
    subst h1. cbn [file_checksums with_checksums]. by rewrite lookup_delete_eq. }
  unfold on_modified. rewrite Hsrc, Hdir, Hign. cbn [orb].
  unfold bind at 1. by rewrite Hchanged.
Qed.

End DispatchMore.

(** ** Receiver *)

Section ReceiverMore.
Context `{Platform}.

(** *** update *)

Lemma handle_update_run (request : SyncRequest) (target_path : path) (w : world) :
  stat_refused w target_path = false →
  _handle_update request target_path w
  = match fs w !! target_path with
    | None =>
        respond false ("File not found: " +:+ path_str target_path)
          (Some "FILE_NOT_FOUND") w
    | Some n =>
        match content request with
        | None => respond true ("Updated: " +:+ path_str target_path) None w
        | Some c =>
            if refused w (SysOpenWrite target_path)
            then respond false ("Update failed: " +:+ exn_str PermissionError)
                   (Some "UPDATE_ERROR") w
            else match n with
                 | File _ =>
                     respond true ("Updated: " +:+ path_str target_path) None
                       (with_fs (<[target_path := File c]> (fs w)) w)
                 | Dir =>
                     respond false ("Update failed: " +:+ exn_str IsADirectoryError)
                       (Some "UPDATE_ERROR") w
                 end
        end
    end.
Proof.
  intros Hstat. unfold _handle_update, try_except, update_block.
  unfold bind at 1, exists_. rewrite stat_returns by done.
  unfold exists_at. cbv beta.
  destruct (fs w !! target_path) as [n|] eqn:E; cbn [negb]; [| done].
  destruct (content request) as [c|]; [| done].
  unfold bind at 1. rewrite write_bytes_run, E.
  case_refused; [done |]. by destruct n.
Qed.

(** Property X14.  Where no system call is refused, [_handle_update]
    answers FILE_NOT_FOUND for a missing target and creates nothing;
    overwrites a regular file with the request's content; succeeds without
    touching anything when the request has no content; and answers
    UPDATE_ERROR when the target is a directory. *)
Theorem handle_update_never_creates (request : SyncRequest) (target_path : path)
    (w : world) :
  no_faults w →
  (fs w !! target_path = None →
   ∃ resp,
     _handle_update request target_path w = (Ok resp, w) ∧
     success resp = false ∧ error_code resp = Some "FILE_NOT_FOUND") ∧
  (∀ old c, fs w !! target_path = Some (File old) → content request = Some c →
   ∃ resp,
     _handle_update request target_path w
     = (Ok resp, with_fs (<[target_path := File c]> (fs w)) w) ∧
     success resp = true) ∧
  (∀ n, fs w !! target_path = Some n → content request = None →
   ∃ resp,
     _handle_update request target_path w = (Ok resp, w) ∧ success resp = true) ∧
  (∀ c, fs w !! target_path = Some Dir → content request = Some c →
   ∃ resp,
     _handle_update request target_path w = (Ok resp, w) ∧
     success resp = false ∧ error_code resp = Some "UPDATE_ERROR").
Proof.
  intros Hnf. rewrite handle_update_run by stat_ok.
  split; [| split; [| split]].
  - intros ->. rewrite respond_run. by eexists.
  - intros old c -> ->. rewrite Hnf, respond_run. by eexists.
  - intros n -> ->. rewrite respond_run. by eexists.
  - intros c -> ->. rewrite Hnf, respond_run. by eexists.
Qed.

(** *** move *)

(** The body of [_handle_move]'s [try] block once an old path is given. *)
Lemma move_block_run (base_path : path) (request : SyncRequest)
    (target_path : path) (name : pathname) :
  old_path request = Some name →
  name ≠ Relative [] →
  move_block base_path request target_path
  = (found <- exists_ (joinpath base_path name) ;;
     if negb found then
       respond false
         ("Source file not found: " +:+ path_str (joinpath base_path name))
         (Some "SOURCE_NOT_FOUND")
     else
       mkdir_parents (parent target_path) ;;;
       move (joinpath base_path name) target_path ;;;
       respond true
         ("Moved: " +:+ path_str (joinpath base_path name) +:+ " -> "
          +:+ path_str target_path)
         None).
Proof.
  intros Hold Hname. unfold move_block. rewrite Hold.
  by destruct name as [[|c rel]|p].
Qed.


(** Renaming a path that has nothing below it. *)
Lemma rename_tree_leaf (src dst : path) (n : node) (m : gmap path node) :
  m !! src = Some n →
  (∀ k : path, src `prefix_of` k → is_Some (m !! k) → k = src) →
  rename_tree src dst m = <[dst := n]> (delete src m).
Proof.
  intros Hsrc Hleaf. unfold rename_tree.
  assert (filter (λ kv : path * node, src `prefix_of` kv.1) m = {[src := n]}) as ->.
  { apply map_eq. intros k. destruct (decide (k = src)) as [->|Hne].
    - rewrite lookup_singleton_eq. by apply map_lookup_filter_Some.
    - rewrite lookup_singleton_ne by done. apply map_lookup_filter_None.
      destruct (m !! k) as [x|] eqn:E; [right | by left].
      intros x' _ Hp. cbn in Hp. destruct Hne. apply Hleaf; [done | by eexists]. }
  rewrite map_to_list_singleton. cbn [fmap list_fmap fst snd].
  rewrite drop_all, app_nil_r. cbn [list_to_map foldr uncurry fst snd].
  rewrite insert_empty, <- insert_union_singleton_l. f_equal.
  unfold remove_tree. apply map_eq. intros k.
  destruct (decide (k = src)) as [->|Hne].
  - rewrite lookup_delete_eq. apply map_lookup_filter_None. right.
    intros x _ Hn. by apply Hn.
  - rewrite lookup_delete_ne by done.
    destruct (m !! k) as [x|] eqn:E.
    + apply map_lookup_filter_Some. split; [done |].
      cbn. intros Hp. destruct Hne. apply Hleaf; [done | by eexists].
    + apply map_lookup_filter_None. by left.
Qed.

(** Property X16.  Where no system call is refused, a move of a regular
    file to a target that does not exist, with no regular file among the
    target's ancestors, succeeds: the target's missing ancestors become
    directories, the target holds the file's content, and nothing is left
    at the source.  The source is the base path joined with the old path:
    below the base path for a relative old path, the old path itself for
    an absolute one, which is what the watcher sends. *)
Theorem handle_move_renames_file (base_path : path) (request : SyncRequest)
    (target_path : path) (name : pathname) (d : data) (w : world) :
  no_faults w →
  well_formed (fs w) →
  old_path request = Some name →
  name ≠ Relative [] →
  fs w !! joinpath base_path name = Some (File d) →
  fs w !! target_path = None →
  existsb (is_file_at (fs w)) (prefixes (parent target_path)) = false →
  ∃ resp w',
    _handle_move base_path request target_path w = (Ok resp, w') ∧
    success resp = true ∧
    fs w' = <[target_path := File d]>
              (delete (joinpath base_path name)
                 (make_dirs (parent target_path) (fs w))) ∧
    fs w' !! target_path = Some (File d) ∧
    fs w' !! joinpath base_path name = None.
Proof.
  intros Hnf [Hroot Hwf] Hold Hrel Hsrc Habs Hfree.
  set (src := joinpath base_path name) in *.
  set (m1 := make_dirs (parent target_path) (fs w)).
  assert (target_path ≠ []) as Hne by (intros ->; congruence).
  assert (src ≠ target_path) as Hdiff by (intros Heq; congruence).
  assert (¬ src `prefix_of` parent target_path) as Hnotabove.
  { intros Hp. pose proof (existsb_is_file_false _ _ _ Hfree Hp) as Hf.
    unfold is_file_at in Hf. by rewrite Hsrc in Hf. }
  assert (m1 !! src = Some (File d)) as Hsrc1.
  { subst m1. by rewrite lookup_make_dirs, decide_False. }
  assert (m1 !! target_path = None) as Habs1.
  { subst m1. rewrite lookup_make_dirs, decide_False; [done |].
    by apply not_prefix_of_parent. }
  assert (m1 !! parent target_path = Some Dir) as Hpar1.
  { subst m1. by rewrite lookup_make_dirs, decide_True. }
  assert (∀ k : path, src `prefix_of` k → is_Some (m1 !! k) → k = src) as Hleaf.
  { intros k Hp Hk. destruct (decide (k = src)) as [|Hks]; [done |]. exfalso.
    subst m1. rewrite lookup_make_dirs in Hk.
    destruct (decide (k `prefix_of` parent target_path)) as [Hkp|Hkp].
    - apply Hnotabove. by etrans.
    - pose proof (Hwf k src Hk Hp (not_eq_sym Hks)) as Hd. congruence. }
  exists {| success := true;
            message := "Moved: " +:+ path_str src +:+ " -> " +:+ path_str target_path;
            response_timestamp := clock w; error_code := None |}.
  exists (with_fs (<[target_path := File d]> (delete src m1)) w).
  split; [| split; [done | split; [done | split]]].
  - unfold _handle_move, try_except.
    rewrite (move_block_run _ _ _ name) by done. fold src.
    unfold bind at 1, exists_. rewrite stat_returns by stat_ok.
    unfold exists_at. cbv beta. rewrite Hsrc. cbn [negb].
    unfold bind at 1. rewrite mkdir_parents_run, Hnf, Hfree. fold m1.
    unfold bind at 1. unfold move. unfold bind at 1, os_call.
    cbn [refused with_fs]. rewrite Hnf. unfold bind at 1, get_world.
    cbv beta zeta. cbn [fs with_fs].
    assert (is_dir_at m1 target_path = false) as Hnd
      by (unfold is_dir_at; by rewrite Habs1).
    assert (is_dir_at m1 (parent target_path) = true) as Hpd
      by (unfold is_dir_at; by rewrite Hpar1).
    rewrite !Hnd. cbn [andb]. rewrite Hsrc1, Hpd.
    unfold put_fs. rewrite (rename_tree_leaf src target_path (File d)) by done.
    done.
  - cbn [fs with_fs]. apply lookup_insert_eq.
  - cbn [fs with_fs]. rewrite lookup_insert_ne by done. apply lookup_delete_eq.
Qed.


(** *** which permission decides *)

(** Property X17.  With a permission backend in place, create and
    update are decided by the write permission and delete and move by the
    admin permission, asked for the sender on the base path joined with
    the target.  When the backend says no, the answer is PERMISSION_DENIED
    and the world is untouched; when it says yes, the request is served. *)
Theorem permission_required_by_operation (base_path : path)
    (request : SyncRequest) (w : world)
    (check_permission : string → path → string → outcome bool) :
  permission_backend w = Some check_permission →
  let asked perm :=
    check_permission (sender request) (base_path ++ target_path request) perm in
  let denied :=
    ∃ resp, handle_sync_request base_path request w = (Ok resp, w) ∧
            success resp = false ∧ error_code resp = Some "PERMISSION_DENIED" in
  (operation request = CREATE ∨ operation request = UPDATE →
   (asked "write" = Ok false → denied) ∧
   (asked "write" = Ok true →
    handle_sync_request base_path request w = serve base_path request w)) ∧
  (operation request = DELETE ∨ operation request = MOVE →
   (asked "admin" = Ok false → denied) ∧
   (asked "admin" = Ok true →
    handle_sync_request base_path request w = serve base_path request w)).
Proof.
  intros Hbackend asked denied. subst asked denied. cbv beta.
  rewrite handle_sync_request_run. unfold permission_granted. rewrite Hbackend.
  split; intros [-> | ->]; cbn [required_permission];
    (split; [intros ->; rewrite respond_run; by eexists | by intros ->]).
Qed.

(** *** create, then update or delete *)

Lemma handle_delete_run (request : SyncRequest) (target_path : path) (w : world) :
  stat_refused w target_path = false →
  _handle_delete request target_path w
  = match fs w !! target_path with
    | None =>
        respond true ("File already deleted: " +:+ path_str target_path) None w
    | Some (File _) =>
        if refused w (SysUnlink target_path)
        then respond false ("Delete failed: " +:+ exn_str PermissionError)
               (Some "DELETE_ERROR") w
        else respond true ("Deleted: " +:+ path_str target_path) None
               (with_fs (delete target_path (fs w)) w)
    | Some Dir =>
        if refused w (SysRmtree target_path)
        then respond false ("Delete failed: " +:+ exn_str PermissionError)
               (Some "DELETE_ERROR") w
        else respond true ("Deleted: " +:+ path_str target_path) None
               (with_fs (remove_tree target_path (fs w)) w)
    end.
Proof.
  intros Hstat. unfold _handle_delete, try_except, delete_block.
  unfold bind at 1, exists_. rewrite stat_returns by done.
  unfold exists_at. cbv beta.
  destruct (fs w !! target_path) as [[d|]|] eqn:E; cbn [negb]; [| | done].
  - unfold bind at 1, is_file. rewrite stat_returns by done.
    unfold is_file_at. cbv beta. rewrite E.
    unfold bind at 1. rewrite unlink_run, E. by case_refused.
  - unfold bind at 1, is_file. rewrite stat_returns by done.
    unfold is_file_at. cbv beta. rewrite E.
    unfold bind at 1. unfold bind at 1, is_dir. rewrite stat_returns by done.
    unfold is_dir_at. cbv beta. rewrite E.
    rewrite rmtree_run, E. by case_refused.
Qed.

(** Property X18.  Where no system call is refused, after a successful
    create of a new file an update of it succeeds and leaves the update's
    content, and a delete of it succeeds and leaves the tree as the create
    had found it but for the directories it made; a second create after the
    delete gives the tree of the first. *)
Theorem create_then_update_or_delete (req_create req_update req_delete : SyncRequest)
    (target_path : path) (c : data) (w : world) :
  no_faults w →
  well_formed (fs w) →
  fs w !! target_path = None →
  existsb (is_file_at (fs w)) (prefixes (parent target_path)) = false →
  content req_update = Some c →
  ∃ r1 w1,
    _handle_create req_create target_path w = (Ok r1, w1) ∧ success r1 = true ∧
    (∃ r2 w2,
       _handle_update req_update target_path w1 = (Ok r2, w2) ∧ success r2 = true ∧
       fs w2 = <[target_path := File c]> (make_dirs (parent target_path) (fs w))) ∧
    (∃ r3 w3,
       _handle_delete req_delete target_path w1 = (Ok r3, w3) ∧ success r3 = true ∧
       fs w3 = make_dirs (parent target_path) (fs w) ∧
       ∃ r4 w4,
         _handle_create req_create target_path w3 = (Ok r4, w4) ∧ success r4 = true ∧
         fs w4 = fs w1).
Proof.
  intros Hnf [Hroot Hwf] Habs Hfree Hc.
  assert (target_path ≠ []) as Hne by (intros ->; congruence).
  destruct (create_block_fresh req_create target_path w Hnf Hne Habs Hfree)
    as (r1 & Hrun1 & Hok1 & _).
  set (m1 := make_dirs (parent target_path) (fs w)) in *.
  assert (m1 !! target_path = None) as Habs1.
  { subst m1. rewrite lookup_make_dirs, decide_False; [done |].
    by apply not_prefix_of_parent. }
  eexists r1, _. split; [exact Hrun1 |]. split; [exact Hok1 |]. split.
  - rewrite handle_update_run by stat_ok. cbn [fs with_fs refused].
    rewrite lookup_insert_eq, Hc, Hnf, respond_run.
    eexists _, _. split; [reflexivity |]. split; [done |].
    cbn [fs with_fs]. apply insert_insert_eq.
  - rewrite handle_delete_run by stat_ok. cbn [fs with_fs refused].
    rewrite lookup_insert_eq, Hnf, respond_run.
    eexists _, _. split; [reflexivity |]. split; [done |].
    cbn [fs with_fs]. rewrite delete_insert_eq, delete_id by done.
    split; [done |].
    assert (existsb (is_file_at m1) (prefixes (parent target_path)) = false)
      as Hfree1 by (by apply make_dirs_keeps_files_out).
    destruct (create_block_fresh req_create target_path (with_fs m1 w))
      as (r4 & Hrun4 & Hok4 & _); [intros call; apply Hnf | done | done | done |].
    eexists r4, _. split; [exact Hrun4 |]. split; [exact Hok4 |].
    cbn [fs with_fs]. f_equal. apply make_dirs_id.
    intros q Hq. subst m1. by rewrite lookup_make_dirs, decide_True.
Qed.

End ReceiverMore.

(** ** From one side to the other *)

Section EndToEnd.
Context `{Platform}.

(** *** from a rule to the dispatch *)


(** *** from the dispatch to the receiver's tree *)

Lemma sent_request (target_user : string) (file_path relative_path : path)
    (operation : SyncOperation) (old_path : option pathname)
    (o : outcome (option SyncResponse)) (request : SyncRequest) (w w' : world) :
  send_instant_sync target_user file_path relative_path operation old_path w
  = (o, w') →
  outbox w' = outbox w ++ [(target_user, request)] →
  ∃ me, identity w = Some me ∧
        request = envelope w me file_path relative_path operation old_path.
Proof.
  rewrite send_instant_sync_run.
  assert (outbox w ≠ outbox w ++ [(target_user, request)]) as Hgrow.
  { intros Heq. apply (f_equal length) in Heq. rewrite length_app in Heq.
    cbn in Heq. lia. }
  destruct (identity w) as [me|]; [| by intros [= _ <-]].
  destruct (held_back w file_path operation); [by intros [= _ <-] |]. cbv zeta.
  intros [= _ <-]. cbn [outbox with_outbox]. intros Heq.
  apply app_inv_head in Heq. injection Heq as <-. by exists me.
Qed.

(** Property X21.  The request [send_instant_sync] emits for an update
    (a create) of a regular file, handled by [handle_sync_request] at a peer
    that grants the permission and refuses no system call, succeeds and
    leaves the sender's content at the base path joined with the relative
    path, provided the peer has a regular file there (has nothing there and
    no regular file among its ancestors). *)
Theorem dispatched_content_arrives (target_user : string)
    (file_path relative_path : path) (operation : SyncOperation)
    (o : outcome (option SyncResponse)) (request : SyncRequest) (d : data)
    (ws ws' : world) (base_path : path) (wr : world) :
  send_instant_sync target_user file_path relative_path operation None ws
  = (o, ws') →
  outbox ws' = outbox ws ++ [(target_user, request)] →
  fs ws !! file_path = Some (File d) →
  no_faults wr →
  well_formed (fs wr) →
  permission_granted base_path request wr = true →
  (operation = UPDATE →
   ∀ old, fs wr !! (base_path ++ relative_path) = Some (File old) →
   ∃ resp wr',
     handle_sync_request base_path request wr = (Ok resp, wr') ∧
     success resp = true ∧
     fs wr' !! (base_path ++ relative_path) = Some (File d)) ∧
  (operation = CREATE →
   fs wr !! (base_path ++ relative_path) = None →
   existsb (is_file_at (fs wr)) (prefixes (parent (base_path ++ relative_path)))
   = false →
   ∃ resp wr',
     handle_sync_request base_path request wr = (Ok resp, wr') ∧
     success resp = true ∧
     fs wr' !! (base_path ++ relative_path) = Some (File d)).
Proof.
  intros Hsend Hout Hfile Hnf Hwf Hgranted.
  destruct (sent_request _ _ _ _ _ _ _ _ _ Hsend Hout) as (me & Hme & ->).
  rewrite handle_sync_request_run, Hgranted. unfold serve. cbv zeta.
  cbn [Models.operation envelope target_path]. split.
  - intros -> old Hold. rewrite handle_update_run by stat_ok. rewrite Hold.
    cbn [content envelope]. unfold sync_content.
    rewrite decide_True by (apply carries_content; by right).
    rewrite Hfile, Hnf, respond_run. eexists _, _. split; [reflexivity |].
    split; [done |]. cbn [fs with_fs]. apply lookup_insert_eq.
  - intros -> Habs Hfree.
    assert (base_path ++ relative_path ≠ []) as Hne.
    { intros Heq. destruct Hwf as [Hroot _]. rewrite Heq in Habs. congruence. }
    set (req := envelope ws me file_path relative_path CREATE None).
    destruct (create_block_fresh req (base_path ++ relative_path) wr
                Hnf Hne Habs Hfree) as (resp & Hrun & Hok & _).
    eexists resp, _. split; [exact Hrun |]. split; [exact Hok |].
    cbn [fs with_fs]. rewrite lookup_insert_eq. unfold written, req.
    cbn [content envelope]. unfold sync_content.
    rewrite decide_True by (apply carries_content; by left).
    by rewrite Hfile.
Qed.

(** *** the receiver reads neither checksum nor timestamp *)

(** Property X22.  [handle_sync_request] reads neither the checksum nor
    the timestamp of a request: another checksum or timestamp changes neither
    the response nor the tree. *)
Theorem checksum_is_not_checked (base_path : path) (request : SyncRequest)
    (t : datetime) (c : option string) (w : world) :
  handle_sync_request base_path (restamped request t c) w
  = handle_sync_request base_path request w.
Proof. reflexivity. Qed.

End EndToEnd.

(** ** Rule store: calls in sequence *)

Section RuleStoreRoundTrips.
Context `{Platform}.

(** *** rules that load name somebody *)

(** Property X23.  [list_sync_priorities] leaves the world as it was.
    It raises when the stat of the sidecar is refused, the existence check
    standing before the [try] of [load_sync_priority]; otherwise it returns,
    and every rule it returns names at least one user; the rules are those
    of the config that [load_sync_priority] returns, and none when it
    returns [None]. *)
Theorem listed_rules_name_users (file_path : path) (w : world) :
  (stat_refused w (syncpriority_path file_path) = true →
   list_sync_priorities file_path w = (Raise PermissionError, w)) ∧
  (stat_refused w (syncpriority_path file_path) = false →
   ∃ rs,
     list_sync_priorities file_path w = (Ok rs, w) ∧
     (∀ rule, rule ∈ rs → users rule ≠ []) ∧
     (∀ config, load_sync_priority file_path w = (Ok (Some config), w) →
                rs = rules config) ∧
     (load_sync_priority file_path w = (Ok None, w) → rs = [])).
Proof.
  rewrite list_sync_priorities_run, load_sync_priority_run.
  split; [by intros -> |]. intros ->.
  exists (rules_before w file_path). unfold rules_before.
  split; [done |]. split; [| split].
  - destruct (stored_config w file_path) as [c|] eqn:Hc.
    + intros rule Hin. pose proof (stored_config_valid _ _ _ Hc) as Hv.
      rewrite Forall_forall in Hv. by apply Hv.
    + by intros rule ?%elem_of_nil.
  - by intros config [= ->].
  - by intros [= ->].
Qed.

(** *** saving where a save has succeeded *)

Lemma sidecar_not_in_parent (file_path : path) :
  ¬ syncpriority_path file_path `prefix_of` parent (syncpriority_path file_path).
Proof.
  apply not_prefix_of_parent. unfold syncpriority_path.
  by destruct (parent file_path).
Qed.

Lemma save_again (file_path : path) (c c2 : SyncPriorityConfig) (w w' : world) :
  save_sync_priority file_path c w = (Ok (), w') →
  no_faults w' →
  save_sync_priority file_path c2 w'
  = (Ok (), with_fs (<[syncpriority_path file_path
                       := File (YamlText (model_dump c2))]> (fs w')) w').
Proof.
  intros Hsave Hnf. apply save_sync_priority_spec in Hsave as Hw'.
  rewrite save_sync_priority_run. cbv zeta. rewrite !Hnf.
  assert (∀ q : path, q `prefix_of` parent (syncpriority_path file_path) →
                      fs w' !! q = Some Dir) as Hdirs.
  { intros q Hq. rewrite Hw'. cbn [fs with_fs]. rewrite lookup_insert_ne.
    - by rewrite lookup_make_dirs, decide_True.
    - intros <-. revert Hq. apply sidecar_not_in_parent. }
  rewrite no_file_among_dirs by done. rewrite make_dirs_id by done.
  assert (fs w' !! syncpriority_path file_path
          = Some (File (YamlText (model_dump c)))) as Hsp.
  { rewrite Hw'. cbn [fs with_fs]. apply lookup_insert_eq. }
  unfold is_dir_at. by rewrite Hsp.
Qed.

Lemma set_sync_priority_run (file_path : path) (us : users_arg)
    (a : priority_arg) (ops : option (list operation_arg))
    (pr : SyncPriority) (os : list SyncOperation) (w : world) :
  parse_priority_arg a = Some pr →
  parse_operation_args ops = Some os →
  set_sync_priority file_path us a ops w
  = if stat_refused w (syncpriority_path file_path)
    then (Raise PermissionError, w)
    else if decide (users_of us = []) then (Raise ValidationError, w)
    else
      let base := match stored_config w file_path with
                  | Some c => c
                  | None => {| rules := []; created := clock w; updated := clock w |}
                  end in
      try_except
        (save_sync_priority file_path
           (with_rules (other_rules (users_of us) (rules base)
                        ++ [{| users := users_of us; priority := pr;
                               operations := os |}]) base) ;;; ret true)
        (λ _, ret false) w.
Proof.
  intros Hp Ho. unfold set_sync_priority. cbv zeta. rewrite Hp, Ho.
  unfold or_value_error. unfold bind at 1, ret at 1. unfold bind at 1, ret at 1.
  unfold bind at 1. rewrite load_sync_priority_run.
  destruct (stat_refused w _); [done |].
  destruct (stored_config w file_path) as [c|].
  - unfold bind at 1, ret at 1. unfold bind at 1, construct_rule.
    by destruct (decide (users_of us = [])).
  - unfold bind at 1, empty_config. unfold bind at 1, now. unfold bind at 1.
    cbn [ret]. unfold bind at 1, construct_rule.
    by destruct (decide (users_of us = [])).
Qed.

Lemma set_sync_priority_saved (file_path : path) (us : users_arg)
    (a : priority_arg) (ops : option (list operation_arg)) (w w' : world) :
  set_sync_priority file_path us a ops w = (Ok true, w') →
  ∃ pr os c,
    parse_priority_arg a = Some pr ∧ parse_operation_args ops = Some os ∧
    users_of us ≠ [] ∧
    save_sync_priority file_path c w = (Ok (), w').
Proof.
  intros Hset.
  destruct (parse_priority_arg a) as [pr|] eqn:Hp.
  2: { revert Hset. unfold set_sync_priority. cbv zeta. by rewrite Hp. }
  destruct (parse_operation_args ops) as [os|] eqn:Ho.
  2: { revert Hset. unfold set_sync_priority. cbv zeta. by rewrite Hp, Ho. }
  rewrite (set_sync_priority_run _ _ _ _ pr os) in Hset by done.
  destruct (stat_refused w _); [done |].
  destruct (decide (users_of us = [])) as [Hu|Hu]; [done |].
  cbv zeta in Hset. apply save_reported in Hset. by eexists pr, os, _.
Qed.

Lemma other_rules_app (us : list string) (rs rs' : list SyncPriorityRule) :
  other_rules us (rs ++ rs') = other_rules us rs ++ other_rules us rs'.
Proof. apply filter_app. Qed.

Lemma other_rules_same (us : list string) (r : SyncPriorityRule) :
  users r = us → other_rules us [r] = [].
Proof.
  intros <-. unfold other_rules. rewrite filter_cons, decide_False; [done |].
  intros Hn. by apply Hn.
Qed.

(** *** set_sync_priority twice *)

Lemma set_sync_priority_config (file_path : path) (us : users_arg)
    (a : priority_arg) (ops : option (list operation_arg)) (w w1 : world) :
  no_faults w →
  set_sync_priority file_path us a ops w = (Ok true, w1) →
  ∃ pr os c,
    parse_priority_arg a = Some pr ∧ parse_operation_args ops = Some os ∧
    users_of us ≠ [] ∧
    save_sync_priority file_path c w = (Ok (), w1) ∧
    stored_config w1 file_path = Some c ∧
    no_faults w1 ∧
    rules c = other_rules (users_of us) (rules_before w file_path)
              ++ [{| users := users_of us; priority := pr; operations := os |}].
Proof.
  intros Hnf Hset.
  destruct (set_sync_priority_saved _ _ _ _ _ _ Hset)
    as (pr & os & _ & Hp & Ho & Hu & _).
  rewrite (set_sync_priority_run _ _ _ _ pr os) in Hset by done.
  rewrite stat_refused_no_faults, decide_False in Hset by done.
  cbv zeta in Hset. apply save_reported in Hset.
  eexists pr, os, _. split; [done |]. split; [done |]. split; [done |].
  split; [exact Hset |].
  assert (Forall rule_valid
            (other_rules (users_of us) (rules_before w file_path)
             ++ [{| users := users_of us; priority := pr; operations := os |}]))
    as Hvalid.
  { apply Forall_app. split.
    - apply other_rules_valid. unfold rules_before.
      destruct (stored_config w file_path) as [c|] eqn:Hc; [| constructor].
      by eapply stored_config_valid.
    - by repeat constructor. }
  assert (rules_before w file_path
          = rules match stored_config w file_path with
                  | Some c => c
                  | None => {| rules := []; created := clock w; updated := clock w |}
                  end) as Hbase.
  { unfold rules_before. by destruct (stored_config w file_path). }
  split; [| split].
  - apply (stored_config_after_save _ _ _ _ _ Hset (Hnf _)).
    cbn [rules with_rules]. by rewrite <- Hbase.
  - intros call. rewrite (save_keeps_refused _ _ _ _ _ Hset). apply Hnf.
  - cbn [rules with_rules]. by rewrite <- Hbase.
Qed.

(** Property X24.  Where no system call is refused, repeating a
    successful [set_sync_priority] with the same arguments succeeds again
    and leaves the world exactly as the first call left it. *)
Theorem set_sync_priority_idempotent (file_path : path) (us : users_arg)
    (a : priority_arg) (ops : option (list operation_arg)) (w w1 : world) :
  no_faults w →
  set_sync_priority file_path us a ops w = (Ok true, w1) →
  set_sync_priority file_path us a ops w1 = (Ok true, w1).
Proof.
  intros Hnf Hset.
  destruct (set_sync_priority_config _ _ _ _ _ _ Hnf Hset)
    as (pr & os & c & Hp & Ho & Hu & Hsave & Hst & Hnf1 & Hrules).
  rewrite (set_sync_priority_run _ _ _ _ pr os) by done.
  rewrite stat_refused_no_faults, decide_False by done.
  cbv zeta. rewrite Hst. unfold try_except, bind at 1.
  rewrite (save_again _ _ _ _ _ Hsave Hnf1).
  assert (with_rules
            (other_rules (users_of us) (rules c)
             ++ [{| users := users_of us; priority := pr; operations := os |}]) c
          = c) as ->.
  { rewrite Hrules at 1. rewrite other_rules_app, other_rules_idemp.
    rewrite other_rules_same by done. rewrite app_nil_r, <- Hrules.
    by destruct c. }
  assert (fs w1 !! syncpriority_path file_path
          = Some (File (YamlText (model_dump c)))) as Hsp.
  { apply save_sync_priority_spec in Hsave as ->. cbn [fs with_fs].
    apply lookup_insert_eq. }
  rewrite insert_id by done. by rewrite with_fs_same.
Qed.

(** *** set_sync_priority, then remove_sync_priority *)

Lemma filter_all {A} (P : A → Prop) `{∀ x, Decision (P x)} (l : list A) :
  (∀ x, x ∈ l → P x) → filter P l = l.
Proof.
  induction l as [|x l IH]; [done |]. intros Hall.
  rewrite filter_cons, decide_True by (apply Hall; left).
  rewrite IH; [done |]. intros y Hy. apply Hall. by right.
Qed.

Lemma strip_users_disjoint (gone : list string) (rs : list SyncPriorityRule) :
  Forall rule_valid rs →
  (∀ rule u, rule ∈ rs → u ∈ gone → u ∉ users rule) →
  strip_users gone rs = rs.
Proof.
  induction rs as [|r rs IH]; [done |].
  intros [Hr Hrs]%Forall_cons Hdis. cbn [strip_users]. cbv zeta.
  rewrite filter_all.
  - destruct r as [[|u us] p o]; [done |]. cbn [users priority operations].
    rewrite IH; [done | done |]. intros rule v Hin. apply Hdis. by right.
  - intros u Hu Hg. apply (Hdis r u); [left | done | done].
Qed.

Lemma strip_users_app (gone : list string) (rs rs' : list SyncPriorityRule) :
  strip_users gone (rs ++ rs') = strip_users gone rs ++ strip_users gone rs'.
Proof.
  induction rs as [|r rs IH]; [done |]. cbn [app strip_users]. cbv zeta.
  destruct (filter _ (users r)); [done |]. by rewrite IH.
Qed.

Lemma filter_none {A} (P : A → Prop) `{∀ x, Decision (P x)} (l : list A) :
  (∀ x, x ∈ l → ¬ P x) → filter P l = [].
Proof.
  induction l as [|x l IH]; [done |]. intros Hall.
  rewrite filter_cons, decide_False by (apply Hall; left).
  apply IH. intros y Hy. apply Hall. by right.
Qed.

Lemma strip_users_own (us : list string) (pr : SyncPriority)
    (os : list SyncOperation) :
  strip_users us [{| users := us; priority := pr; operations := os |}] = [].
Proof.
  cbn [strip_users users]. cbv zeta.
  rewrite filter_none; [done |]. intros u Hu Hn. by apply Hn.
Qed.

Lemma other_rules_disjoint (us : list string) (rs : list SyncPriorityRule) :
  Forall rule_valid rs →
  (∀ rule u, rule ∈ rs → u ∈ us → u ∉ users rule) →
  other_rules us rs = rs.
Proof.
  intros Hvalid Hdis. unfold other_rules. apply filter_all.
  intros r Hr Hsame. rewrite Forall_forall in Hvalid.
  pose proof (Hvalid r Hr) as Hne. unfold rule_valid in Hne.
  destruct (users r) as [|u l] eqn:Hus; [done |].
  apply (Hdis r u Hr).
  - unfold same_users in Hsame.
    apply (elem_of_list_to_set (C := gset string)). rewrite <- Hsame.
    apply elem_of_list_to_set. left.
  - rewrite Hus. left.
Qed.

(** Property X25.  Where no system call is refused and no rule of the
    path names one of the given users, a successful [set_sync_priority] for
    these users followed by [remove_sync_priority] for them gives back the
    rules the path had; when it had none, the sidecar is gone again. *)
Theorem set_then_remove_restores (file_path : path) (us : users_arg)
    (a : priority_arg) (ops : option (list operation_arg))
    (old : list SyncPriorityRule) (w w1 : world) :
  no_faults w →
  list_sync_priorities file_path w = (Ok old, w) →
  (∀ rule u, rule ∈ old → u ∈ users_of us → u ∉ users rule) →
  set_sync_priority file_path us a ops w = (Ok true, w1) →
  ∃ w2,
    remove_sync_priority file_path (Some us) w1 = (Ok true, w2) ∧
    list_sync_priorities file_path w2 = (Ok old, w2) ∧
    (old = [] → fs w2 !! syncpriority_path file_path = None).
Proof.
  intros Hnf Hold Hdis Hset. rewrite list_sync_priorities_spec in Hold by stat_ok.
  injection Hold as <-.
  destruct (set_sync_priority_config _ _ _ _ _ _ Hnf Hset)
    as (pr & os & c & Hp & Ho & Hu & Hsave & Hst & Hnf1 & Hrules).
  assert (Forall rule_valid (rules_before w file_path)) as Hvalid.
  { unfold rules_before.
    destruct (stored_config w file_path) as [c0|] eqn:Hc; [| constructor].
    by eapply stored_config_valid. }
  rewrite other_rules_disjoint in Hrules by done.
  assert (strip_users (users_of us) (rules c) = rules_before w file_path) as Hstrip.
  { rewrite Hrules, strip_users_app, strip_users_own, app_nil_r.
    by apply strip_users_disjoint. }
  assert (fs w1 !! syncpriority_path file_path
          = Some (File (YamlText (model_dump c)))) as Hsp.
  { apply save_sync_priority_spec in Hsave as ->. cbn [fs with_fs].
    apply lookup_insert_eq. }
  unfold remove_sync_priority. cbv zeta. unfold bind at 1.
  rewrite load_sync_priority_spec by stat_ok. rewrite Hst.
  cbn [rules with_rules]. rewrite Hstrip.
  destruct (rules_before w file_path) as [|r rs] eqn:Hrs.
  - unfold try_except, bind at 1.
    rewrite unlink_if_exists_run by stat_ok. rewrite Hsp, Hnf1.
    eexists. split; [reflexivity |].
    assert (fs (with_fs (delete (syncpriority_path file_path) (fs w1)) w1)
              !! syncpriority_path file_path = None) as Hgone
      by (cbn [fs with_fs]; apply lookup_delete_eq).
    split; [| done]. rewrite list_sync_priorities_spec by stat_ok.
    unfold rules_before. by rewrite stored_config_absent.
  - set (c2 := with_rules (r :: rs) c).
    pose proof (save_again file_path c c2 w w1 Hsave Hnf1) as Hsave2.
    unfold try_except, bind at 1. rewrite Hsave2.
    eexists. split; [reflexivity |]. split; [| done].
    rewrite list_sync_priorities_spec by stat_ok.
    unfold rules_before.
    by rewrite (stored_config_after_save _ c2 _ _ _ Hsave2 (Hnf1 _)).
Qed.

(** *** remove_sync_priority succeeds *)

Lemma stored_config_file (w : world) (file_path : path) (c : SyncPriorityConfig) :
  stored_config w file_path = Some c →
  ∃ d, fs w !! syncpriority_path file_path = Some (File d).
Proof. unfold stored_config. repeat case_match; try done. by eexists. Qed.

(** Claim C5.  Where no system call is refused and the tree is well
    formed, [remove_sync_priority] with a user list succeeds on a loaded
    config and takes the listed identifiers out of every rule: a rule with
    users left stays, with just those users and its priority and
    operations; a rule with no user left is dropped; when no rule is left
    the sidecar is deleted; no other path is touched.  Without a user
    list it succeeds and deletes the sidecar, and nothing else, unless a
    directory stands in the sidecar's place.  (When nothing loads there is
    nothing to strip and the call returns [True].) *)
Theorem remove_sync_priority_rules (file_path : path) (w : world) :
  no_faults w →
  well_formed (fs w) →
  (fs w !! syncpriority_path file_path ≠ Some Dir →
   ∃ w',
     remove_sync_priority file_path None w = (Ok true, w') ∧
     fs w' = delete (syncpriority_path file_path) (fs w)) ∧
  (∀ gone config,
     load_sync_priority file_path w = (Ok (Some config), w) →
     let kept := omap (remaining_rule (users_of gone)) (rules config) in
     ∃ w',
       remove_sync_priority file_path (Some gone) w = (Ok true, w') ∧
       (∀ k : path, k ≠ syncpriority_path file_path → fs w' !! k = fs w !! k) ∧
       (kept ≠ [] →
        ∃ config', load_sync_priority file_path w' = (Ok (Some config'), w') ∧
                   rules config' = kept) ∧
       (kept = [] → fs w' !! syncpriority_path file_path = None)) ∧
  (∀ gone,
     load_sync_priority file_path w = (Ok None, w) →
     remove_sync_priority file_path (Some gone) w = (Ok true, w)).
Proof.
  intros Hnf Hwf. split; [| split].
  - intros Hnd. unfold remove_sync_priority. cbv zeta.
    unfold try_except, bind at 1. rewrite unlink_if_exists_run by stat_ok.
    destruct (fs w !! syncpriority_path file_path) as [[d|]|] eqn:E; [| done |].
    + rewrite Hnf. by eexists.
    + exists w. split; [done |]. by rewrite delete_id.
  - intros gone config Hload. cbv zeta. rewrite <- strip_users_omap.
    unfold remove_sync_priority. cbv zeta. unfold bind at 1. rewrite Hload.
    cbn [rules with_rules].
    rewrite load_sync_priority_spec in Hload by stat_ok.
    injection Hload as Hst.
    destruct (stored_config_file _ _ _ Hst) as [d Hd].
    destruct (strip_users (users_of gone) (rules config)) as [|r rs] eqn:E.
    + unfold try_except, bind at 1. rewrite unlink_if_exists_run by stat_ok.
      rewrite Hd, Hnf. eexists. split; [reflexivity |]. cbn [fs with_fs].
      split; [intros k Hk; by rewrite lookup_delete_ne |].
      split; [done |]. intros _. apply lookup_delete_eq.
    + set (c2 := with_rules (r :: rs) config).
      assert (save_sync_priority file_path c2 w
              = (Ok (), with_fs (<[syncpriority_path file_path
                                   := File (YamlText (model_dump c2))]> (fs w)) w))
        as Hsave.
      { rewrite save_sync_priority_run. cbv zeta. rewrite !Hnf.
        assert (∀ q : path, q `prefix_of` parent (syncpriority_path file_path) →
                            fs w !! q = Some Dir) as Hdirs.
        { intros q Hq. by apply (well_formed_ancestors _ (syncpriority_path file_path)). }
        rewrite no_file_among_dirs by done. rewrite make_dirs_id by done.
        unfold is_dir_at. by rewrite Hd. }
      unfold try_except, bind at 1. rewrite Hsave.
      eexists. split; [reflexivity |]. cbn [fs with_fs].
      split; [intros k Hk; by rewrite lookup_insert_ne |].
      split; [| done]. intros _. exists c2.
      rewrite load_sync_priority_spec by stat_ok.
      rewrite (stored_config_after_save _ c2 _ _ _ Hsave (Hnf _)); [done |].
      subst c2. cbn [rules with_rules]. rewrite <- E. apply strip_users_valid.
  - intros gone Hload. unfold remove_sync_priority. cbv zeta.
    unfold bind at 1. by rewrite Hload.
Qed.

End RuleStoreRoundTrips.

(** ** Receiver: what a response can be *)

Section ResponseCodes.
Context `{Platform}.

Lemma answers_respond_true (codes : list string) (msg : string) :
  answers codes (respond true msg None).
Proof. intros w resp w' [= <- <-]. by left. Qed.

Lemma answers_respond_false (codes : list string) (msg code : string) :
  code ∈ codes → answers codes (respond false msg (Some code)).
Proof. intros Hin w resp w' [= <- <-]. right. split; [done |]. by exists code. Qed.

Lemma answers_bind {A} (codes : list string) (m : M A) (k : A → M SyncResponse) :
  (∀ a, answers codes (k a)) → answers codes (bind m k).
Proof.
  intros Hk w resp w'. unfold bind. destruct (m w) as [[a|e] w1]; [| done].
  apply Hk.
Qed.

Lemma answers_try_except (codes : list string) (block : M SyncResponse)
    (handler : exn → M SyncResponse) :
  answers codes block → (∀ e, answers codes (handler e)) →
  answers codes (try_except block handler).
Proof.
  intros Hb Hh w resp w'. unfold try_except.
  destruct (block w) as [[r|e] w1] eqn:E.
  - intros [= <- <-]. by eapply Hb.
  - apply Hh.
Qed.

Lemma answers_serve (base_path : path) (request : SyncRequest) :
  answers (handler_codes (operation request)) (serve base_path request).
Proof.
  unfold serve. cbv zeta. destruct (operation request); cbn [handler_codes].
  - apply answers_try_except.
    + unfold create_block. apply answers_bind. intros _. apply answers_bind.
      intros [|].
      * apply answers_respond_false. repeat constructor.
      * apply answers_bind. intros _. apply answers_respond_true.
    + intros e. apply answers_respond_false. repeat constructor.
  - apply answers_try_except.
    + unfold update_block. apply answers_bind. intros [|]; cbn [negb].
      * apply answers_bind. intros _. apply answers_respond_true.
      * apply answers_respond_false. repeat constructor.
    + intros e. apply answers_respond_false. repeat constructor.
  - apply answers_try_except.
    + unfold delete_block. apply answers_bind. intros [|]; cbn [negb].
      * apply answers_bind. intros regular. apply answers_bind. intros _.
        apply answers_respond_true.
      * apply answers_respond_true.
    + intros e. apply answers_respond_false. repeat constructor.
  - apply answers_try_except.
    + unfold move_block. destruct (old_path request) as [[[|s rel]|p]|].
      * apply answers_respond_false. repeat constructor.
      * cbv zeta. apply answers_bind. intros [|]; cbn [negb].
        -- apply answers_bind. intros _. apply answers_bind. intros _.
           apply answers_respond_true.
        -- apply answers_respond_false. repeat constructor.
      * cbv zeta. apply answers_bind. intros [|]; cbn [negb].
        -- apply answers_bind. intros _. apply answers_bind. intros _.
           apply answers_respond_true.
        -- apply answers_respond_false. repeat constructor.
      * apply answers_respond_false. repeat constructor.
    + intros e. apply answers_respond_false. repeat constructor.
Qed.

(** Property X26.  [handle_sync_request] answers every request with a
    success that has no error code, or with a failure whose error code is
    PERMISSION_DENIED or one of the codes of the handler of the request's
    operation; SYNC_ERROR and UNKNOWN_OPERATION are never answered.  With
    PERMISSION_DENIED the world is as it was. *)
Theorem response_codes (base_path : path) (request : SyncRequest) (w : world) :
  ∃ resp w',
    handle_sync_request base_path request w = (Ok resp, w') ∧
    ((success resp = true ∧ error_code resp = None) ∨
     (success resp = false ∧
      ∃ code, error_code resp = Some code ∧
              code ∈ "PERMISSION_DENIED" :: handler_codes (operation request))) ∧
    (error_code resp = Some "PERMISSION_DENIED" → w' = w).
Proof.
  rewrite handle_sync_request_run.
  destruct (permission_granted base_path request w).
  - destruct (serve_returns base_path request w) as (resp & w' & Hrun & _).
    exists resp, w'. split; [done |].
    destruct (answers_serve base_path request w resp w' Hrun)
      as [Hok | (Hfalse & code & Hcode & Hin)].
    + split; [by left |]. destruct Hok as [_ ->]. done.
    + split.
      * right. split; [done |]. exists code. split; [done |]. by right.
      * rewrite Hcode. intros [= ->]. exfalso.
        apply list_elem_of_In in Hin.
        destruct (operation request); cbn in Hin; intuition discriminate.
  - rewrite respond_run. eexists _, w. split; [done |]. split; [| done].
    right. split; [done |]. eexists. split; [done |]. left.
Qed.

(** Property X27.  A create is not undone when it fails half
    way.  When the directories can be made but the write of the new file
    (the touch, for a request without content) is refused, the answer is
    CREATE_ERROR, the file is not there, and the directories made for it
    stay. *)
Theorem handle_create_leaves_directories (request : SyncRequest)
    (target_path : path) (w : world) :
  refused w (SysMkdir (parent target_path)) = false →
  existsb (is_file_at (fs w)) (prefixes (parent target_path)) = false →
  fs w !! target_path = None →
  target_path ≠ [] →
  (match content request with
   | Some _ => refused w (SysOpenWrite target_path)
   | None => refused w (SysTouch target_path)
   end) = true →
  ∃ resp w',
    _handle_create request target_path w = (Ok resp, w') ∧
    success resp = false ∧ error_code resp = Some "CREATE_ERROR" ∧
    fs w' = make_dirs (parent target_path) (fs w) ∧
    fs w' !! target_path = None ∧
    ∀ q : path, q `prefix_of` parent target_path → fs w' !! q = Some Dir.
Proof.
  intros Hmk Hfree Habs Hne Href.
  unfold _handle_create, try_except, create_block.
  unfold bind at 1. rewrite mkdir_parents_run, Hmk, Hfree.
  assert (make_dirs (parent target_path) (fs w) !! target_path = None) as Hstill.
  { rewrite lookup_make_dirs, decide_False; [done |].
    by apply not_prefix_of_parent. }
  assert (∀ q : path, q `prefix_of` parent target_path →
                      make_dirs (parent target_path) (fs w) !! q = Some Dir)
    as Hdirs.
  { intros q Hq. by rewrite lookup_make_dirs, decide_True. }
  unfold bind at 1, exists_. rewrite stat_run.
  destruct (stat_refused _ target_path).
  { rewrite respond_run. by eexists _, _. }
  unfold exists_at. cbn [fs with_fs]. rewrite Hstill.
  unfold bind at 1.
  destruct (content request) as [c|].
  - rewrite write_bytes_run. cbn [refused with_fs]. rewrite Href.
    rewrite respond_run. eexists _, _. split; [reflexivity |].
    split; [done |]. split; [done |]. cbn [fs with_fs]. split; [done |].
    split; [done |]. intros q Hq. by rewrite lookup_make_dirs, decide_True.
  - rewrite touch_run. cbn [refused with_fs]. rewrite Href.
    rewrite respond_run. eexists _, _. split; [reflexivity |].
    split; [done |]. split; [done |]. cbn [fs with_fs]. split; [done |].
    split; [done |]. intros q Hq. by rewrite lookup_make_dirs, decide_True.
Qed.

End ResponseCodes.

(** * The theorems at work on concrete worlds *)

Import Demo.
#[local] Existing Instance Demo.platform.

Lemma quiet_world_no_faults (m : gmap path node) : no_faults (quiet_world m).
Proof. intros c. reflexivity. Defined.

(** The dispatcher on /home/notes.txt: the rule names peer-b, the wildcard and
    the client itself; one call is made, to peer-b, and one request leaves,
    for peer-b. *)
Lemma handle_sync_event_targets_witness :
  base_path watcher `prefix_of` notes ∧
  ∃ calls w' sent,
    _handle_sync_event watcher notes UPDATE None (quiet_world home_tree)
    = (Ok calls, w') ∧
    outbox w' = outbox (quiet_world home_tree) ++ sent ∧
    calls.*1 = ["peer-b"] ∧
    sent = [("peer-b", notes_update)].
Proof.
  assert (base_path watcher `prefix_of` notes) as Hunder
    by (exists ["notes.txt"]; reflexivity).
  split; [exact Hunder |].
  destruct (handle_sync_event_targets watcher notes UPDATE None
              (quiet_world home_tree) Hunder)
    as (calls & w' & sent & Hrun & Hout & _ & _ & _ & _ & Hexact & _).
  assert (_handle_sync_event watcher notes UPDATE None (quiet_world home_tree)
          = (Ok [("peer-b", None)], after_dispatch)) as Hcalls
    by (vm_compute; reflexivity).
  assert (calls = [("peer-b", None)]) as Hc by congruence.
  exists calls, w', sent. split; [exact Hrun |]. split; [exact Hout |].
  split; [by rewrite Hc |].
  rewrite (Hexact "me@example.com" eq_refl eq_refl), Hc. reflexivity.
Defined.

Example dispatch_to_peer_b :
  (_handle_sync_event watcher notes UPDATE None (quiet_world home_tree)).1
  = Ok [("peer-b", None)].
Proof. vm_compute. reflexivity. Qed.

Example no_dispatch_for_delete :
  (_handle_sync_event watcher notes DELETE None (quiet_world home_tree)).1 = Ok [].
Proof. vm_compute. reflexivity. Qed.

(** An upsert: a rule for peer-c is added next to the rule of the notes. *)


(** Removal: removing the only concrete peers of the notes' rule leaves
    the wildcard; removing everything deletes the sidecar. *)
Lemma remove_sync_priority_rules_witness :
  no_faults (quiet_world home_tree) ∧
  well_formed (fs (quiet_world home_tree)) ∧
  fs (quiet_world home_tree) !! syncpriority_path notes ≠ Some Dir ∧
  load_sync_priority notes (quiet_world home_tree)
  = (Ok (Some notes_config), quiet_world home_tree) ∧
  (∃ w',
     remove_sync_priority notes None (quiet_world home_tree) = (Ok true, w') ∧
     fs w' = delete (syncpriority_path notes) (fs (quiet_world home_tree))) ∧
  (∃ w',
     remove_sync_priority notes (Some (UserList ["peer-b"; "me@example.com"]))
       (quiet_world home_tree) = (Ok true, w') ∧
     (∀ k : path, k ≠ syncpriority_path notes →
                  fs w' !! k = fs (quiet_world home_tree) !! k) ∧
     ∃ config', load_sync_priority notes w' = (Ok (Some config'), w') ∧
                rules config' = [wildcard_rule]).
Proof.
  assert (well_formed (fs (quiet_world home_tree))) as Hwf
    by (apply well_formed_check_sound; vm_compute; reflexivity).
  assert (fs (quiet_world home_tree) !! syncpriority_path notes ≠ Some Dir)
    as Hfile by (vm_compute; discriminate).
  assert (load_sync_priority notes (quiet_world home_tree)
          = (Ok (Some notes_config), quiet_world home_tree)) as Hload
    by (vm_compute; reflexivity).
  assert (omap (remaining_rule (users_of (UserList ["peer-b"; "me@example.com"])))
            (rules notes_config) = [wildcard_rule]) as Hkept
    by (vm_compute; reflexivity).
  destruct (remove_sync_priority_rules notes (quiet_world home_tree)
              (quiet_world_no_faults home_tree) Hwf) as (Hall & Hsome & _).
  split; [apply quiet_world_no_faults |]. split; [exact Hwf |].
  split; [exact Hfile |]. split; [exact Hload |]. split; [exact (Hall Hfile) |].
  destruct (Hsome (UserList ["peer-b"; "me@example.com"]) notes_config Hload)
    as (w' & Hrun & Hframe & Hkeep & _).
  exists w'. split; [exact Hrun |]. split; [exact Hframe |].
  rewrite Hkept in Hkeep. apply Hkeep. discriminate.
Defined.

Example remove_some_users :
  (bind (remove_sync_priority notes (Some (UserList ["peer-b"; "me@example.com"])))
        (λ ok, bind (list_sync_priorities notes) (λ rs, ret (ok, rs)))
        (quiet_world home_tree)).1
  = Ok (true, [{| users := ["*"]; priority := INSTANT;
                  operations := [CREATE; UPDATE] |}]).
Proof. vm_compute. reflexivity. Qed.

Example remove_last_user_deletes_sidecar :
  fs (remove_sync_priority notes
        (Some (UserList ["peer-b"; "*"; "me@example.com"]))
        (quiet_world home_tree)).2 !! syncpriority_path notes = None.
Proof. vm_compute. reflexivity. Qed.

(** Save then load, on the config of the notes. *)

Lemma save_then_load_witness :
  Forall rule_valid (rules notes_config) ∧
  refused (quiet_world home_tree)
    (SysOpenRead (syncpriority_path ["home"; "shared"; "plan.md"])) = false ∧
  save_sync_priority ["home"; "shared"; "plan.md"] notes_config
    (quiet_world home_tree) = (Ok (), after_save) ∧
  ∃ config',
    load_sync_priority ["home"; "shared"; "plan.md"] after_save
    = (Ok (Some config'), after_save) ∧
    rules config' = rules notes_config.
Proof.
  assert (Forall rule_valid (rules notes_config)) as Hvalid
    by (repeat constructor; discriminate).
  assert (save_sync_priority ["home"; "shared"; "plan.md"] notes_config
            (quiet_world home_tree) = (Ok (), after_save)) as Hsave
    by (vm_compute; reflexivity).
  split; [exact Hvalid |]. split; [reflexivity |]. split; [exact Hsave |].
  exact (save_then_load ["home"; "shared"; "plan.md"] notes_config
           (quiet_world home_tree) after_save Hvalid eq_refl Hsave).
Defined.

(** Duplicates: two notifications for the unchanged notes, and one for a
    file that is gone. *)
Lemma on_modified_suppresses_duplicates_witness :
  (read_bytes notes (quiet_world home_tree)
   = (Ok (Bytes [x68; x69]), quiet_world home_tree) ∧
   ∃ h1 sent1 w1,
     on_modified watcher modified_notes (quiet_world home_tree)
     = (Ok (h1, sent1), w1) ∧
     on_modified h1 modified_notes w1 = (Ok (h1, []), w1)) ∧
  (read_bytes ["home"; "gone.txt"] (quiet_world home_tree)
   = (Raise FileNotFoundError, quiet_world home_tree) ∧
   _content_changed watcher ["home"; "gone.txt"] (quiet_world home_tree)
   = (Ok (watcher, true), quiet_world home_tree) ∧
   on_modified watcher modified_missing (quiet_world home_tree)
   = (sent <- _handle_sync_event watcher ["home"; "gone.txt"] UPDATE None ;;
      ret (watcher, sent)) (quiet_world home_tree)).
Proof.
  destruct on_modified_suppresses_duplicates as (_ & Hdup & Hunreadable).
  assert (read_bytes notes (quiet_world home_tree)
          = (Ok (Bytes [x68; x69]), quiet_world home_tree)) as Hread
    by (vm_compute; reflexivity).
  assert (read_bytes ["home"; "gone.txt"] (quiet_world home_tree)
          = (Raise FileNotFoundError, quiet_world home_tree)) as Hgone
    by (vm_compute; reflexivity).
  split.
  - split; [exact Hread |].
    exact (Hdup watcher modified_notes (quiet_world home_tree) _ Hread).
  - split; [exact Hgone |].
    exact (Hunreadable watcher modified_missing (quiet_world home_tree)
             FileNotFoundError eq_refl eq_refl Hgone).
Defined.

Example second_notification_is_dropped :
  (bind (on_modified watcher modified_notes)
        (λ first, bind (on_modified first.1 modified_notes)
                       (λ second, ret (first.2, second.2)))
        (quiet_world home_tree)).1
  = Ok ([("peer-b", None)], []).
Proof. vm_compute. reflexivity. Qed.

(** Create: a create below /home succeeds once; below the regular file
    /home/a it cannot. *)
Lemma handle_create_new_file_only_witness :
  no_faults (quiet_world home_tree) ∧
  well_formed (fs (quiet_world home_tree)) ∧
  fs (quiet_world home_tree) !! ["home"; "inbox"; "new.txt"] = None ∧
  existsb (is_file_at (fs (quiet_world home_tree)))
    (prefixes (parent ["home"; "inbox"; "new.txt"])) = false ∧
  ∃ resp w',
    _handle_create (create_request ["inbox"; "new.txt"])
      ["home"; "inbox"; "new.txt"] (quiet_world home_tree) = (Ok resp, w') ∧
    success resp = true ∧
    fs w' !! ["home"; "inbox"; "new.txt"]
    = Some (File (written (create_request ["inbox"; "new.txt"]))) ∧
    (∀ q : path, q `prefix_of` parent ["home"; "inbox"; "new.txt"] →
                 fs w' !! q = Some Dir) ∧
    (∀ k : path, k ≠ ["home"; "inbox"; "new.txt"] →
                 ¬ k `prefix_of` parent ["home"; "inbox"; "new.txt"] →
                 fs w' !! k = fs (quiet_world home_tree) !! k) ∧
    ∀ request',
      ∃ resp',
        _handle_create request' ["home"; "inbox"; "new.txt"] w' = (Ok resp', w') ∧
        success resp' = false ∧ error_code resp' = Some "FILE_EXISTS".
Proof.
  assert (well_formed (fs (quiet_world home_tree))) as Hwf
    by (apply well_formed_check_sound; vm_compute; reflexivity).
  assert (fs (quiet_world home_tree) !! ["home"; "inbox"; "new.txt"] = None)
    as Habs by (vm_compute; reflexivity).
  assert (existsb (is_file_at (fs (quiet_world home_tree)))
            (prefixes (parent ["home"; "inbox"; "new.txt"])) = false)
    as Hfree by (vm_compute; reflexivity).
  split; [apply quiet_world_no_faults |]. split; [exact Hwf |].
  split; [exact Habs |]. split; [exact Hfree |].
  exact (proj1 (proj2 (handle_create_new_file_only
                         (create_request ["inbox"; "new.txt"])
                         ["home"; "inbox"; "new.txt"] (quiet_world home_tree)
                         (quiet_world_no_faults home_tree) Hwf))
           Habs Hfree).
Defined.

(** The sentence of the specification fails where an ancestor of the
    target is a regular file: /home/a/b.txt does not exist, and the create
    is answered with CREATE_ERROR. *)
Lemma create_below_a_file_fails : ¬ create_succeeds_when_absent.
Proof.
  intros Hclaim.
  destruct (Hclaim Demo.platform (create_request ["a"; "b.txt"])
              ["home"; "a"; "b.txt"] (quiet_world blocked_tree))
    as (resp & w' & Hrun & Hok).
  - apply quiet_world_no_faults.
  - apply well_formed_check_sound. vm_compute. reflexivity.
  - vm_compute. reflexivity.
  - vm_compute in Hrun. injection Hrun as <- _. discriminate Hok.
Qed.

Example create_below_a_file :
  (handle_sync_request ["home"] (create_request ["a"; "b.txt"])
     (quiet_world blocked_tree)).1
  = Ok {| success := false; message := "Create failed: File exists";
          response_timestamp := midnight; error_code := Some "CREATE_ERROR" |}.
Proof. vm_compute. reflexivity. Qed.


Example delete_a_directory :
  fs (handle_sync_request [] (delete_request ["home"]) (quiet_world home_tree)).2
  = {[ [] := Dir ]}.
Proof. vm_compute. reflexivity. Qed.

(** A request in a world without a permission backend. *)
Lemma permission_check_fails_closed_witness :
  permission_check_raises ["home"] (create_request ["new.txt"])
    (no_backend_world home_tree) ∧
  validate_sync_permissions "peer-b" ["new.txt"] CREATE ["home"]
    (no_backend_world home_tree) = (Ok false, no_backend_world home_tree) ∧
  ∃ resp,
    handle_sync_request ["home"] (create_request ["new.txt"])
      (no_backend_world home_tree) = (Ok resp, no_backend_world home_tree) ∧
    success resp = false ∧
    error_code resp = Some "PERMISSION_DENIED".
Proof.
  assert (permission_check_raises ["home"] (create_request ["new.txt"])
            (no_backend_world home_tree)) as Hraises by (simpl; exact I).
  split; [exact Hraises |].
  exact (permission_check_fails_closed ["home"] (create_request ["new.txt"])
           (no_backend_world home_tree) Hraises).
Defined.

(** The sentence of the specification about permission failures does not
    hold: without a backend the answer is PERMISSION_DENIED, not
    SYNC_ERROR. *)
Lemma permission_failure_is_denied : ¬ permission_failure_is_sync_error.
Proof.
  intros Hclaim.
  destruct (Hclaim Demo.platform ["home"] (create_request ["new.txt"])
              (no_backend_world home_tree) I)
    as (resp & w' & Hrun & _ & Hcode).
  vm_compute in Hrun. injection Hrun as <- _. discriminate Hcode.
Qed.

Example denied_without_backend :
  (handle_sync_request ["home"] (create_request ["new.txt"])
     (no_backend_world home_tree)).1
  = Ok {| success := false;
          message := "Permission denied for peer-b to create new.txt";
          response_timestamp := midnight;
          error_code := Some "PERMISSION_DENIED" |}.
Proof. vm_compute. reflexivity. Qed.

(** A refused unlink is answered with DELETE_ERROR. *)

Example refused_unlink :
  handle_sync_request ["home"] (delete_request ["notes.txt"]) locked_world
  = (Ok {| success := false; message := "Delete failed: Permission denied";
           response_timestamp := midnight;
           error_code := Some "DELETE_ERROR" |}, locked_world).
Proof. vm_compute. reflexivity. Qed.

(** A delete where the operating system refuses the unlink. *)
Lemma handle_sync_request_always_responds_witness :
  validate_sync_permissions "peer-b" ["notes.txt"] DELETE ["home"] locked_world
  = (Ok true, locked_world) ∧
  operation_block ["home"] (delete_request ["notes.txt"]) locked_world
  = (Raise PermissionError, locked_world) ∧
  ∃ resp,
    handle_sync_request ["home"] (delete_request ["notes.txt"]) locked_world
    = (Ok resp, locked_world) ∧
    success resp = false ∧ error_code resp = Some "DELETE_ERROR".
Proof.
  assert (validate_sync_permissions "peer-b" ["notes.txt"] DELETE ["home"]
            locked_world = (Ok true, locked_world)) as Hallowed
    by (vm_compute; reflexivity).
  assert (operation_block ["home"] (delete_request ["notes.txt"]) locked_world
          = (Raise PermissionError, locked_world)) as Hblock
    by (vm_compute; reflexivity).
  split; [exact Hallowed |]. split; [exact Hblock |].
  destruct (handle_sync_request_always_responds ["home"]
              (delete_request ["notes.txt"]) locked_world)
    as (resp & w' & Hrun & _ & Hraise).
  destruct (Hraise PermissionError locked_world Hallowed Hblock)
    as (-> & Hfalse & Hcode).
  exists resp. split; [exact Hrun |]. split; [exact Hfalse | exact Hcode].
Defined.



Example missing_sidecar_raises :
  (get_sync_priority ["home"; "other.txt"] "peer-b"
     (unreachable_world home_tree)).1
  = Raise PermissionError.
Proof. vm_compute. reflexivity. Qed.

Example no_sidecar_is_normal :
  (get_sync_priority ["home"; "other.txt"] "peer-b" (quiet_world home_tree)).1
  = Ok NORMAL.
Proof. vm_compute. reflexivity. Qed.

(** The change detector's filter on names. *)
Example ignores_sidecars :
  _should_ignore ["home"; "notes.txt.syncpriority.yaml"] = true.
Proof. vm_compute. reflexivity. Qed.

Example ignores_dotfiles_and_temporaries :
  map _should_ignore [["home"; ".git"]; ["home"; "a.tmp"]; ["home"; "b.c.swp"];
                      ["home"; "db.lock"]]
  = [true; true; true; true].
Proof. vm_compute. reflexivity. Qed.

Example keeps_ordinary_names :
  map _should_ignore [notes; ["home"; "tmp"]; ["home"; "archive.tmp.gz"];
                      ["home"; "lock."]]
  = [false; false; false; false].
Proof. vm_compute. reflexivity. Qed.

(** Moves at the receiver. *)
Example move_without_old_path :
  (handle_sync_request ["home"] (move_request None ["docs"; "n.txt"])
     (quiet_world home_tree)).1
  = Ok {| success := false; message := "Old path required for move operation";
          response_timestamp := midnight;
          error_code := Some "MISSING_OLD_PATH" |}.
Proof. vm_compute. reflexivity. Qed.

Example move_a_file :
  let w' := (handle_sync_request ["home"]
               (move_request (Some (Relative ["notes.txt"])) ["docs"; "n.txt"])
               (quiet_world home_tree)).2 in
  fs w' !! notes = None ∧
  fs w' !! ["home"; "docs"] = Some Dir ∧
  fs w' !! ["home"; "docs"; "n.txt"] = Some (File (Bytes [x68; x69])).
Proof. vm_compute. repeat split; reflexivity. Qed.

Example move_a_missing_source :
  option_map error_code
    (match (handle_sync_request ["home"]
              (move_request (Some (Relative ["gone.txt"])) ["docs"; "n.txt"])
              (quiet_world home_tree)).1 with
     | Ok resp => Some resp
     | Raise _ => None
     end)
  = Some (Some "SOURCE_NOT_FOUND").
Proof. vm_compute. reflexivity. Qed.

(** ** Further runs *)

(** A sidecar whose only rule has no users does not load; a sidecar that
    cannot be reached makes the call raise. *)
Lemma load_sync_priority_contained_witness :
  validate_rule (YMap [("users", YSeq []); ("priority", YStr "instant")]) = None ∧
  stat_refused (quiet_world empty_users_tree) (syncpriority_path notes) = false ∧
  stat_refused (unreachable_world home_tree) (syncpriority_path notes) = true ∧
  load_sync_priority notes (quiet_world empty_users_tree)
  = (Ok None, quiet_world empty_users_tree) ∧
  load_sync_priority notes (unreachable_world home_tree)
  = (Raise PermissionError, unreachable_world home_tree).
Proof.
  assert (validate_rule (YMap [("users", YSeq []); ("priority", YStr "instant")])
          = None) as Hrule by (vm_compute; reflexivity).
  split; [exact Hrule |]. split; [reflexivity |]. split; [reflexivity |]. split.
  - destruct (proj2 (load_sync_priority_contained notes
                       (quiet_world empty_users_tree)) eq_refl)
      as (result & Hrun & _ & _ & _ & _ & Hinvalid).
    rewrite (Hinvalid _ _ _ eq_refl eq_refl (list_elem_of_here _ _) Hrule) in Hrun.
    exact Hrun.
  - exact (proj1 (load_sync_priority_contained notes
                    (unreachable_world home_tree)) eq_refl).
Defined.

(** A rule needs users and a priority of the enum. *)
Lemma validate_rule_constraints_witness :
  validate_rule (YMap [("users", YSeq (YStr <$> ["peer-b"]));
                       ("priority", YStr (priority_value INSTANT))])
  = Some {| users := ["peer-b"]; priority := INSTANT;
            operations := all_operations |} ∧
  validate_rule (YMap [("users", YSeq [YStr "peer-b"]);
                       ("priority", YStr "urgent")]) = None.
Proof.
  destruct validate_rule_constraints as (Hgood & _ & _ & _ & Hpriority & _).
  split.
  - apply Hgood. discriminate.
  - apply (Hpriority _ "urgent"); [reflexivity | discriminate | discriminate].
Defined.

(** What set_sync_priority raises on the notes. *)
Lemma set_sync_priority_raises_witness :
  set_sync_priority notes (UserList ["peer-c"]) (PriorityStr "urgent") None
    (quiet_world home_tree) = (Raise ValueError, quiet_world home_tree) ∧
  set_sync_priority notes (UserList []) (PriorityStr "instant") None
    (quiet_world home_tree) = (Raise ValidationError, quiet_world home_tree) ∧
  set_sync_priority notes (UserList ["peer-c"]) (PriorityStr "instant") None
    (unreachable_world home_tree)
  = (Raise PermissionError, unreachable_world home_tree).
Proof.
  destruct (set_sync_priority_raises notes (UserList ["peer-c"])
              (PriorityStr "urgent") None (quiet_world home_tree))
    as (Hpriority & _).
  destruct (set_sync_priority_raises notes (UserList [])
              (PriorityStr "instant") None (quiet_world home_tree))
    as (_ & _ & Husers & _).
  destruct (set_sync_priority_raises notes (UserList ["peer-c"])
              (PriorityStr "instant") None (unreachable_world home_tree))
    as (_ & _ & _ & Hstat).
  split; [| split].
  - apply Hpriority. reflexivity.
  - apply Husers; [by eexists | by eexists | reflexivity].
  - apply Hstat; [by eexists | by eexists | reflexivity].
Defined.


(** The rules of the notes after a rule for peer-c is added. *)
Lemma set_sync_priority_keeps_distinct_witness :
  no_faults (quiet_world home_tree) ∧
  list_sync_priorities notes (quiet_world home_tree)
  = (Ok [notes_rule], quiet_world home_tree) ∧
  set_sync_priority notes (UserList ["peer-c"]) (PriorityStr "instant") None
    (quiet_world home_tree) = (Ok true, after_first_set) ∧
  list_sync_priorities notes after_first_set
  = (Ok [notes_rule; peer_c_rule], after_first_set) ∧
  distinct_user_sets [notes_rule] ∧
  distinct_user_sets [notes_rule; peer_c_rule].
Proof.
  assert (list_sync_priorities notes (quiet_world home_tree)
          = (Ok [notes_rule], quiet_world home_tree)) as Hold
    by (vm_compute; reflexivity).
  assert (set_sync_priority notes (UserList ["peer-c"]) (PriorityStr "instant") None
            (quiet_world home_tree) = (Ok true, after_first_set)) as Hset
    by (vm_compute; reflexivity).
  assert (list_sync_priorities notes after_first_set
          = (Ok [notes_rule; peer_c_rule], after_first_set)) as Hnew
    by (vm_compute; reflexivity).
  assert (distinct_user_sets [notes_rule]) as Hd by apply NoDup_singleton.
  split; [apply quiet_world_no_faults |]. split; [exact Hold |].
  split; [exact Hset |]. split; [exact Hnew |]. split; [exact Hd |].
  exact (set_sync_priority_keeps_distinct notes (UserList ["peer-c"])
           (PriorityStr "instant") None [notes_rule] [notes_rule; peer_c_rule]
           (quiet_world home_tree) after_first_set
           (quiet_world_no_faults home_tree) Hold Hset Hnew Hd).
Defined.

(** What the same call touches: the sidecar, and nothing else of the tree. *)
Lemma set_sync_priority_frame_witness :
  set_sync_priority notes (UserList ["peer-c"]) (PriorityStr "instant") None
    (quiet_world home_tree) = (Ok true, after_first_set) ∧
  (∃ doc, fs after_first_set !! syncpriority_path notes
          = Some (File (YamlText doc))) ∧
  fs after_first_set !! notes = fs (quiet_world home_tree) !! notes ∧
  outbox after_first_set = outbox (quiet_world home_tree).
Proof.
  assert (set_sync_priority notes (UserList ["peer-c"]) (PriorityStr "instant") None
            (quiet_world home_tree) = (Ok true, after_first_set)) as Hset
    by (vm_compute; reflexivity).
  split; [exact Hset |].
  destruct (set_sync_priority_frame notes (UserList ["peer-c"])
              (PriorityStr "instant") None (quiet_world home_tree)
              after_first_set Hset) as (Hdoc & _ & Hrest & Hout).
  split; [exact Hdoc |]. split; [| exact Hout].
  apply Hrest.
  - discriminate.
  - intros [k Hk]. discriminate Hk.
Defined.

(** peer-b and the client are removed from the rule of the notes. *)
Lemma remove_sync_priority_forgets_witness :
  no_faults (quiet_world home_tree) ∧
  remove_sync_priority notes (Some (UserList ["peer-b"; "me@example.com"]))
    (quiet_world home_tree) = (Ok true, after_remove) ∧
  list_sync_priorities notes after_remove
  = (Ok [{| users := ["*"]; priority := INSTANT; operations := [CREATE; UPDATE] |}],
     after_remove) ∧
  ∀ rule,
    rule ∈ [{| users := ["*"]; priority := INSTANT;
               operations := [CREATE; UPDATE] |}] →
    users rule ≠ [] ∧
    ∀ u, u ∈ users_of (UserList ["peer-b"; "me@example.com"]) → u ∉ users rule.
Proof.
  assert (remove_sync_priority notes (Some (UserList ["peer-b"; "me@example.com"]))
            (quiet_world home_tree) = (Ok true, after_remove)) as Hrm
    by (vm_compute; reflexivity).
  assert (list_sync_priorities notes after_remove
          = (Ok [{| users := ["*"]; priority := INSTANT;
                    operations := [CREATE; UPDATE] |}], after_remove)) as Hleft
    by (vm_compute; reflexivity).
  split; [apply quiet_world_no_faults |]. split; [exact Hrm |].
  split; [exact Hleft |].
  exact (proj1 (remove_sync_priority_forgets notes
                  (UserList ["peer-b"; "me@example.com"]) _
                  (quiet_world home_tree) after_remove
                  (quiet_world_no_faults home_tree) Hrm Hleft)).
Defined.

(** The same removal a second time. *)
Lemma remove_sync_priority_idempotent_witness :
  no_faults (quiet_world home_tree) ∧
  remove_sync_priority notes (Some (UserList ["peer-b"; "me@example.com"]))
    (quiet_world home_tree) = (Ok true, after_remove) ∧
  remove_sync_priority notes (Some (UserList ["peer-b"; "me@example.com"]))
    after_remove = (Ok true, after_remove).
Proof.
  assert (remove_sync_priority notes (Some (UserList ["peer-b"; "me@example.com"]))
            (quiet_world home_tree) = (Ok true, after_remove)) as Hrm
    by (vm_compute; reflexivity).
  split; [apply quiet_world_no_faults |]. split; [exact Hrm |].
  exact (remove_sync_priority_idempotent notes
           (Some (UserList ["peer-b"; "me@example.com"]))
           (quiet_world home_tree) after_remove
           (quiet_world_no_faults home_tree) Hrm).
Defined.

(** A change of the notes' sidecar is not propagated. *)
Lemma sidecar_events_are_dropped_witness :
  src_path sidecar_event = syncpriority_path notes ∧
  on_created watcher sidecar_event (quiet_world home_tree)
  = (Ok (watcher, []), quiet_world home_tree) ∧
  on_modified watcher sidecar_event (quiet_world home_tree)
  = (Ok (watcher, []), quiet_world home_tree) ∧
  on_deleted watcher sidecar_event (quiet_world home_tree)
  = (Ok (watcher, []), quiet_world home_tree) ∧
  on_moved watcher sidecar_event (quiet_world home_tree)
  = (Ok (watcher, []), quiet_world home_tree).
Proof.
  split; [reflexivity |].
  exact (proj1 (sidecar_events_are_dropped watcher sidecar_event notes
                  (quiet_world home_tree)) eq_refl).
Defined.

(** The request for an update of the notes. *)
Lemma send_instant_sync_envelope_witness :
  identity (quiet_world home_tree) = Some "me@example.com" ∧
  refused (quiet_world home_tree) (SysOpenRead notes) = false ∧
  ∃ request,
    send_instant_sync "peer-b" notes ["notes.txt"] UPDATE None
      (quiet_world home_tree)
    = (Ok None, with_outbox [("peer-b", request)] (quiet_world home_tree)) ∧
    sender request = "me@example.com" ∧
    target_path request = ["notes.txt"] ∧
    content request = Some (Bytes [x68; x69]) ∧
    checksum request = Some "hi".
Proof.
  split; [reflexivity |]. split; [reflexivity |].
  destruct (send_instant_sync_envelope "peer-b" notes ["notes.txt"] UPDATE None
              (quiet_world home_tree)) as (_ & _ & Hsent).
  destruct (Hsent "me@example.com" eq_refl eq_refl)
    as (request & Hrun & Hme & Hpath & _ & _ & Hsum & _ & Hcontent).
  exists request. split; [exact Hrun |]. split; [exact Hme |].
  split; [exact Hpath |].
  assert (content request = Some (Bytes [x68; x69])) as Hc
    by (rewrite Hcontent; [vm_compute; reflexivity | by right]).
  split; [exact Hc |]. rewrite Hsum, Hc. reflexivity.
Defined.


(** The notes are deleted: their digest is forgotten. *)
Lemma on_deleted_forgets_digest_witness :
  _should_ignore (src_path modified_notes) = false ∧
  ∃ h1 sent w1,
    on_deleted watcher modified_notes (quiet_world home_tree) = (Ok (h1, sent), w1) ∧
    file_checksums h1 !! notes = None.
Proof.
  assert (_should_ignore (src_path modified_notes) = false) as Hkept
    by (vm_compute; reflexivity).
  split; [exact Hkept |].
  destruct (on_deleted_forgets_digest watcher modified_notes (quiet_world home_tree)
              Hkept) as (h1 & sent & w1 & Hrun & Hgone & _).
  exists h1, sent, w1. split; [exact Hrun | exact Hgone].
Defined.

(** An update of a file that is not there. *)
Lemma handle_update_never_creates_witness :
  no_faults (quiet_world home_tree) ∧
  fs (quiet_world home_tree) !! ["home"; "gone.txt"] = None ∧
  ∃ resp,
    _handle_update (update_request ["gone.txt"] (Bytes [x68])) ["home"; "gone.txt"]
      (quiet_world home_tree) = (Ok resp, quiet_world home_tree) ∧
    success resp = false ∧ error_code resp = Some "FILE_NOT_FOUND".
Proof.
  split; [apply quiet_world_no_faults |]. split; [reflexivity |].
  exact (proj1 (handle_update_never_creates
                  (update_request ["gone.txt"] (Bytes [x68])) ["home"; "gone.txt"]
                  (quiet_world home_tree) (quiet_world_no_faults home_tree))
           eq_refl).
Defined.


(** The notes are moved to /home/archive/notes.txt, on a request as the
    watcher sends it: the source is the absolute old path, whatever the
    base path. *)
Lemma handle_move_renames_file_witness :
  no_faults (quiet_world home_tree) ∧
  well_formed (fs (quiet_world home_tree)) ∧
  old_path watcher_move_request = Some (Absolute ["home"; "notes.txt"]) ∧
  fs (quiet_world home_tree) !! ["home"; "notes.txt"]
  = Some (File (Bytes [x68; x69])) ∧
  fs (quiet_world home_tree) !! ["home"; "archive"; "notes.txt"] = None ∧
  existsb (is_file_at (fs (quiet_world home_tree)))
    (prefixes (parent ["home"; "archive"; "notes.txt"])) = false ∧
  ∃ resp w',
    _handle_move ["home"] watcher_move_request
      ["home"; "archive"; "notes.txt"] (quiet_world home_tree) = (Ok resp, w') ∧
    success resp = true ∧
    fs w' !! ["home"; "archive"; "notes.txt"] = Some (File (Bytes [x68; x69])) ∧
    fs w' !! ["home"; "notes.txt"] = None.
Proof.
  assert (well_formed (fs (quiet_world home_tree))) as Hwf
    by (apply well_formed_check_sound; vm_compute; reflexivity).
  assert (fs (quiet_world home_tree)
            !! joinpath ["home"] (Absolute ["home"; "notes.txt"])
          = Some (File (Bytes [x68; x69]))) as Hsrc by (vm_compute; reflexivity).
  assert (fs (quiet_world home_tree) !! ["home"; "archive"; "notes.txt"] = None)
    as Habs by (vm_compute; reflexivity).
  assert (existsb (is_file_at (fs (quiet_world home_tree)))
            (prefixes (parent ["home"; "archive"; "notes.txt"])) = false)
    as Hfree by (vm_compute; reflexivity).
  split; [apply quiet_world_no_faults |]. split; [exact Hwf |].
  split; [reflexivity |]. split; [exact Hsrc |]. split; [exact Habs |].
  split; [exact Hfree |].
  destruct (handle_move_renames_file ["home"] watcher_move_request
              ["home"; "archive"; "notes.txt"] (Absolute ["home"; "notes.txt"])
              (Bytes [x68; x69])
              (quiet_world home_tree) (quiet_world_no_faults home_tree) Hwf
              eq_refl ltac:(discriminate) Hsrc Habs Hfree)
    as (resp & w' & Hrun & Hok & _ & Hnew & Hold).
  exists resp, w'. split; [exact Hrun |]. split; [exact Hok |].
  split; [exact Hnew | exact Hold].
Defined.

(** A backend that grants write and nothing else: a create is served, a
    delete is denied. *)
Lemma permission_required_by_operation_witness :
  permission_backend (writers_world home_tree)
  = Some (λ _ _ permission, Ok (bool_decide (permission = "write"))) ∧
  handle_sync_request ["home"] (create_request ["new.txt"]) (writers_world home_tree)
  = serve ["home"] (create_request ["new.txt"]) (writers_world home_tree) ∧
  ∃ resp,
    handle_sync_request ["home"] (delete_request ["notes.txt"])
      (writers_world home_tree) = (Ok resp, writers_world home_tree) ∧
    success resp = false ∧ error_code resp = Some "PERMISSION_DENIED".
Proof.
  split; [reflexivity |]. split.
  - apply (proj1 (permission_required_by_operation ["home"]
                    (create_request ["new.txt"]) (writers_world home_tree)
                    _ eq_refl)).
    + left. reflexivity.
    + reflexivity.
  - apply (proj2 (permission_required_by_operation ["home"]
                    (delete_request ["notes.txt"]) (writers_world home_tree)
                    _ eq_refl)).
    + left. reflexivity.
    + reflexivity.
Defined.

(** /home/inbox/new.txt is created, then updated or deleted. *)
Lemma create_then_update_or_delete_witness :
  no_faults (quiet_world home_tree) ∧
  well_formed (fs (quiet_world home_tree)) ∧
  fs (quiet_world home_tree) !! ["home"; "inbox"; "new.txt"] = None ∧
  existsb (is_file_at (fs (quiet_world home_tree)))
    (prefixes (parent ["home"; "inbox"; "new.txt"])) = false ∧
  content (update_request ["inbox"; "new.txt"] (Bytes [x68; x69]))
  = Some (Bytes [x68; x69]) ∧
  ∃ r1 w1,
    _handle_create (create_request ["inbox"; "new.txt"])
      ["home"; "inbox"; "new.txt"] (quiet_world home_tree) = (Ok r1, w1) ∧
    success r1 = true ∧
    (∃ r2 w2,
       _handle_update (update_request ["inbox"; "new.txt"] (Bytes [x68; x69]))
         ["home"; "inbox"; "new.txt"] w1 = (Ok r2, w2) ∧
       success r2 = true) ∧
    (∃ r3 w3,
       _handle_delete (delete_request ["inbox"; "new.txt"])
         ["home"; "inbox"; "new.txt"] w1 = (Ok r3, w3) ∧
       success r3 = true).
Proof.
  assert (well_formed (fs (quiet_world home_tree))) as Hwf
    by (apply well_formed_check_sound; vm_compute; reflexivity).
  assert (fs (quiet_world home_tree) !! ["home"; "inbox"; "new.txt"] = None)
    as Habs by (vm_compute; reflexivity).
  assert (existsb (is_file_at (fs (quiet_world home_tree)))
            (prefixes (parent ["home"; "inbox"; "new.txt"])) = false)
    as Hfree by (vm_compute; reflexivity).
  split; [apply quiet_world_no_faults |]. split; [exact Hwf |].
  split; [exact Habs |]. split; [exact Hfree |]. split; [reflexivity |].
  destruct (create_then_update_or_delete (create_request ["inbox"; "new.txt"])
              (update_request ["inbox"; "new.txt"] (Bytes [x68; x69]))
              (delete_request ["inbox"; "new.txt"])
              ["home"; "inbox"; "new.txt"] (Bytes [x68; x69])
              (quiet_world home_tree) (quiet_world_no_faults home_tree) Hwf
              Habs Hfree eq_refl)
    as (r1 & w1 & Hrun & Hok & (r2 & w2 & Hrun2 & Hok2 & _)
        & (r3 & w3 & Hrun3 & Hok3 & _)).
  exists r1, w1. split; [exact Hrun |]. split; [exact Hok |]. split.
  - exists r2, w2. split; [exact Hrun2 | exact Hok2].
  - exists r3, w3. split; [exact Hrun3 | exact Hok3].
Defined.


(** The update of the notes, handled at a peer that holds an older copy. *)
Lemma dispatched_content_arrives_witness :
  outbox (send_instant_sync "peer-b" notes ["notes.txt"] UPDATE None
            (quiet_world home_tree)).2
  = outbox (quiet_world home_tree) ++ [("peer-b", notes_update)] ∧
  fs (quiet_world home_tree) !! notes = Some (File (Bytes [x68; x69])) ∧
  no_faults (quiet_world peer_tree) ∧
  well_formed (fs (quiet_world peer_tree)) ∧
  permission_granted ["peer"] notes_update (quiet_world peer_tree) = true ∧
  fs (quiet_world peer_tree) !! (["peer"] ++ ["notes.txt"])
  = Some (File (Bytes [x6f; x6c; x64])) ∧
  ∃ resp wr',
    handle_sync_request ["peer"] notes_update (quiet_world peer_tree)
    = (Ok resp, wr') ∧
    success resp = true ∧
    fs wr' !! (["peer"] ++ ["notes.txt"]) = Some (File (Bytes [x68; x69])).
Proof.
  assert (outbox (send_instant_sync "peer-b" notes ["notes.txt"] UPDATE None
                    (quiet_world home_tree)).2
          = outbox (quiet_world home_tree) ++ [("peer-b", notes_update)]) as Hout
    by (vm_compute; reflexivity).
  assert (fs (quiet_world home_tree) !! notes = Some (File (Bytes [x68; x69])))
    as Hfile by (vm_compute; reflexivity).
  assert (well_formed (fs (quiet_world peer_tree))) as Hwf
    by (apply well_formed_check_sound; vm_compute; reflexivity).
  assert (permission_granted ["peer"] notes_update (quiet_world peer_tree) = true)
    as Hgranted by (vm_compute; reflexivity).
  assert (fs (quiet_world peer_tree) !! (["peer"] ++ ["notes.txt"])
          = Some (File (Bytes [x6f; x6c; x64]))) as Hold
    by (vm_compute; reflexivity).
  split; [exact Hout |]. split; [exact Hfile |].
  split; [apply quiet_world_no_faults |]. split; [exact Hwf |].
  split; [exact Hgranted |]. split; [exact Hold |].
  exact (proj1 (dispatched_content_arrives "peer-b" notes ["notes.txt"] UPDATE
                  _ notes_update (Bytes [x68; x69]) (quiet_world home_tree) _
                  ["peer"] (quiet_world peer_tree)
                  (surjective_pairing _) Hout Hfile
                  (quiet_world_no_faults peer_tree) Hwf Hgranted)
           eq_refl _ Hold).
Defined.

(** The rule for peer-c is set a second time. *)
Lemma set_sync_priority_idempotent_witness :
  no_faults (quiet_world home_tree) ∧
  set_sync_priority notes (UserList ["peer-c"]) (PriorityStr "instant") None
    (quiet_world home_tree) = (Ok true, after_first_set) ∧
  set_sync_priority notes (UserList ["peer-c"]) (PriorityStr "instant") None
    after_first_set = (Ok true, after_first_set).
Proof.
  assert (set_sync_priority notes (UserList ["peer-c"]) (PriorityStr "instant") None
            (quiet_world home_tree) = (Ok true, after_first_set)) as Hset
    by (vm_compute; reflexivity).
  split; [apply quiet_world_no_faults |]. split; [exact Hset |].
  exact (set_sync_priority_idempotent notes (UserList ["peer-c"])
           (PriorityStr "instant") None (quiet_world home_tree) after_first_set
           (quiet_world_no_faults home_tree) Hset).
Defined.

(** The rule for peer-c is set and removed again: the rule of the notes is
    what remains. *)
Lemma set_then_remove_restores_witness :
  no_faults (quiet_world home_tree) ∧
  list_sync_priorities notes (quiet_world home_tree)
  = (Ok [notes_rule], quiet_world home_tree) ∧
  (∀ rule u, rule ∈ [notes_rule] → u ∈ users_of (UserList ["peer-c"]) →
             u ∉ users rule) ∧
  set_sync_priority notes (UserList ["peer-c"]) (PriorityStr "instant") None
    (quiet_world home_tree) = (Ok true, after_first_set) ∧
  ∃ w2,
    remove_sync_priority notes (Some (UserList ["peer-c"])) after_first_set
    = (Ok true, w2) ∧
    list_sync_priorities notes w2 = (Ok [notes_rule], w2).
Proof.
  assert (list_sync_priorities notes (quiet_world home_tree)
          = (Ok [notes_rule], quiet_world home_tree)) as Hold
    by (vm_compute; reflexivity).
  assert (∀ rule u, rule ∈ [notes_rule] → u ∈ users_of (UserList ["peer-c"]) →
                    u ∉ users rule) as Hdis.
  { intros rule u ->%list_elem_of_singleton ->%list_elem_of_singleton Hin.
    apply list_elem_of_In in Hin. cbn in Hin. intuition discriminate. }
  assert (set_sync_priority notes (UserList ["peer-c"]) (PriorityStr "instant") None
            (quiet_world home_tree) = (Ok true, after_first_set)) as Hset
    by (vm_compute; reflexivity).
  split; [apply quiet_world_no_faults |]. split; [exact Hold |].
  split; [exact Hdis |]. split; [exact Hset |].
  destruct (set_then_remove_restores notes (UserList ["peer-c"])
              (PriorityStr "instant") None [notes_rule] (quiet_world home_tree)
              after_first_set (quiet_world_no_faults home_tree) Hold Hdis Hset)
    as (w2 & Hrm & Hlist & _).
  exists w2. split; [exact Hrm | exact Hlist].
Defined.

(** A create where the file cannot be opened for writing: /home/inbox is
    left behind. *)
Lemma handle_create_leaves_directories_witness :
  refused (read_only_world home_tree)
    (SysMkdir (parent ["home"; "inbox"; "new.txt"])) = false ∧
  existsb (is_file_at (fs (read_only_world home_tree)))
    (prefixes (parent ["home"; "inbox"; "new.txt"])) = false ∧
  fs (read_only_world home_tree) !! ["home"; "inbox"; "new.txt"] = None ∧
  refused (read_only_world home_tree) (SysOpenWrite ["home"; "inbox"; "new.txt"])
  = true ∧
  ∃ resp w',
    _handle_create (create_request ["inbox"; "new.txt"])
      ["home"; "inbox"; "new.txt"] (read_only_world home_tree) = (Ok resp, w') ∧
    success resp = false ∧ error_code resp = Some "CREATE_ERROR" ∧
    fs w' !! ["home"; "inbox"; "new.txt"] = None ∧
    fs w' !! ["home"; "inbox"] = Some Dir.
Proof.
  assert (existsb (is_file_at (fs (read_only_world home_tree)))
            (prefixes (parent ["home"; "inbox"; "new.txt"])) = false) as Hfree
    by (vm_compute; reflexivity).
  assert (fs (read_only_world home_tree) !! ["home"; "inbox"; "new.txt"] = None)
    as Habs by (vm_compute; reflexivity).
  split; [reflexivity |]. split; [exact Hfree |]. split; [exact Habs |].
  split; [reflexivity |].
  destruct (handle_create_leaves_directories (create_request ["inbox"; "new.txt"])
              ["home"; "inbox"; "new.txt"] (read_only_world home_tree)
              eq_refl Hfree Habs ltac:(discriminate) eq_refl)
    as (resp & w' & Hrun & Hfalse & Hcode & _ & Hstill & Hdirs).
  exists resp, w'. split; [exact Hrun |]. split; [exact Hfalse |].
  split; [exact Hcode |]. split; [exact Hstill |].
  apply Hdirs. reflexivity.
Defined.

(** Listing the rules of the notes, and of notes that cannot be reached. *)
Lemma listed_rules_name_users_witness :
  stat_refused (quiet_world home_tree) (syncpriority_path notes) = false ∧
  stat_refused (unreachable_world home_tree) (syncpriority_path notes) = true ∧
  (∃ rs,
     list_sync_priorities notes (quiet_world home_tree)
     = (Ok rs, quiet_world home_tree) ∧
     ∀ rule, rule ∈ rs → users rule ≠ []) ∧
  list_sync_priorities notes (unreachable_world home_tree)
  = (Raise PermissionError, unreachable_world home_tree).
Proof.
  split; [reflexivity |]. split; [reflexivity |]. split.
  - destruct (proj2 (listed_rules_name_users notes (quiet_world home_tree))
                eq_refl) as (rs & Hrun & Hvalid & _).
    exists rs. split; [exact Hrun | exact Hvalid].
  - exact (proj1 (listed_rules_name_users notes (unreachable_world home_tree))
             eq_refl).
Defined.
